(* ===== verification/_CoqProject ===== *)
-Q . S2P
Prelude.v
JsRuntime.v
Types.v
Catalog.v
AppState.v
Session.v
Stats.v
Labels.v
Flavor.v
Media.v
Remote.v
Gemini.v
Scheduler.v
TicketModal.v
Invariants.v
Behaviour.v
Liveness.v
Lifecycle.v
Scenarios.v
Registry.v
TrainAnimation.v
Audio.v
Display.v
Page.v
