(* ===== verification/Prelude.v ===== *)
(** * FocusExpress: a verification development

    FocusExpress (src/) is a React/TypeScript focus timer.  The user picks a
    destination, which fixes the session's duration, and a mission label.
    Then they depart: a ticket animation runs and a countdown starts.  The
    session can be paused, resumed, finished early, or abandoned with two
    presses.  Every arrival prepends a session record to an in-memory
    history, and the Stats panel shows aggregates of it.  A generative-AI
    service supplies flavour data (station, weather, local time) and falls
    back to fixed data when the call fails.

    ** The parts of the program and how they interact

    All the state lives in the hooks of the [App] component
    (src/App.tsx).  The user's clicks run handlers that update it.  After
    every render its [useEffect]s react to changed dependencies:
    - the fetch effect starts [fetchDataForDestination] for a new
      destination;
    - the timer effect registers the 1 s countdown interval while
      RUNNING, or completes the session when the countdown is at 0;
    - the tip effect registers the 30 s tip interval while RUNNING.
    - the audio effects switch the music track and play or pause it.
    The countdown interval, the tip interval, the abandon timeout and the
    settling promises of the service drive the rest.  [App] renders
    [TicketModal] while booking (its own timers run the ticket animation
    and end in [onAnimationComplete]), [TrainAnimation] and [Stats].

    ** Files, in dependency order

    - [Prelude] (this file): the scope [fx_scope], the hint databases [fx]
      and [fx_rw], the generic lemmas on [Z] and on [reduce] sums, and the
      earliest-timer search [earliest_by] the two timer queues share.
    - [JsRuntime]: the JavaScript built-ins the code calls.
      [Math.floor] and [Math.round] of a quotient (not finite on a
      division by 0), [Math.random() * n] floored, [trim], [toLowerCase],
      [toUpperCase], [includes], [startsWith], truthiness, array indexing
      (with [undefined] out of range) and property lookup on an object
      literal, with the members it inherits from [Object.prototype].
    - [Types]: src/types.ts, as inductive types and records.
    - [Catalog]: the constant tables of src/App.tsx (lines 11-264).
    - [AppState]: the record [App] of the 28 state hooks (lines 273-317)
      and their initial values [initial_app].  [Intent] is the type of the
      side effects a handler issues.
    - [Session]: the session handlers of src/App.tsx (lines 433-712),
      from [handleDepartClick] to [completeSession].  Each maps the state
      of its render to the new state and its intents.
    - [Stats]: src/components/Stats.tsx.
    - [Labels]: the mission-label handlers (lines 577-608 and the inline
      handlers of the label picker and editor).
    - [Flavor]: [fetchDataForDestination] (lines 384-423).
    - [Media]: the music controls and the tip interval's callback.
    - [Remote]: the interface [FlavorService]: how the promise of
      [getDestinationRealtimeData] settles for a given network behaviour.
    - [Gemini]: src/services/geminiService.ts as an instance of
      [FlavorService]; it never rejects.  The prompt template, the request
      and its response schema are definitions.
    - [Scheduler]: the page as a transition system, over any
      [FlavorService].  A [World] holds the hooks, the clock (ms), the
      timers in creation order and the promises in flight.
      - [world_step] is one macrotask: a click on a control the render
        shows ([enabledb]), the earliest timer firing, time passing, or a
        promise settling.  The overlays (label editor, freestyle modal,
        ticket) do not disable the page's controls below them: keyboard
        focus reaches those buttons.
      - After a handler, its intents run, then [commit] runs the effects
        whose dependencies changed.
      - [reachable t0] is the set of worlds reachable from the page
        loaded at time [t0].
    - [TicketModal]: src/components/TicketModal.tsx.  [Modal] holds its
      two state hooks, its clock and its timeout queue.  [handleSeatClick],
      the stage effect with its cleanup, the nested stamp timeout and the
      effect's re-run on a new [onAnimationComplete] closure are
      operations; [modal_step] is one event of the modal, and
      [modal_view] is what each stage renders (C22-C24, C37).
    - [Invariants]: [timer_inv] on the hooks and [world_inv] on the
      world.  [reachable_world_inv] shows [world_inv] for every
      reachable world, by one lemma per handler and effect (C1-C3).
    - [Behaviour]: what one macrotask does, computed through the effects
      pass: a second of the countdown, finishing early, the two-press
      abandon, a frozen paused session, a rejected departure (C7-C11).
    - [Liveness]: a running session completes by its timers alone, within
      [timeLeft] seconds (C12).
    - [Lifecycle]: the specification's session state machine as a
      relation [spec_step] on the abstract state [Abs] (timer state, time
      left, initial duration, history), the steps [overlay_step] the page
      takes beyond it through a control of an overlay left open over a
      page that is not IDLE, and the refinement theorem: every macrotask
      of the page is one of these steps under [abs] (C4-C6).
    - [Scenarios]: what else modelling found, each as a theorem over every
      state or every reachable world with a witness page reached from
      page load (C19-C21, C29).
    - [Registry]: the invariant of the label registry and the label
      editor's palette over every reachable world (C18).
    - [TrainAnimation]: src/components/TrainAnimation.tsx: the image
      fail-over of its one state hook, the colour theme, the weather layer
      and what the render shows (C27-C28).
    - [Audio]: the music element of [App] driven by its mount, track and
      playback effects, run beside the scheduler (C30-C32).
    - [Display]: the helpers the render prints with: [formatTime],
      [formatDurationDisplay], [getLabelColorClasses] and [progress],
      with decoders that read a printed clock or duration back, and the
      entries of the Travel Log (C33-C36, C38).
    - [Page]: the main panel of [App]'s render as data: widgets, station
      panel, countdown, the selectors of an IDLE page and the buttons of
      each state, each control with the event its handler runs, and the
      statistics section and Travel Log below it (C39).

    ** The theorems

    - Invariants of every reachable world, with every control of the page
      usable behind an open overlay: sessions are well formed
      ([0 <= actual <= planned]); [0 <= timeLeft <= initialDuration]; one
      countdown and one tip interval exactly while RUNNING; labels, active
      label and palette well formed; the train coloured by a key of
      [colorMap] (C1-C3, C18, C28).
    - Refinement: every macrotask of the page is a step of the
      specification's transition table, or one of the steps an overlay's
      control takes over a page that is not IDLE: the freestyle modal's
      confirm restarts the countdown (C5), and a boarding after the
      countdown ended records the trip a second time (C6) (C4-C6).
    - The functional behaviour of the handlers and of the timers, with
      their error paths: the validation alerts, the freestyle modal's zero
      duration, a service failure giving the fallback or [null], the
      request sent to the service and its schema (C7-C11, C13-C16,
      C25-C26); the average of the Stats panel is finite, 0 for an empty
      history (C17).
    - Liveness and termination: the countdown completes within
      [timeLeft] seconds ([countdown_measure]); the ticket modal reaches
      its [onAnimationComplete] call ([modal_work]); the image fail-over
      stops after two errors (C12, C22, C27).
    - The ticket's timeline from seat click to completion, 7.3 s after
      the click, for every start time and seat (C23), a render of [App]
      during it (C24), and the boarding pass showing the clicked seat in
      every reachable state (C37).
    - The music: it plays exactly when RUNNING with the music on, never
      otherwise even when the browser refuses [play()], and its effects
      never index out of range (C30-C32).
    - What the page prints: the clock reads back as the seconds left,
      the duration label as the hours to a tenth, the label chips get
      their template's classes for every colour that is not the name of a
      member of [Object.prototype], and the progress bar stays in
      [0, 100] on every reachable page (C33-C36); the Stats panel counts
      exactly the trips the Travel Log lists (C39).
    - Findings, each a theorem over every state or every reachable world
      with a witness page (C5-C6, C19-C21, C24, C29, C35, C38).
    The claims are numbered C1-C39 in their doc comments.

    ** Bounds and fuel

    No definition uses fuel: every function is structural.  The scheduler
    and the ticket modal are relations, [step] and [modal_rel], and [run]
    and [modal_run] execute finite lists of events.  Termination of the
    countdown and of the ticket animation are theorems with explicit
    measures, not fuel.  The witnesses run concrete traces of up to 311
    events by [vm_compute].  The ticket's timeline is proved at time 0 by
    evaluation over the 12 seats and moved to any start time by the
    clock-shift lemmas of [TicketModal]; the render during it, by
    evaluation over the 12 seats and the 1000 render times of its window.

    ** Modelling conventions

    - JavaScript numbers are [Z] where the program only forms integers
      (seconds, minutes, milliseconds since the epoch).  They are [Q] where
      it holds decimals (coordinates, temperatures, volumes,
      [Math.random()]).  [Math.floor(a / b)] and [Math.round(a / b)] are
      exact integer formulas on [Z]; [Math.round(a / 0)] is not a finite
      number ([None]).  This is exact for the program's magnitudes (below
      2^53).  [initialDuration / 60] in [newSession] is exact division
      because [initialDuration] is a whole number of minutes in every
      reachable state ([ti_init_min]).
    - Strings are [String.string].  [trim] and [toLowerCase] act on ASCII.
    - [undefined] and [null] are [None]; optional fields are [option].
    - A React state update is a record update.  The updates of one handler
      are composed in the order the handler issues them.  This is React's
      batching: a handler sees the state of its own render.
    - The timers run in due order, ties in creation order, as the
      browser's timer queue does ([earliest_by] below).

    ** Not modelled

    - The JSX markup's class names, CSS animations, icons and random
      particle positions.  Of the render, the controls with their
      handlers, the texts and values shown ([Page], [Display],
      [TicketModal.modal_view]) and the scene of [TrainAnimation] are
      modelled.
    - The one-shot sounds [playClick] and [playSfx]: they change no state
      and swallow their failures; they are intents.
    - The inside of [JSON.parse] and of the SDK call, which are inputs of
      [Gemini.getDestinationRealtimeData]; the backend itself.
    - Stats.tsx's markup: only the three figures it computes.
    - The printed form of an inherited [Object.prototype] member inside a
      class string is V8's; engines may print a built-in's source text
      differently.  Only a colour outside the palette reaches it.
    - [TrainAnimation]'s [colorMap] lookup finds own keys only: its theme
      colour is a palette colour on every reachable page (C28). *)

From Stdlib Require Import ZArith Lia List.
From stdpp Require Import base list.

Declare Scope fx_scope.
Delimit Scope fx_scope with fx.

Create HintDb fx discriminated.
Create Rewrite HintDb fx_rw.

(** ** Integers *)

Section ZFacts.
Local Open Scope Z_scope.

(** [m * 60 / 60 = m]: whole minutes converted to seconds and back. *)
Lemma Z_mul_div_cancel (m k : Z) : 0 < k -> m * k / k = m.
Proof. intros Hk. apply Z.div_mul. lia. Qed.

Lemma Z_div_nonneg (a k : Z) : 0 <= a -> 0 < k -> 0 <= a / k.
Proof. intros. apply Z.div_pos; lia. Qed.

Lemma Z_div_le_div (a b k : Z) : a <= b -> 0 < k -> a / k <= b / k.
Proof. intros. apply Z.div_le_mono; lia. Qed.
End ZFacts.

#[export] Hint Resolve Z_div_nonneg Z_div_le_div : fx.

(** ** Folds as JavaScript's [Array.prototype.reduce] *)

Section Fold.
Context {A : Type}.

(** [xs.reduce((acc, x) => acc + f x, 0)] *)
Definition reduce_sum (f : A -> Z) (xs : list A) : Z :=
  fold_left (fun acc x => (acc + f x)%Z) xs 0%Z.

Lemma fold_left_sum_shift (f : A -> Z) (xs : list A) (z : Z) :
  fold_left (fun acc x => (acc + f x)%Z) xs z =
  (z + fold_left (fun acc x => (acc + f x)%Z) xs 0)%Z.
Proof.
  revert z. induction xs as [|x xs IH]; intros z; simpl; [lia|].
  rewrite (IH (z + f x)%Z), (IH (0 + f x)%Z). lia.
Qed.

Lemma reduce_sum_nil (f : A -> Z) : reduce_sum f [] = 0%Z.
Proof. reflexivity. Qed.

Lemma reduce_sum_cons (f : A -> Z) x xs :
  reduce_sum f (x :: xs) = (f x + reduce_sum f xs)%Z.
Proof. unfold reduce_sum. simpl. rewrite fold_left_sum_shift. lia. Qed.

Lemma reduce_sum_app (f : A -> Z) xs ys :
  reduce_sum f (xs ++ ys) = (reduce_sum f xs + reduce_sum f ys)%Z.
Proof.
  induction xs as [|x xs IH]; simpl; [rewrite reduce_sum_nil; lia|].
  rewrite !reduce_sum_cons, IH. lia.
Qed.

Lemma reduce_sum_nonneg (f : A -> Z) xs :
  Forall (fun x => 0 <= f x)%Z xs -> (0 <= reduce_sum f xs)%Z.
Proof.
  induction 1; [discriminate|]. rewrite reduce_sum_cons. lia.
Qed.

Lemma reduce_sum_le (f : A -> Z) (m : Z) xs :
  Forall (fun x => f x <= m)%Z xs -> (reduce_sum f xs <= Z.of_nat (length xs) * m)%Z.
Proof.
  induction 1; [rewrite reduce_sum_nil; simpl; lia|]. rewrite reduce_sum_cons. simpl length. lia.
Qed.
End Fold.

#[export] Hint Rewrite @reduce_sum_nil @reduce_sum_cons @reduce_sum_app : fx_rw.

(** ** The browser's timer queue

    The timers of a page in creation order, each with its due time; the
    one that fires next is the first, in creation order, of those with the
    smallest due time.  [Scheduler] (the page) and [TicketModal] (the
    boarding animation) select their timers this way. *)

Section TimerQueue.
Context {A : Type} (due : A -> Z).
Local Open Scope Z_scope.

Definition min_due_by (ts : list A) : option Z :=
  fold_left (fun acc p => match acc with
                          | Some m => Some (Z.min m (due p))
                          | None => Some (due p)
                          end) ts None.

Definition earliest_by (ts : list A) : option (nat * A) :=
  match min_due_by ts with
  | Some m => list_find (fun p => due p = m) ts
  | None => None
  end.

Lemma min_due_by_spec ts m :
  min_due_by ts = Some m -> m ∈ map due ts /\ Forall (fun p => m <= due p) ts.
Proof.
  unfold min_due_by. assert (Hgen : forall acc,
    fold_left (fun acc p => match acc with Some m => Some (Z.min m (due p)) | None => Some (due p) end) ts acc = Some m ->
    (acc = Some m \/ m ∈ map due ts) /\ (forall a, acc = Some a -> m <= a) /\ Forall (fun p => m <= due p) ts).
  { induction ts as [|q ts IH]; intros acc H; cbn [fold_left] in H.
    - subst. split; [by left|]. split; [intros a Ha; injection Ha as ->; lia|constructor].
    - destruct (IH _ H) as (Hin & Hle & Hall). destruct acc as [a|].
      + split; [|split].
        * destruct Hin as [Hin|Hin]; [|right; by apply elem_of_cons; right].
          injection Hin as Hin. destruct (Z.min_spec a (due q)) as [[_ Hm]|[_ Hm]]; rewrite Hm in Hin.
          -- by left; subst. -- right; subst; apply elem_of_cons; by left.
        * intros a' Ha'. injection Ha' as <-. specialize (Hle _ eq_refl). lia.
        * constructor; [specialize (Hle _ eq_refl); lia|done].
      + split; [|split].
        * destruct Hin as [Hin|Hin]; [injection Hin as <-; right; apply elem_of_cons; by left|].
          right; by apply elem_of_cons; right.
        * intros a' Ha'; discriminate.
        * constructor; [specialize (Hle _ eq_refl); lia|done]. }
  intros H. destruct (Hgen None H) as ([Hin|Hin] & _ & Hall); [discriminate|done].
Qed.

Lemma earliest_by_spec ts i p :
  earliest_by ts = Some (i, p) -> ts !! i = Some p /\ Forall (fun q => due p <= due q) ts.
Proof.
  unfold earliest_by. destruct (min_due_by ts) as [m|] eqn:Hm; [|discriminate].
  intros Hf. apply list_find_Some in Hf as (Hi & Hp & _).
  destruct (min_due_by_spec ts m Hm) as [_ Hall]. split; [done|]. by rewrite Hp.
Qed.

(** A timer fires whenever one is registered. *)
Lemma earliest_by_some ts : ts <> [] -> exists i p, earliest_by ts = Some (i, p).
Proof.
  intros Hne. unfold earliest_by. destruct (min_due_by ts) as [m|] eqn:Hm.
  - destruct (min_due_by_spec _ _ Hm) as [Hin _]. change (m ∈ due <$> ts) in Hin.
    apply list_elem_of_fmap in Hin as (q & -> & Hq).
    destruct (list_find (fun p => due p = due q) ts) as [[i p]|] eqn:Hf; [by eauto|].
    exfalso. apply list_find_None in Hf. rewrite Forall_forall in Hf. by apply (Hf q).
  - exfalso. destruct ts as [|q ts]; [done|]. clear Hne. revert Hm. unfold min_due_by. cbn [fold_left].
    generalize (due q). induction ts as [|q' ts IH]; intros d; cbn [fold_left]; [discriminate|apply IH].
Qed.
End TimerQueue.

(** ** Tactics *)

(** Case analysis on the boolean tests and [decide]s of a handler body. *)
Ltac fx_cases :=
  repeat match goal with
  | |- context [if decide ?P then _ else _] => destruct (decide P)
  | |- context [if ?b then _ else _] =>
      lazymatch b with
      | decide _ => fail
      | _ => destruct b eqn:?
      end
  end.
