(* ===== verification/JsRuntime.v ===== *)
(** * JavaScript built-ins used by the source

    The functions of the JavaScript runtime that src/ calls, as executable
    Rocq functions: [Math.floor] and [Math.round] of an integer quotient,
    [Math.floor(Math.random() * n)] as an index, and the string methods
    [trim], [toLowerCase], [includes], [startsWith], [padStart] and the
    decimal [toString] of a non-negative integer.  They are the semantics
    of the platform, not code of the repository; the lemmas below are the
    facts the component files use about them. *)

From Stdlib Require Import ZArith QArith Qround Lia List Ascii String.
From stdpp Require Import base list strings pretty.
From S2P Require Import Prelude.

Local Open Scope Z_scope.

(** ** Arithmetic *)

(** [Math.floor(a / b)] for integers [a], [b] with [b > 0]. *)
Definition js_floor_div (a b : Z) : Z := a / b.

(** [Math.round(a / b)] on integers.  JavaScript rounds halves towards
    [+Infinity]: for [b > 0] this is [floor(a / b + 1/2) = floor((2a + b) / 2b)],
    and a negative [b] divides [-a] by [-b].  [a / 0] is [NaN] or an
    infinity, which [Math.round] returns unchanged: [None], a number that
    is not finite. *)
Definition js_round_div (a b : Z) : option Z :=
  if bool_decide (b = 0) then None
  else if bool_decide (b < 0) then Some ((- 2 * a - b) / (- 2 * b))
  else Some ((2 * a + b) / (2 * b)).

(** [Math.floor(r * n)] with [r] the result of [Math.random()]. *)
Definition js_random_index (r : Q) (n : Z) : Z := Qfloor (r * inject_Z n).

Lemma js_round_div_pos (a b : Z) : 0 < b -> js_round_div a b = Some ((2 * a + b) / (2 * b)).
Proof. intros Hb. unfold js_round_div. by rewrite !bool_decide_eq_false_2 by lia. Qed.

Lemma js_round_div_zero (a : Z) : js_round_div a 0 = None.
Proof. reflexivity. Qed.

(** The rounded quotient is within half of [b] of [a]. *)
Lemma js_round_div_spec (a b : Z) :
  0 < b -> exists r, js_round_div a b = Some r /\ b * r <= a + b / 2 /\ 2 * a < 2 * b * r + b.
Proof.
  intros Hb. rewrite js_round_div_pos by exact Hb. eexists. split; [reflexivity|].
  pose proof (Z.div_mod (2 * a + b) (2 * b) ltac:(lia)) as Hdm.
  pose proof (Z.mod_pos_bound (2 * a + b) (2 * b) ltac:(lia)) as Hm.
  pose proof (Z.div_mod b 2 ltac:(lia)). pose proof (Z.mod_pos_bound b 2 ltac:(lia)).
  split; nia.
Qed.

(** Rounding the mean of values in [0, b * m] stays in [0, m]. *)
Lemma js_round_div_bounds (a b m : Z) :
  0 < b -> 0 <= a <= b * m -> exists r, js_round_div a b = Some r /\ 0 <= r <= m.
Proof.
  intros Hb Ha. rewrite js_round_div_pos by exact Hb. eexists. split; [reflexivity|]. split.
  - apply Z.div_pos; lia.
  - enough ((2 * a + b) / (2 * b) < m + 1) by lia.
    apply Z.div_lt_upper_bound; nia.
Qed.

(** [Math.floor(Math.random() * n)] is an index of an array of length [n]. *)
Lemma js_random_index_range (r : Q) (n : Z) :
  (0 <= r)%Q -> (r < 1)%Q -> 0 < n -> 0 <= js_random_index r n < n.
Proof.
  intros H0 H1 Hn. unfold js_random_index. split.
  - rewrite <- (Qfloor_Z 0). apply Qfloor_resp_le.
    apply Qmult_le_0_compat; [exact H0|].
    change (inject_Z 0 <= inject_Z n)%Q. rewrite <- Zle_Qle. lia.
  - rewrite Zlt_Qlt. apply (Qle_lt_trans _ (r * inject_Z n)); [apply Qfloor_le|].
    apply (Qlt_le_trans _ (1 * inject_Z n)).
    + apply Qmult_lt_r; [change (inject_Z 0 < inject_Z n)%Q; rewrite <- Zlt_Qlt; lia | exact H1].
    + rewrite Qmult_1_l. apply Qle_refl.
Qed.

(** ** Strings *)

Local Open Scope string_scope.

(** The ASCII whitespace [String.prototype.trim] removes. *)
Definition is_js_space (c : ascii) : bool :=
  match nat_of_ascii c with
  | 9 | 10 | 11 | 12 | 13 | 32 => true
  | _ => false
  end%nat.

Fixpoint trim_start (s : string) : string :=
  match s with
  | EmptyString => EmptyString
  | String c s' => if is_js_space c then trim_start s' else s
  end.

Definition trim_end (s : string) : string :=
  String.rev (trim_start (String.rev s)).

(** [s.trim()] *)
Definition js_trim (s : string) : string := trim_end (trim_start s).

Definition ascii_lower (c : ascii) : ascii :=
  let n := nat_of_ascii c in
  if (65 <=? n)%nat && (n <=? 90)%nat then ascii_of_nat (n + 32) else c.

(** [s.toLowerCase()] on ASCII. *)
Fixpoint js_lower (s : string) : string :=
  match s with
  | EmptyString => EmptyString
  | String c s' => String (ascii_lower c) (js_lower s')
  end.

Definition ascii_upper (c : ascii) : ascii :=
  let n := nat_of_ascii c in
  if (97 <=? n)%nat && (n <=? 122)%nat then ascii_of_nat (n - 32) else c.

(** [s.toUpperCase()] on ASCII. *)
Fixpoint js_upper (s : string) : string :=
  match s with
  | EmptyString => EmptyString
  | String c s' => String (ascii_upper c) (js_upper s')
  end.

(** [s.startsWith(p)] *)
Fixpoint js_starts_with (p s : string) : bool :=
  match p, s with
  | EmptyString, _ => true
  | String c p', String d s' => bool_decide (c = d) && js_starts_with p' s'
  | String _ _, EmptyString => false
  end.

(** [s.includes(p)] *)
Fixpoint js_includes (s p : string) : bool :=
  js_starts_with p s ||
  match s with
  | EmptyString => false
  | String _ s' => js_includes s' p
  end.

(** [n.toString()] for a non-negative integer. *)
Definition js_to_string (n : Z) : string :=
  if bool_decide (n < 0) then "-" +:+ pretty (Z.to_N (- n)) else pretty (Z.to_N n).

(** [s.padStart(w, c)] *)
Definition js_pad_start (w : nat) (c : ascii) (s : string) : string :=
  String.append (String.concat "" (repeat (String c EmptyString) (w - String.length s))) s.

(** [s.trim()] is empty or starts and ends with a non-space. *)
Lemma trim_start_idem (s : string) : trim_start (trim_start s) = trim_start s.
Proof.
  induction s as [|c s IH]; simpl; [reflexivity|].
  destruct (is_js_space c) eqn:E; [exact IH|]. simpl. rewrite E. reflexivity.
Qed.

Lemma js_starts_with_app (p s : string) : js_starts_with p (p +:+ s) = true.
Proof.
  induction p as [|c p IH]; simpl; [reflexivity|].
  rewrite IH, bool_decide_eq_true_2 by reflexivity. reflexivity.
Qed.

Lemma js_includes_prefix (p s : string) :
  js_starts_with p s = true -> js_includes s p = true.
Proof. destruct s; simpl; intros ->; reflexivity. Qed.

Lemma js_includes_cons (c : ascii) (s p : string) :
  js_includes s p = true -> js_includes (String c s) p = true.
Proof. intros H. simpl. rewrite H. apply orb_true_r. Qed.

(** [includes] finds a pattern anywhere in the string. *)
Lemma js_includes_app (pre p post : string) : js_includes (pre +:+ p +:+ post) p = true.
Proof.
  induction pre as [|c pre IH].
  - exact (js_includes_prefix _ _ (js_starts_with_app p post)).
  - apply js_includes_cons, IH.
Qed.

Lemma js_starts_with_app_r (p s q : string) :
  js_starts_with p s = true -> js_starts_with p (s +:+ q) = true.
Proof.
  revert s. induction p as [|c p IH]; intros [|d s] H; simpl in *; try done.
  apply andb_prop in H as [Hc H]. rewrite Hc. by apply IH.
Qed.

(** A pattern found in a part is found in the whole. *)
Lemma js_includes_app_l (q s p : string) : js_includes s p = true -> js_includes (q +:+ s) p = true.
Proof. induction q as [|c q IH]; [done|]. intros H. apply js_includes_cons, IH, H. Qed.

Lemma js_includes_app_r (s q p : string) : js_includes s p = true -> js_includes (s +:+ q) p = true.
Proof.
  induction s as [|c s IH]; simpl; intros H.
  - rewrite orb_false_r in H. destruct p; [|discriminate]. by apply js_includes_prefix.
  - apply orb_prop in H as [H|H]; apply orb_true_intro;
      [left; exact (js_starts_with_app_r p (String c s) q H)|right; by apply IH].
Qed.

Lemma js_includes_refl (s : string) : js_includes s s = true.
Proof.
  apply js_includes_prefix. induction s as [|c s IH]; [done|]. cbn. by rewrite bool_decide_eq_true_2.
Qed.

(** Finds [p] in a concatenation that has [p] as one of its parts. *)
Ltac js_find :=
  lazymatch goal with
  | |- js_includes (?x +:+ _) ?x = true => apply js_includes_prefix, js_starts_with_app
  | |- js_includes ?x ?x = true => apply js_includes_refl
  | |- js_includes (_ +:+ _) _ = true =>
      first [apply js_includes_app_r; js_find | apply js_includes_app_l; js_find]
  end.

(** ** Truthiness *)

(** A string is truthy when it is not empty. *)
Definition js_truthy_string (s : string) : bool := negb (bool_decide (s = "")).

(** [x] in a boolean context, for [x : string | null | undefined]. *)
Definition js_truthy_opt_string (o : option string) : bool :=
  match o with Some s => js_truthy_string s | None => false end.

(** [x || undefined] for [x : string | null]: the empty string is dropped. *)
Definition js_or_undefined_string (o : option string) : option string :=
  if js_truthy_opt_string o then o else None.

Lemma js_truthy_opt_string_some (o : option string) :
  js_truthy_opt_string o = true -> exists s, o = Some s /\ s <> "".
Proof.
  destruct o as [s|]; simpl; [|discriminate]. unfold js_truthy_string.
  intros H. exists s. split; [reflexivity|]. intros ->. discriminate.
Qed.

(** ** Arrays *)

(** [xs[i]]: [undefined] ([None]) outside [0 .. length - 1]. *)
Definition js_array_get {A} (xs : list A) (i : Z) : option A :=
  if bool_decide (i < 0)%Z then None else xs !! Z.to_nat i.

Lemma js_array_get_in_range {A} (xs : list A) (i : Z) :
  (0 <= i < Z.of_nat (length xs))%Z -> exists x, js_array_get xs i = Some x /\ x ∈ xs.
Proof.
  intros Hi. unfold js_array_get. rewrite bool_decide_eq_false_2 by lia.
  destruct (lookup_lt_is_Some_2 xs (Z.to_nat i)) as [x Hx]; [lia|].
  exists x. split; [exact Hx|]. by eapply list_elem_of_lookup_2.
Qed.

(** [xs[Math.floor(Math.random() * xs.length)]] is an element of a non-empty [xs]. *)
Lemma js_random_pick {A} (xs : list A) (r : Q) :
  (0 <= r)%Q -> (r < 1)%Q -> xs <> [] ->
  exists x, js_array_get xs (js_random_index r (Z.of_nat (length xs))) = Some x /\ x ∈ xs.
Proof.
  intros H0 H1 Hne. apply js_array_get_in_range, js_random_index_range; [exact H0|exact H1|].
  destruct xs; [congruence|]. simpl. lia.
Qed.

(** ** Objects *)

(** The properties an object literal inherits from [Object.prototype]
    (ECMAScript 2024, section 20.1.3, with Annex B's accessors). *)
Definition object_prototype_keys : list string :=
  ["constructor"; "hasOwnProperty"; "isPrototypeOf"; "propertyIsEnumerable"; "toLocaleString";
   "toString"; "valueOf"; "__defineGetter__"; "__defineSetter__"; "__lookupGetter__";
   "__lookupSetter__"; "__proto__"].

(** What [obj[k]] evaluates to on an object literal whose own entries are
    [obj]: the value of an own key, else the inherited member named [k]
    (a function, or [Object.prototype] itself for [__proto__], both
    truthy), else [undefined]. *)
Variant js_prop (A : Type) :=
  | JsOwn (v : A)
  | JsInherited (k : string)
  | JsUndefined.
Arguments JsOwn {A} v.
Arguments JsInherited {A} k.
Arguments JsUndefined {A}.

Definition js_get {A} (obj : list (string * A)) (k : string) : js_prop A :=
  match list_find (fun kv => kv.1 = k) obj with
  | Some (_, (_, v)) => JsOwn v
  | None => if bool_decide (k ∈ object_prototype_keys) then JsInherited k else JsUndefined
  end.

Lemma js_get_in_keys {A} (obj : list (string * A)) k :
  k ∈ obj.*1 -> exists v, js_get obj k = JsOwn v /\ (k, v) ∈ obj.
Proof.
  intros Hk. unfold js_get. destruct (list_find _ _) as [[i [k' v']]|] eqn:E.
  - apply list_find_Some in E as (Hl & Hk' & _). cbn in Hk'. subst k'.
    exists v'. split; [done|]. by eapply list_elem_of_lookup_2.
  - apply list_find_None in E. rewrite Forall_forall in E.
    apply list_elem_of_fmap in Hk as ([k' v'] & -> & Hin).
    by destruct (E _ Hin).
Qed.

Lemma js_get_not_own {A} (obj : list (string * A)) k :
  k ∉ obj.*1 -> js_get obj k = if bool_decide (k ∈ object_prototype_keys) then JsInherited k else JsUndefined.
Proof.
  intros Hk. unfold js_get. destruct (list_find _ _) as [[i [k' v']]|] eqn:E; [|reflexivity].
  apply list_find_Some in E as (Hl & Hk' & _). cbn in Hk'. subst k'. exfalso. apply Hk.
  apply list_elem_of_fmap. exists (k, v'). split; [done|]. by eapply list_elem_of_lookup_2.
Qed.
