(* ===== verification/Types.v ===== *)
(** * The data of src/types.ts

    One Rocq type per TypeScript declaration.  Each interface is a record in
    a module of its name, so that field accesses read as in the source
    ([Destination.durationMinutes d] for [d.durationMinutes]); optional
    fields ([field?: T]) are [option T].  [Station.environment] is a
    [string]: the TypeScript union ['city' | ... | 'clear'] is not checked at
    run time when a station comes from [JSON.parse] and a cast ([as
    Station]), so a station may carry any string there; [Environment] is the
    union itself, and [environment_of_string] its run-time membership test. *)

From Stdlib Require Import ZArith QArith String.
From stdpp Require Import base list strings decidable.
From S2P Require Import Prelude.

Local Open Scope string_scope.

#[export] Instance Q_eq_dec : EqDecision Q.
Proof. solve_decision. Defined.

(** [enum TimerState] *)
Inductive TimerState := IDLE | RUNNING | PAUSED | COMPLETED.

#[export] Instance TimerState_eq_dec : EqDecision TimerState.
Proof. solve_decision. Defined.

(** The union type of [Station.environment]. *)
Inductive Environment := city | nature | cyberpunk | desert | snow | clear.

#[export] Instance Environment_eq_dec : EqDecision Environment.
Proof. solve_decision. Defined.

Definition string_of_environment (e : Environment) : string :=
  match e with
  | city => "city" | nature => "nature" | cyberpunk => "cyberpunk"
  | desert => "desert" | snow => "snow" | clear => "clear"
  end.

(** The six admissible strings, in the order the source lists them. *)
Definition environments : list Environment := [city; nature; cyberpunk; desert; snow; clear].

(** [['city', ..., 'clear'].includes(s)], returning the member found. *)
Definition environment_of_string (s : string) : option Environment :=
  find (fun e => bool_decide (string_of_environment e = s)) environments.

Module Station.
#[projections(primitive)] Record t := mk {
  name : string;
  description : string;
  environment : string
}.
End Station.

#[export] Instance Station_eq_dec : EqDecision Station.t.
Proof. solve_decision. Defined.

Module Destination.
#[projections(primitive)] Record t := mk {
  id : string;
  name : string;
  region : string;
  durationMinutes : Z;
  distanceKm : Z;
  themeColor : string;
  imageUrl : string;
  lat : Q;
  lng : Q;
  timezone : string
}.
End Destination.

#[export] Instance Destination_eq_dec : EqDecision Destination.t.
Proof. solve_decision. Defined.

Module MissionLabel.
#[projections(primitive)] Record t := mk {
  id : string;
  name : string;
  color : string;
  icon : option string;
  subLabels : option (list string);
  isCustom : option bool;
  customSubLabelPrompt : option string
}.
End MissionLabel.

#[export] Instance MissionLabel_eq_dec : EqDecision MissionLabel.t.
Proof. solve_decision. Defined.

Module FocusSession.
#[projections(primitive)] Record t := mk {
  id : string;
  task : string;
  label : option MissionLabel.t;
  subLabel : option string;
  durationMinutes : Z;
  actualDurationMinutes : option Z;
  startTime : Z;
  completed : bool;
  station : option Station.t;
  destination : option Destination.t;
  seat : option string
}.
End FocusSession.

#[export] Instance FocusSession_eq_dec : EqDecision FocusSession.t.
Proof. solve_decision. Defined.

(** [interface GeminiStationResponse] (declared, not used by the code). *)
Module GeminiStationResponse.
#[projections(primitive)] Record t := mk { stationName : string; description : string; environment : string }.
End GeminiStationResponse.

Module GroundingChunk.
#[projections(primitive)] Record web_ref := mk_web { web_uri : string; web_title : string }.
#[projections(primitive)] Record maps_ref := mk_maps { maps_uri : string; maps_title : string; placeName : option string }.
#[projections(primitive)] Record t := mk { web : option web_ref; maps : option maps_ref }.
End GroundingChunk.

#[export] Instance GroundingChunk_web_eq_dec : EqDecision GroundingChunk.web_ref.
Proof. solve_decision. Defined.
#[export] Instance GroundingChunk_maps_eq_dec : EqDecision GroundingChunk.maps_ref.
Proof. solve_decision. Defined.
#[export] Instance GroundingChunk_eq_dec : EqDecision GroundingChunk.t.
Proof. solve_decision. Defined.

Module GeminiDestinationData.
#[projections(primitive)] Record weather_t := mk_weather { temp : Q; condition : string }.
#[projections(primitive)] Record t := mk {
  weather : weather_t;
  station : Station.t;
  localTime : string;
  groundingChunks : list GroundingChunk.t
}.
End GeminiDestinationData.

#[export] Instance GeminiDestinationData_weather_eq_dec : EqDecision GeminiDestinationData.weather_t.
Proof. solve_decision. Defined.
#[export] Instance GeminiDestinationData_eq_dec : EqDecision GeminiDestinationData.t.
Proof. solve_decision. Defined.

(** ** Facts on the environment union *)

Lemma environment_of_string_of_environment (e : Environment) :
  environment_of_string (string_of_environment e) = Some e.
Proof. destruct e; reflexivity. Qed.

Lemma environment_of_string_some (s : string) (e : Environment) :
  environment_of_string s = Some e -> s = string_of_environment e.
Proof.
  unfold environment_of_string. intros H.
  apply find_some in H as [_ H]. apply bool_decide_eq_true_1 in H. congruence.
Qed.

#[export] Hint Rewrite environment_of_string_of_environment : fx_rw.
