(* ===== verification/AppState.v ===== *)
(** * The state of the [App] component (src/App.tsx, lines 273-317)

    Every [useState] hook of [App] is a field of the record [App], with the
    hook's name and its initial value in [initial_app].  A handler's
    [setX(v)] is the record update [s{{ X := v }}] and a functional update
    [setX(prev => f prev)] is [s{{ X ::= f }}] (coqutil's record setters).
    The [useRef]s hold the audio element and the interval handle; the
    interval handle is modelled by the scheduler ([Scheduler]), the audio
    element is not modelled.

    A handler returns its new state and the list of the side effects it
    issues, in order: [Intent]. *)

From Stdlib Require Import ZArith QArith String.
From stdpp Require Import base list strings decidable.
From coqutil Require Import Datatypes.RecordSetters.
From S2P Require Import Prelude JsRuntime Types Catalog.
Import DoubleBraceUpdate.

Local Open Scope string_scope.
Local Open Scope Z_scope.

(** The icons [fetchDataForDestination] picks for the weather widget. *)
Inductive WeatherIcon := Sun | Snowflake | CloudRain | Wind | Cloud.

#[export] Instance WeatherIcon_eq_dec : EqDecision WeatherIcon.
Proof. solve_decision. Defined.

(** [interface WeatherState] (lines 266-271). *)
Module WeatherState.
#[projections(primitive)] Record t := mk {
  temp : Q;
  condition : string;
  environment : Environment;
  Icon : WeatherIcon
}.
End WeatherState.

#[export] Instance WeatherState_eq_dec : EqDecision WeatherState.t.
Proof. solve_decision. Defined.

(** The state hooks of [App], in the order of the source. *)
#[projections(primitive)] Record App := mkApp {
  timerState : TimerState;
  selectedDestination : Destination.t;
  timeLeft : Z;
  initialDuration : Z;
  showFreestyleModal : bool;
  customHours : Z;
  customMinutes : Z;
  taskDetail : string;
  availableLabels : list MissionLabel.t;
  activeLabel : option MissionLabel.t;
  activeSubLabel : option string;
  isCreatingLabel : bool;
  newLabelName : string;
  newLabelColor : string;
  newLabelIcon : string;
  currentStation : option Station.t;
  preloadedStation : option Station.t;
  sessions : list FocusSession.t;
  loadingStation : bool;
  isBooking : bool;
  selectedSeat : string;
  confirmAbandon : bool;
  currentTip : string;
  weather : WeatherState.t;
  localTime : string;
  groundingChunks : list GroundingChunk.t;
  isMusicOn : bool;
  currentTrackIndex : Z
}.

#[export] Instance App_eq_dec : EqDecision App.
Proof. solve_decision. Defined.

(** The initial values of the hooks. *)
Definition initial_app : App := {|
  timerState := IDLE;
  selectedDestination := Catalog.INITIAL_DESTINATION;
  timeLeft := Destination.durationMinutes Catalog.INITIAL_DESTINATION * 60;
  initialDuration := Destination.durationMinutes Catalog.INITIAL_DESTINATION * 60;
  showFreestyleModal := false;
  customHours := 0;
  customMinutes := 45;
  taskDetail := "";
  availableLabels := Catalog.PRESET_LABELS;
  activeLabel := None;
  activeSubLabel := None;
  isCreatingLabel := false;
  newLabelName := "";
  newLabelColor := "indigo";
  newLabelIcon := "tag";
  currentStation := None;
  preloadedStation := None;
  sessions := [];
  loadingStation := false;
  isBooking := false;
  selectedSeat := "";
  confirmAbandon := false;
  currentTip := nth 0 Catalog.MOTIVATIONAL_TIPS "";
  weather := WeatherState.mk 20 "Clear" clear Sun;
  localTime := "";
  groundingChunks := [];
  isMusicOn := false;
  currentTrackIndex := 0
|}.

(** How the awaited promise of [getDestinationRealtimeData] settles. *)
Inductive Settled :=
  | Resolved (r : option GeminiDestinationData.t)
  | Rejected.

(** The callbacks the handlers register with [setTimeout]. *)
Inductive Callback :=
  | DisarmAbandon.   (** [() => setConfirmAbandon(false)] of [abandonSession] *)

#[export] Instance Callback_eq_dec : EqDecision Callback.
Proof. solve_decision. Defined.

(** The side effects a handler issues. *)
Inductive Intent :=
  | PlayClick                         (** [playClick()] *)
  | PlaySfx (url : string)            (** [playSfx(url)] *)
  | Alert (msg : string)              (** [alert(msg)] *)
  | SetTimeout (ms : Z) (cb : Callback) (** [setTimeout(cb, ms)] *)
  | ClearTick                         (** [clearInterval(timerRef.current)] *)
  | AwaitStation (destName task : string).
      (** [await getDestinationRealtimeData(destName, task)] in
          [onTicketAnimationComplete]; its continuation is [boardingFetchDone]. *)

#[export] Instance Intent_eq_dec : EqDecision Intent.
Proof. solve_decision. Defined.
