(* ===== verification/Session.v ===== *)
(** * The session timer: handlers of src/App.tsx

    The handlers that move a session through IDLE, RUNNING, PAUSED and
    COMPLETED, one definition each, in the order of the source:
    [handleDepartClick], [confirmFreestyle], [onTicketAnimationComplete]
    (its synchronous part) and the continuation of its awaited fetch
    [boardingFetchDone], [pauseSession], the inline resume button,
    [abandonSession] with its [setTimeout] callback [disarmAbandon],
    [finishEarly], [completeSession], [resetTimer] and
    [handleSelectDestination]; then the interval callback [tick] and the
    decision of the timer [useEffect] ([timer_effect]).  Each takes the
    state of the render it was created in and returns the new state and its
    intents.  The scheduler ([Scheduler]) decides when each may run. *)

From Stdlib Require Import ZArith QArith String.
From stdpp Require Import base list strings decidable.
From coqutil Require Import Datatypes.RecordSetters.
From S2P Require Import Prelude JsRuntime Types Catalog AppState.
Import DoubleBraceUpdate.

Local Open Scope string_scope.
Local Open Scope Z_scope.

Module Session.

(** The three early returns of [handleDepartClick] (lines 513-528): the
    alert it shows, or [None] when the mission is complete. *)
Definition departValidation (s : App) : option string :=
  match activeLabel s with
  | None => Some "Please select a mission label (e.g., Study, Work)."
  | Some l =>
      if bool_decide (MissionLabel.subLabels l <> None)
         && negb (js_truthy_opt_string (activeSubLabel s)) then
        Some ("Please select a subject for " +:+ MissionLabel.name l +:+ ".")
      else
      match MissionLabel.customSubLabelPrompt l with
      | Some p =>
          if js_truthy_string p
             && (negb (js_truthy_opt_string (activeSubLabel s))
                 || negb (js_truthy_opt_string (option_map js_trim (activeSubLabel s)))) then
            Some ("Please enter the " +:+ js_lower p +:+ ".")
          else None
      | None => None
      end
  end.

(** [handleDepartClick] (lines 511-538). *)
Definition handleDepartClick (s : App) : App * list Intent :=
  match departValidation s with
  | Some msg => (s, [PlayClick; Alert msg])
  | None =>
      if bool_decide (Destination.id (selectedDestination s) = "freestyle") then
        (s{{ showFreestyleModal := true }}, [PlayClick])
      else (s{{ isBooking := true }}, [PlayClick])
  end.

(** The destinations [confirmFreestyle] draws from (lines 550-555): the
    hidden catalog, without the one just visited when the current
    destination is itself a surprise. *)
Definition freestyle_pool (sel : Destination.t) : list Destination.t :=
  if js_starts_with "freestyle-" (Destination.id sel) then
    match filter (fun d => "freestyle-" +:+ Destination.id d <> Destination.id sel)
                 Catalog.HIDDEN_DESTINATIONS with
    | [] => Catalog.HIDDEN_DESTINATIONS
    | avail => avail
    end
  else Catalog.HIDDEN_DESTINATIONS.

(** [surpriseDestination] (lines 560-566). *)
Definition surprise (d : Destination.t) (totalMinutes : Z) : Destination.t :=
  d{{ Destination.durationMinutes := totalMinutes;
      Destination.name := Destination.name d;
      Destination.id := "freestyle-" +:+ Destination.id d }}.

(** [confirmFreestyle] (lines 540-575), with [r] the value of
    [Math.random()].  [None] is the [TypeError] the source would raise if
    the random index fell outside the pool. *)
Definition confirmFreestyle (r : Q) (s : App) : option (App * list Intent) :=
  let totalMinutes := customHours s * 60 + customMinutes s in
  if bool_decide (totalMinutes <= 0) then
    Some (s, [PlayClick; Alert "Please set a duration greater than 0."])
  else
    let avail := freestyle_pool (selectedDestination s) in
    match js_array_get avail (js_random_index r (Z.of_nat (length avail))) with
    | None => None
    | Some randomDest =>
        Some (s{{ selectedDestination := surprise randomDest totalMinutes;
                  initialDuration := totalMinutes * 60;
                  timeLeft := totalMinutes * 60;
                  showFreestyleModal := false;
                  isBooking := true }}, [PlayClick])
    end.

(** The inputs and the close button of the freestyle modal (lines 816,
    827, 807); [v] is [parseInt(e.target.value) || 0]. *)
Definition setCustomHours (v : Z) (s : App) : App := s{{ customHours := v }}.
Definition setCustomMinutes (v : Z) (s : App) : App := s{{ customMinutes := v }}.
Definition closeFreestyleModal (s : App) : App * list Intent :=
  (s{{ showFreestyleModal := false }}, [PlayClick]).

(** [onTicketAnimationComplete(seat)] (lines 610-642) up to its [await]. *)
Definition onTicketAnimationComplete (seat : string) (s : App) : App * list Intent :=
  let s1 := s{{ isBooking := false; selectedSeat := seat; loadingStation := true;
                timerState := RUNNING; confirmAbandon := false }} in
  match preloadedStation s with
  | Some st =>
      (s1{{ currentStation := Some st; loadingStation := false }},
       [PlaySfx (Catalog.AUDIO_URLS Catalog.DEPARTURE)])
  | None =>
      (s1, [PlaySfx (Catalog.AUDIO_URLS Catalog.DEPARTURE);
            AwaitStation (Destination.name (selectedDestination s)) (taskDetail s)])
  end.

(** The rest of [onTicketAnimationComplete] after its [await] (lines
    625-640); [destName] is [selectedDestination.name] of the render that
    started it. *)
Definition boardingFetchDone (destName : string) (o : Settled) (s : App) : App :=
  match o with
  | Resolved (Some r) =>
      s{{ currentStation := Some (GeminiDestinationData.station r);
          weather ::= (fun w => w{{
            WeatherState.temp := GeminiDestinationData.temp (GeminiDestinationData.weather r);
            WeatherState.condition :=
              GeminiDestinationData.condition (GeminiDestinationData.weather r) }});
          localTime := GeminiDestinationData.localTime r;
          loadingStation := false }}
  | Resolved None => s{{ loadingStation := false }}
  | Rejected =>
      s{{ currentStation := Some (Station.mk (destName +:+ " Central")
                                              "You have arrived at your destination." "city");
          loadingStation := false }}
  end.

(** [pauseSession] (lines 644-647). *)
Definition pauseSession (s : App) : App * list Intent :=
  (s{{ timerState := PAUSED }}, [PlayClick]).

(** The resume button of the PAUSED controls (line 1213). *)
Definition resumeSession (s : App) : App * list Intent :=
  (s{{ timerState := RUNNING }}, [PlayClick]).

(** [abandonSession] (lines 649-660). *)
Definition abandonSession (s : App) : App * list Intent :=
  if negb (confirmAbandon s) then
    (s{{ confirmAbandon := true }}, [PlayClick; SetTimeout 3000 DisarmAbandon])
  else
    (s{{ timerState := IDLE; timeLeft := initialDuration s;
         currentStation := None; confirmAbandon := false }}, [PlayClick]).

(** The callback [() => setConfirmAbandon(false)] (line 653). *)
Definition disarmAbandon (s : App) : App := s{{ confirmAbandon := false }}.

(** The record [completeSession] prepends (lines 673-688); [now] is
    [Date.now()]. *)
Definition newSession (early : bool) (now : Z) (s : App) : FocusSession.t :=
  let timeSpentSeconds := initialDuration s - timeLeft s in
  let timeSpentMinutes := js_floor_div timeSpentSeconds 60 in
  FocusSession.mk
    (js_to_string now)
    (taskDetail s)
    (activeLabel s)
    (js_or_undefined_string (activeSubLabel s))
    (initialDuration s / 60)
    (Some (if early then timeSpentMinutes else initialDuration s / 60))
    now
    true
    (currentStation s)
    (Some (selectedDestination s))
    (Some (selectedSeat s)).

(** [completeSession(early)] (lines 667-691). *)
Definition completeSession (early : bool) (now : Z) (s : App) : App * list Intent :=
  (s{{ timerState := COMPLETED; sessions ::= cons (newSession early now s) }},
   [ClearTick; PlaySfx (Catalog.AUDIO_URLS Catalog.ARRIVAL)]).

(** [finishEarly] (lines 662-665). *)
Definition finishEarly (now : Z) (s : App) : App * list Intent :=
  let '(s', out) := completeSession true now s in (s', PlayClick :: out).

(** [resetTimer] (lines 693-701). *)
Definition resetTimer (s : App) : App * list Intent :=
  (s{{ timerState := IDLE; timeLeft := initialDuration s; currentStation := None;
       taskDetail := ""; selectedSeat := ""; confirmAbandon := false }}, [PlayClick]).

(** [handleSelectDestination(dest)] (lines 703-712). *)
Definition handleSelectDestination (dest : Destination.t) (s : App) : App * list Intent :=
  if bool_decide (timerState s = IDLE) then
    let s1 := s{{ selectedDestination := dest }} in
    if bool_decide (Destination.id dest <> "freestyle") then
      (s1{{ initialDuration := Destination.durationMinutes dest * 60;
            timeLeft := Destination.durationMinutes dest * 60 }}, [PlayClick])
    else (s1, [PlayClick])
  else (s, [PlayClick]).

(** The interval callback [() => setTimeLeft(prev => prev - 1)] (line 436). *)
Definition tick (s : App) : App := s{{ timeLeft ::= fun t => t - 1 }}.

(** What the timer [useEffect] (lines 433-445) does after a render. *)
Inductive TimerEffect := StartInterval | CompleteNow | NoTimer.

Definition timer_effect (s : App) : TimerEffect :=
  if bool_decide (timerState s = RUNNING) && bool_decide (timeLeft s > 0) then StartInterval
  else if bool_decide (timeLeft s = 0) && bool_decide (timerState s = RUNNING) then CompleteNow
  else NoTimer.

End Session.

#[export] Instance TimerEffect_eq_dec : EqDecision Session.TimerEffect.
Proof. solve_decision. Defined.

(** ** The surprise destination *)

(** At most one hidden destination is the current surprise, so the pool
    without it is never empty. *)
Lemma freestyle_filter_nonempty (x : string) :
  filter (fun d => "freestyle-" +:+ Destination.id d <> x) Catalog.HIDDEN_DESTINATIONS <> [].
Proof.
  intros E. set (P := fun d => "freestyle-" +:+ Destination.id d <> x).
  assert (Hn : forall d, d ∈ Catalog.HIDDEN_DESTINATIONS -> "freestyle-" +:+ Destination.id d = x).
  { intros d Hd. destruct (decide (P d)) as [Hp|Hp]; [|unfold P in Hp; destruct (decide ("freestyle-" +:+ Destination.id d = x)); tauto].
    exfalso. exact (filter_nil_not_elem_of _ _ _ E Hp Hd). }
  pose proof (Hn _ (list_elem_of_lookup_2 Catalog.HIDDEN_DESTINATIONS 0 _ eq_refl)) as H0.
  pose proof (Hn _ (list_elem_of_lookup_2 Catalog.HIDDEN_DESTINATIONS 1 _ eq_refl)) as H1.
  rewrite <- H1 in H0. discriminate.
Qed.

Lemma freestyle_pool_spec sel :
  Session.freestyle_pool sel <> [] /\
  (forall d, d ∈ Session.freestyle_pool sel -> d ∈ Catalog.HIDDEN_DESTINATIONS) /\
  (js_starts_with "freestyle-" (Destination.id sel) = true ->
   forall d, d ∈ Session.freestyle_pool sel -> "freestyle-" +:+ Destination.id d <> Destination.id sel).
Proof.
  unfold Session.freestyle_pool. destruct (js_starts_with _ _) eqn:Hs.
  - pose proof (freestyle_filter_nonempty (Destination.id sel)) as Hne.
    destruct (filter _ _) as [|d0 ds] eqn:Ef; [done|].
    split; [discriminate|]. split.
    + intros d Hd. rewrite <- Ef in Hd. apply list_elem_of_filter in Hd. tauto.
    + intros _ d Hd. rewrite <- Ef in Hd. apply list_elem_of_filter in Hd. tauto.
  - split; [unfold Catalog.HIDDEN_DESTINATIONS; discriminate|]. split; [done|]. discriminate.
Qed.

(** C15: with a positive duration, confirming the freestyle modal never
    fails, for every value of [Math.random()]: it selects a surprise built
    from a hidden destination with the chosen duration, whose identifier
    differs from the one selected before (the surprise just taken is never
    drawn again), sets the countdown to that duration, closes the modal
    and starts the ticket. *)
Theorem confirmFreestyle_surprise r s :
  (0 <= r)%Q -> (r < 1)%Q -> 0 < customHours s * 60 + customMinutes s ->
  exists s' d, Session.confirmFreestyle r s = Some (s', [PlayClick]) /\ d ∈ Catalog.HIDDEN_DESTINATIONS /\
    selectedDestination s' = Session.surprise d (customHours s * 60 + customMinutes s) /\
    Destination.id (selectedDestination s') <> Destination.id (selectedDestination s) /\
    initialDuration s' = (customHours s * 60 + customMinutes s) * 60 /\ timeLeft s' = initialDuration s' /\
    isBooking s' = true /\ showFreestyleModal s' = false.
Proof.
  intros H0 H1 Ht. unfold Session.confirmFreestyle. rewrite bool_decide_eq_false_2 by lia.
  destruct (freestyle_pool_spec (selectedDestination s)) as (Hne & Hsub & Hfresh).
  destruct (js_random_pick _ r H0 H1 Hne) as (d & -> & Hd).
  eexists _, d. split; [reflexivity|]. split; [by apply Hsub|]. split; [reflexivity|].
  split; [|repeat split].
  change ("freestyle-" +:+ Destination.id d <> Destination.id (selectedDestination s)).
  destruct (js_starts_with "freestyle-" (Destination.id (selectedDestination s))) eqn:Hs; [by apply Hfresh|].
  intros E. rewrite <- E, js_starts_with_app in Hs. discriminate.
Qed.

(** The freestyle modal's defaults (0 h 45 min) and [Math.random() = 0]. *)
Lemma confirmFreestyle_surprise_witness :
  exists s' d, Session.confirmFreestyle 0 initial_app = Some (s', [PlayClick]) /\
    d ∈ Catalog.HIDDEN_DESTINATIONS /\
    selectedDestination s' = Session.surprise d (customHours initial_app * 60 + customMinutes initial_app) /\
    Destination.id (selectedDestination s') <> Destination.id (selectedDestination initial_app) /\
    initialDuration s' = (customHours initial_app * 60 + customMinutes initial_app) * 60 /\
    timeLeft s' = initialDuration s' /\ isBooking s' = true /\ showFreestyleModal s' = false.
Proof. apply confirmFreestyle_surprise; [discriminate|reflexivity|vm_compute; reflexivity]. Defined.
