(* ===== verification/Stats.v ===== *)
(** * Session history statistics: src/components/Stats.tsx

    [Stats] filters the history on [completed], sums [durationMinutes] with
    [reduce], counts, and shows [Math.round(total / count)] (or 0 for an
    empty history, where [0 / 0] would show [NaN]).  [stats] computes the three numbers from the whole
    history, as the component does at every render.  The lemmas relate the
    aggregates to the prepend that [completeSession] performs. *)

From Stdlib Require Import ZArith Lia String.
From stdpp Require Import base list strings decidable.
From coqutil Require Import Datatypes.RecordSetters.
From S2P Require Import Prelude JsRuntime Types AppState Session.
Import DoubleBraceUpdate.

Local Open Scope Z_scope.

Module Stats.

(** The average is a JavaScript number: [None] stands for a value that
    is not finite ([NaN], printed as such). *)
#[projections(primitive)] Record t := mk { totalMinutes : Z; totalStations : Z; avgSession : option Z }.

(** [sessions.filter(s => s.completed)] (line 10). *)
Definition completedSessions (sessions : list FocusSession.t) : list FocusSession.t :=
  filter (fun s => FocusSession.completed s = true) sessions.

(** The three figures of the panel (lines 10-12 and 30). *)
Definition stats (sessions : list FocusSession.t) : t :=
  let done_ := completedSessions sessions in
  let total := reduce_sum FocusSession.durationMinutes done_ in
  let count := Z.of_nat (length done_) in
  mk total count (if bool_decide (count > 0) then js_round_div total count else Some 0).

Lemma completedSessions_cons_completed (x : FocusSession.t) xs :
  FocusSession.completed x = true ->
  completedSessions (x :: xs) = x :: completedSessions xs.
Proof. intros H. unfold completedSessions. rewrite filter_cons_True; done. Qed.

Lemma completedSessions_all (xs : list FocusSession.t) :
  Forall (fun x => FocusSession.completed x = true) xs -> completedSessions xs = xs.
Proof.
  induction 1 as [|x xs Hx _ IH]; [reflexivity|].
  rewrite completedSessions_cons_completed by exact Hx. by rewrite IH.
Qed.

End Stats.

(** C16: recording a session (as [completeSession] does, early or not)
    adds its planned duration [initialDuration / 60] to "Mins Focused" and
    one to "Stations Reached": the panel counts planned, not actual,
    minutes. *)
Theorem stats_completeSession early now s :
  let n := fst (Session.completeSession early now s) in
  Stats.totalMinutes (Stats.stats (sessions n)) =
    initialDuration s / 60 + Stats.totalMinutes (Stats.stats (sessions s)) /\
  Stats.totalStations (Stats.stats (sessions n)) = 1 + Stats.totalStations (Stats.stats (sessions s)).
Proof.
  cbv zeta. change (sessions (fst (Session.completeSession early now s)))
    with (Session.newSession early now s :: sessions s).
  unfold Stats.stats. rewrite Stats.completedSessions_cons_completed by reflexivity.
  cbn [Stats.totalMinutes Stats.totalStations]. rewrite reduce_sum_cons. simpl length. split; [reflexivity|lia].
Qed.

Lemma stats_completeSession_witness :
  let n := fst (Session.completeSession true 300000 initial_app) in
  Stats.totalMinutes (Stats.stats (sessions n)) =
    initialDuration initial_app / 60 + Stats.totalMinutes (Stats.stats (sessions initial_app)) /\
  Stats.totalStations (Stats.stats (sessions n)) = 1 + Stats.totalStations (Stats.stats (sessions initial_app)).
Proof. exact (stats_completeSession true 300000 initial_app). Defined.

(** C17: the average shown is [Math.round] of the mean planned duration,
    a finite number between 0 and any bound [m >= 0] of the planned
    durations; for an empty history it is 0 (the [length > 0] guard keeps
    [0 / 0], [NaN], off the panel). *)
Theorem stats_avg_bounds (xs : list FocusSession.t) (m : Z) :
  0 <= m -> Forall (fun x => 0 <= FocusSession.durationMinutes x <= m) xs ->
  (exists a, Stats.avgSession (Stats.stats xs) = Some a /\ 0 <= a <= m) /\
  (xs = [] -> Stats.avgSession (Stats.stats xs) = Some 0).
Proof.
  intros Hm Hall. split; [|intros ->; reflexivity].
  assert (Hc : Forall (fun x => 0 <= FocusSession.durationMinutes x <= m) (Stats.completedSessions xs)).
  { apply Forall_forall. intros x Hx. apply list_elem_of_In, list_elem_of_filter in Hx as [_ Hx].
    rewrite Forall_forall in Hall. apply Hall. by apply list_elem_of_In. }
  unfold Stats.stats. cbn [Stats.avgSession]. case_bool_decide as Hn; [|exists 0; split; [done|lia]].
  apply js_round_div_bounds; [lia|]. split.
  - apply reduce_sum_nonneg. rewrite Forall_forall in Hc |- *. intros x Hx. apply (Hc x Hx).
  - apply reduce_sum_le. rewrite Forall_forall in Hc |- *. intros x Hx. apply (Hc x Hx).
Qed.

(** Two recorded trips of 25 and 45 minutes average 35. *)
Lemma stats_avg_bounds_witness :
  let x := fst (Session.completeSession false 0 initial_app) in
  let xs := sessions (fst (Session.completeSession false 1 (x{{ initialDuration := 2700 }}))) in
  ((exists a, Stats.avgSession (Stats.stats xs) = Some a /\ 0 <= a <= 45) /\
   (xs = [] -> Stats.avgSession (Stats.stats xs) = Some 0)) /\
  Stats.avgSession (Stats.stats xs) = Some 35.
Proof.
  split; [|vm_compute; reflexivity].
  apply stats_avg_bounds; [lia|]. vm_compute. repeat constructor; discriminate.
Defined.
