(* ===== verification/Labels.v ===== *)
(** * The mission label registry of src/App.tsx

    The registry is the [availableLabels] hook with the selection
    [activeLabel] / [activeSubLabel] and the fields of the label editor.
    Its operations: [handleAddCustomLabel] (lines 577-596),
    [handleDeleteLabel] (lines 598-608, with the answer of
    [window.confirm]), the inline handlers of the label chips (lines
    1072-1076), of the sub-label buttons and input (lines 1120, 1135), of
    the task input (line 1149) and of the editor (lines 744, 754, 766, 780,
    1101).  The invariant [labels_wf] is what every operation preserves: a
    sub-label is only selected together with a label, and every label
    declares at most one kind of sub-label. *)

From Stdlib Require Import ZArith String.
From stdpp Require Import base list strings decidable.
From coqutil Require Import Datatypes.RecordSetters.
From S2P Require Import Prelude JsRuntime Types Catalog AppState.
Import DoubleBraceUpdate.

Local Open Scope string_scope.
Local Open Scope Z_scope.

Module Labels.

(** The label [handleAddCustomLabel] creates at time [now]. *)
Definition customLabel (now : Z) (s : App) : MissionLabel.t :=
  MissionLabel.mk ("custom-" +:+ js_to_string now) (js_trim (newLabelName s))
    (newLabelColor s) (Some (newLabelIcon s)) None (Some true) None.

(** [handleAddCustomLabel] (lines 577-596); [now] is [Date.now()]. *)
Definition handleAddCustomLabel (now : Z) (s : App) : App * list Intent :=
  if js_truthy_string (js_trim (newLabelName s)) then
    let l := customLabel now s in
    (s{{ availableLabels := (availableLabels s ++ [l])%list;
         activeLabel := Some l;
         newLabelName := "";
         newLabelColor := "indigo";
         newLabelIcon := "tag";
         isCreatingLabel := false }}, [PlayClick])
  else (s, [PlayClick]).

(** [handleDeleteLabel(id)] (lines 598-608); [confirmed] is the answer of
    [window.confirm("Delete this label?")]. *)
Definition handleDeleteLabel (id : string) (confirmed : bool) (s : App) : App * list Intent :=
  if confirmed then
    let s1 := s{{ availableLabels ::= filter (fun l => MissionLabel.id l <> id) }} in
    if bool_decide (option_map MissionLabel.id (activeLabel s) = Some id) then
      (s1{{ activeLabel := None; activeSubLabel := None }}, [PlayClick])
    else (s1, [PlayClick])
  else (s, [PlayClick]).

(** The chip of label [l] (lines 1072-1076). *)
Definition selectLabel (l : MissionLabel.t) (s : App) : App * list Intent :=
  (s{{ activeLabel := Some l; activeSubLabel := None }}, [PlayClick]).

(** A sub-label button (line 1120). *)
Definition selectSubLabel (sub : string) (s : App) : App * list Intent :=
  (s{{ activeSubLabel := Some sub }}, [PlayClick]).

(** The free-text sub-label input (line 1135). *)
Definition typeSubLabel (v : string) (s : App) : App := s{{ activeSubLabel := Some v }}.

(** The task detail input (line 1149). *)
Definition typeTask (v : string) (s : App) : App := s{{ taskDetail := v }}.

(** The "Add Label" button (line 1101) and the editor's close button (line 744). *)
Definition openLabelEditor (s : App) : App * list Intent :=
  (s{{ isCreatingLabel := true }}, [PlayClick]).
Definition closeLabelEditor (s : App) : App * list Intent :=
  (s{{ isCreatingLabel := false }}, [PlayClick]).

(** The editor's name input, colour and icon buttons (lines 754, 766, 780). *)
Definition typeLabelName (v : string) (s : App) : App := s{{ newLabelName := v }}.
Definition pickColor (c : string) (s : App) : App * list Intent :=
  (s{{ newLabelColor := c }}, [PlayClick]).
Definition pickIcon (k : string) (s : App) : App * list Intent :=
  (s{{ newLabelIcon := k }}, [PlayClick]).

(** A label declares a fixed sub-label list or a free-text prompt, not both. *)
Definition label_wf (l : MissionLabel.t) : Prop :=
  MissionLabel.subLabels l = None \/ MissionLabel.customSubLabelPrompt l = None.

(** The registry invariant. *)
Definition labels_wf (s : App) : Prop :=
  Forall label_wf (availableLabels s) /\
  (from_option label_wf True (activeLabel s)) /\
  (activeSubLabel s <> None -> activeLabel s <> None).

End Labels.

#[export] Instance label_wf_dec l : Decision (Labels.label_wf l).
Proof. unfold Labels.label_wf. apply _. Defined.
