(* ===== verification/Flavor.v ===== *)
(** * Applying remote flavour data in src/App.tsx

    [fetchDataForDestination] (lines 384-424) runs in the background when
    the selected destination changes: it awaits
    [getDestinationRealtimeData(dest.name)] and, on a result, maps the
    weather condition to an environment and an icon, validates the
    station's environment against the six admissible values, and stores
    weather, local time, the station (as [preloadedStation]) and the
    grounding sources.  [prefetchDone] is the part after the [await];
    [fetch_requested] the guard before it. *)

From Stdlib Require Import ZArith QArith String.
From stdpp Require Import base list strings decidable.
From coqutil Require Import Datatypes.RecordSetters.
From S2P Require Import Prelude JsRuntime Types Catalog AppState.
Import DoubleBraceUpdate.

Local Open Scope string_scope.

Module Flavor.

(** [if (dest.id === 'freestyle') return;] (line 386). *)
Definition fetch_requested (dest : Destination.t) : bool :=
  negb (bool_decide (Destination.id dest = "freestyle")).

(** The chain of [cond.includes(...)] tests (lines 394-404). *)
Definition weather_of_condition (condition : string) : Environment * WeatherIcon :=
  let cond := js_lower condition in
  if js_includes cond "snow" then (snow, Snowflake)
  else if js_includes cond "rain" || js_includes cond "drizzle" then (city, CloudRain)
  else if js_includes cond "storm" then (cyberpunk, CloudRain)
  else if js_includes cond "fog" || js_includes cond "mist" then (nature, Wind)
  else if js_includes cond "cloud" then (nature, Cloud)
  else if js_includes cond "clear" || js_includes cond "sun" then (clear, Sun)
  else if js_includes cond "hot" then (desert, Sun)
  else (city, Sun).

(** [finalEnv] (lines 406-408): the station's environment when it is one
    of the six, the one derived from the condition otherwise. *)
Definition finalEnv (stationEnv : string) (env : Environment) : Environment :=
  match environment_of_string stationEnv with
  | Some e => e
  | None => env
  end.

(** The continuation of [fetchDataForDestination] (lines 392-423): a
    rejected promise is caught and ignored, a [null] result too. *)
Definition prefetchDone (o : Settled) (s : App) : App :=
  match o with
  | Resolved (Some r) =>
      let w := GeminiDestinationData.weather r in
      let '(env, icon) := weather_of_condition (GeminiDestinationData.condition w) in
      s{{ weather := WeatherState.mk (GeminiDestinationData.temp w)
                       (GeminiDestinationData.condition w)
                       (finalEnv (Station.environment (GeminiDestinationData.station r)) env)
                       icon;
          localTime := GeminiDestinationData.localTime r;
          preloadedStation := Some (GeminiDestinationData.station r);
          groundingChunks := GeminiDestinationData.groundingChunks r }}
  | Resolved None | Rejected => s
  end.

End Flavor.
