(* ===== verification/Media.v ===== *)
(** * Music and tips of src/App.tsx

    The music controls [toggleMusic], [nextTrack] and [prevTrack] (lines
    714-727) and the callback of the 30-second tip interval (lines
    448-456), with [r] the value of [Math.random()].  The audio element
    these controls drive, and its effects, are modelled in [Audio]. *)

From Stdlib Require Import ZArith QArith String.
From stdpp Require Import base list strings decidable.
From coqutil Require Import Datatypes.RecordSetters.
From S2P Require Import Prelude JsRuntime Types Catalog AppState.
Import DoubleBraceUpdate.

Local Open Scope Z_scope.

Module Media.

Definition track_count : Z := Z.of_nat (length Catalog.MUSIC_TRACKS).

(** [toggleMusic] (lines 714-717). *)
Definition toggleMusic (s : App) : App * list Intent :=
  (s{{ isMusicOn := negb (isMusicOn s) }}, [PlayClick]).

(** [nextTrack] (lines 719-722); JavaScript's [%] is [Z.rem]. *)
Definition nextTrack (s : App) : App * list Intent :=
  (s{{ currentTrackIndex ::= fun i => Z.rem (i + 1) track_count }}, [PlayClick]).

(** [prevTrack] (lines 724-727). *)
Definition prevTrack (s : App) : App * list Intent :=
  (s{{ currentTrackIndex ::= fun i => Z.rem (i - 1 + track_count) track_count }}, [PlayClick]).

(** The tip interval's callback (lines 450-453).  [None] is a tip index
    outside the array, for which the source would store [undefined]. *)
Definition rotateTip (r : Q) (s : App) : option App :=
  match js_array_get Catalog.MOTIVATIONAL_TIPS
          (js_random_index r (Z.of_nat (length Catalog.MOTIVATIONAL_TIPS))) with
  | Some tip => Some (s{{ currentTip := tip }})
  | None => None
  end.

(** For every value of [Math.random()] the tip interval stores one of
    the tips, never [undefined]. *)
Lemma rotateTip_some (r : Q) (s : App) :
  (0 <= r)%Q -> (r < 1)%Q ->
  exists tip, rotateTip r s = Some (s{{ currentTip := tip }}) /\ tip ∈ Catalog.MOTIVATIONAL_TIPS.
Proof.
  intros H0 H1. unfold rotateTip.
  destruct (js_random_pick Catalog.MOTIVATIONAL_TIPS r H0 H1) as (tip & -> & Hin); [discriminate|].
  by exists tip.
Qed.

End Media.
