(* ===== verification/Remote.v ===== *)
(** * The contract of the remote flavour-data fetcher

    [App] calls [getDestinationRealtimeData(name, task?)] (declared in
    src/services/geminiService.ts) twice: in the background when the
    destination changes, and awaited at boarding when no station was
    preloaded.  What [App] needs of it is a function from what the network
    does to how the returned promise settles.  [FlavorService] is that
    interface: the scheduler ([Scheduler]) and every theorem about it are
    stated against it; [Gemini] gives the implementation of
    geminiService.ts as an instance, and [AnyOutcome] is the instance in
    which the promise may settle in any way at all. *)

From Stdlib Require Import String.
From stdpp Require Import base.
From S2P Require Import Prelude Types AppState.

Class FlavorService := {
  (** What the network and the AI backend do on one call. *)
  net_outcome : Type;
  (** How [getDestinationRealtimeData(destinationName, task)] settles. *)
  fetch : string -> option string -> net_outcome -> Settled
}.

(** The service never rejects its promise. *)
Class NeverRejects `{FlavorService} :=
  never_rejects : forall name task x, fetch name task x <> Rejected.

(** The least committed service: the promise may settle with any value,
    or reject. *)
Definition AnyOutcome : FlavorService := {|
  net_outcome := Settled;
  fetch := fun _ _ o => o
|}.
