(* ===== verification/Gemini.v ===== *)
(** * The flavour-data service: src/services/geminiService.ts

    [getDestinationRealtimeData(destinationName, task?)] asks the
    generative-AI backend for the weather, local time and a station, with
    a JSON schema.  What the SDK call does is the input [Response]: it
    throws, or returns a text, the value [JSON.parse] makes of that text
    ([None] when it throws) and the grounding chunks of the first
    candidate.  The prompt string is not modelled: it only reaches the
    backend.  The function never rejects: every exception is caught and
    turned into the fallback value, except a JSON parse error, which
    resolves with [null].  [gemini] is the function as an instance of the
    [FlavorService] interface the scheduler is stated against. *)

From Stdlib Require Import ZArith QArith Ascii String.
From stdpp Require Import base list strings decidable.
From coqutil Require Import Datatypes.RecordSetters.
From S2P Require Import Prelude JsRuntime Types AppState Session Flavor Remote.
Import DoubleBraceUpdate.

Local Open Scope string_scope.

Module Gemini.

(** The object [JSON.parse(text)] returns, of the shape the request's
    [responseSchema] requires (lines 31-57). *)
#[projections(primitive)] Record Parsed := mkParsed {
  p_weather : GeminiDestinationData.weather_t;
  p_station : Station.t;
  p_localTime : string
}.


(** ** The request (lines 8-59) *)

(** A double quote and a line break, as the template literal holds them. *)
Definition dq : string := String "034"%char EmptyString.
Definition nl : string := String "010"%char EmptyString.

(** [`"${s}"`] *)
Definition quoted (s : string) : string := dq +:+ s +:+ dq.

(** [${task ? `The traveler is focusing on: "${task}". ...` : `Capture the vibe of ${destinationName}.`}] *)
Definition task_clause (destinationName : string) (task : option string) : string :=
  match task with
  | Some t =>
      if js_truthy_string t then "The traveler is focusing on: " +:+ quoted t +:+ ". Incorporate this theme subtly."
      else "Capture the vibe of " +:+ destinationName +:+ "."
  | None => "Capture the vibe of " +:+ destinationName +:+ "."
  end.

(** The template literal [prompt] (lines 8-23), line by line. *)
Definition prompt (destinationName : string) (task : option string) : string :=
  String.concat nl [
    EmptyString;
    "      Act as a travel conductor and real-time data fetcher.";
    "      ";
    "      1. Search for the current local time in " +:+ quoted destinationName +:+ " (format HH:MM).";
    "      2. Search for the current weather in " +:+ quoted destinationName +:+ " (temperature in Celsius as a number, and a short condition description like " +:+ quoted "Cloudy" +:+ ", " +:+ quoted "Sunny" +:+ ", " +:+ quoted "Raining" +:+ ").";
    "      3. Create a fictional train station name and a 1-sentence description for a traveler arriving at " +:+ quoted destinationName +:+ ".";
    "         " +:+ task_clause destinationName task;
    "      4. Select the most appropriate environment for the visualizer from this list: [city, nature, cyberpunk, desert, snow, clear].";
    EmptyString;
    "      Return ONLY a JSON object with this exact structure:";
    "      {";
    "        " +:+ quoted "weather" +:+ ": { " +:+ quoted "temp" +:+ ": 20, " +:+ quoted "condition" +:+ ": " +:+ quoted "Clear" +:+ " },";
    "        " +:+ quoted "station" +:+ ": { " +:+ quoted "name" +:+ ": " +:+ quoted "Station Name" +:+ ", " +:+ quoted "description" +:+ ": " +:+ quoted "Description" +:+ ", " +:+ quoted "environment" +:+ ": " +:+ quoted "city" +:+ " },";
    "        " +:+ quoted "localTime" +:+ ": " +:+ quoted "14:30";
    "      }";
    "    "
  ].

(** The [responseSchema] (lines 31-57). *)
Inductive Schema :=
  | SObject (properties : list (string * Schema)) (required : list string)
  | SNumber
  | SString (enum : option (list string)).

Definition responseSchema : Schema :=
  SObject [("weather", SObject [("temp", SNumber); ("condition", SString None)] ["temp"; "condition"]);
           ("station", SObject [("name", SString None); ("description", SString None);
                                ("environment", SString (Some ["city"; "nature"; "cyberpunk"; "desert"; "snow"; "clear"]))]
                               ["name"; "description"; "environment"]);
           ("localTime", SString None)]
          ["weather"; "station"; "localTime"].

(** The schema of a property path. *)
Fixpoint schema_at (path : list string) (sc : Schema) : option Schema :=
  match path with
  | [] => Some sc
  | k :: path' =>
      match sc with
      | SObject props _ => match list_find (fun kv => kv.1 = k) props with
                           | Some (_, (_, sc')) => schema_at path' sc'
                           | None => None
                           end
      | _ => None
      end
  end.

(** The argument of [ai.models.generateContent] (lines 25-59). *)
Record Request := mkRequest {
  model : string;
  contents : string;
  tools : list string;
  responseMimeType : string;
  schema : Schema
}.

Definition request (destinationName : string) (task : option string) : Request :=
  mkRequest "gemini-3-flash-preview" (prompt destinationName task) ["googleSearch"] "application/json" responseSchema.

(** What [ai.models.generateContent] does with [request] (lines 25-59). *)
Inductive Response :=
  | Throws
  | Returns (text : option string) (parsed : option Parsed) (chunks : option (list GroundingChunk.t)).

(** The value of the [catch] block (lines 84-96). *)
Definition fallback (destinationName : string) : GeminiDestinationData.t :=
  GeminiDestinationData.mk (GeminiDestinationData.mk_weather 20 "Clear")
    (Station.mk (destinationName +:+ " Terminal") "Welcome to your destination." "city")
    "--:--" [].

(** [getDestinationRealtimeData] (lines 6-98): the value its promise
    resolves with ([None] is [null]). *)
Definition getDestinationRealtimeData (destinationName : string) (task : option string)
    (resp : Response) : option GeminiDestinationData.t :=
  match resp with
  | Throws => Some (fallback destinationName)
  | Returns text parsed chunks =>
      if negb (js_truthy_opt_string text) then Some (fallback destinationName)
      else match parsed with
           | None => None
           | Some data =>
               Some (GeminiDestinationData.mk (p_weather data) (p_station data) (p_localTime data)
                       (from_option id [] chunks))
           end
  end.

End Gemini.

(** The service as the implementation of the interface [App] calls. *)
Definition gemini : FlavorService := {|
  net_outcome := Gemini.Response;
  fetch := fun name task resp => Resolved (Gemini.getDestinationRealtimeData name task resp)
|}.

(** The promise never rejects: [App]'s [catch] branches around it are
    not taken for the service's own failures. *)
#[export] Instance gemini_never_rejects : NeverRejects (H:=gemini).
Proof. intros name task resp. discriminate. Qed.

(** C25: the request asks about the destination by name, in quotes; with a
    non-empty task it names the task, in quotes, and otherwise it asks for
    the destination's vibe. *)
Theorem request_mentions name task :
  js_includes (Gemini.contents (Gemini.request name task)) (Gemini.quoted name) = true /\
  (forall t, task = Some t -> js_truthy_string t = true ->
     js_includes (Gemini.contents (Gemini.request name task)) (Gemini.quoted t) = true) /\
  (js_truthy_opt_string task = false ->
     js_includes (Gemini.contents (Gemini.request name task)) ("Capture the vibe of " +:+ name +:+ ".") = true).
Proof.
  cbn [Gemini.contents Gemini.request Gemini.prompt String.concat]. split; [|split].
  - js_find.
  - intros t -> Ht. unfold Gemini.task_clause. rewrite Ht. js_find.
  - intros Ht. unfold Gemini.task_clause. destruct task as [t|]; [cbn in Ht; rewrite Ht|]; cbv beta iota; js_find.
Qed.

Lemma request_mentions_witness :
  js_includes (Gemini.contents (Gemini.request "Kyoto" (Some "Math"))) (Gemini.quoted "Kyoto") = true /\
  (forall t, Some "Math" = Some t -> js_truthy_string t = true ->
     js_includes (Gemini.contents (Gemini.request "Kyoto" (Some "Math"))) (Gemini.quoted t) = true) /\
  (js_truthy_opt_string (Some "Math") = false ->
     js_includes (Gemini.contents (Gemini.request "Kyoto" (Some "Math"))) ("Capture the vibe of " +:+ "Kyoto" +:+ ".") = true).
Proof. exact (request_mentions "Kyoto" (Some "Math")). Defined.

(** C26: the response schema admits exactly the six environment names of
    [Station['environment']], which are the names [App] recognises
    ([environment_of_string], src/App.tsx line 406), so [finalEnv] keeps
    the environment of every answer that conforms to the schema. *)
Theorem schema_environments :
  exists es, Gemini.schema_at ["station"; "environment"] Gemini.responseSchema = Some (Gemini.SString (Some es)) /\
    (forall s, s ∈ es <-> exists e, environment_of_string s = Some e) /\
    (forall s env, s ∈ es -> exists e, Flavor.finalEnv s env = e /\ string_of_environment e = s).
Proof.
  eexists. split; [reflexivity|]. split.
  - intros s. split.
    + intros Hs. repeat (apply elem_of_cons in Hs as [->|Hs]; [eexists; reflexivity|]). by apply elem_of_nil in Hs.
    + intros [e He]. apply environment_of_string_some in He as ->.
      destruct e; apply (bool_decide_unpack _); vm_compute; reflexivity.
  - intros s env Hs. repeat (apply elem_of_cons in Hs as [->|Hs]; [eexists; split; reflexivity|]).
    by apply elem_of_nil in Hs.
Qed.

(** C13: when the backend call fails (it throws, or returns no text) the
    promise resolves with the deterministic fallback: a station named
    ["<destination> Terminal"] whose environment is one of the six the
    visualiser knows, 20 degrees and "Clear", local time ["--:--"] and no
    attributions. *)
Theorem fetch_failure_fallback name task resp :
  (resp = Gemini.Throws \/ exists p c, resp = Gemini.Returns None p c \/ resp = Gemini.Returns (Some "") p c) ->
  exists d, Gemini.getDestinationRealtimeData name task resp = Some d /\
    Station.name (GeminiDestinationData.station d) = name +:+ " Terminal" /\
    environment_of_string (Station.environment (GeminiDestinationData.station d)) = Some city /\
    GeminiDestinationData.weather d = GeminiDestinationData.mk_weather 20 "Clear" /\
    GeminiDestinationData.localTime d = "--:--" /\ GeminiDestinationData.groundingChunks d = [].
Proof.
  intros [->|(p & c & [->| ->])]; eexists; (split; [reflexivity|]); repeat split.
Qed.

Lemma fetch_failure_fallback_witness :
  exists d, Gemini.getDestinationRealtimeData "Kyoto" None Gemini.Throws = Some d /\
    Station.name (GeminiDestinationData.station d) = "Kyoto" +:+ " Terminal" /\
    environment_of_string (Station.environment (GeminiDestinationData.station d)) = Some city /\
    GeminiDestinationData.weather d = GeminiDestinationData.mk_weather 20 "Clear" /\
    GeminiDestinationData.localTime d = "--:--" /\ GeminiDestinationData.groundingChunks d = [].
Proof. apply (fetch_failure_fallback "Kyoto" None Gemini.Throws). by left. Defined.

(** C14: a text that [JSON.parse] rejects makes the service resolve with
    [null], not with the fallback; the boarding fetch then leaves the
    session without a station (whatever [currentStation] held). *)
Theorem parse_failure_null name task text chunks (s : App) :
  js_truthy_string text = true ->
  Gemini.getDestinationRealtimeData name task (Gemini.Returns (Some text) None chunks) = None /\
  currentStation (Session.boardingFetchDone name
                    (fetch (FlavorService:=gemini) name task (Gemini.Returns (Some text) None chunks)) s)
    = currentStation s /\
  loadingStation (Session.boardingFetchDone name
                    (fetch (FlavorService:=gemini) name task (Gemini.Returns (Some text) None chunks)) s)
    = false.
Proof. intros Ht. cbn. rewrite Ht. repeat split. Qed.

Lemma parse_failure_null_witness :
  Gemini.getDestinationRealtimeData "Kyoto" None (Gemini.Returns (Some "Sorry, I cannot help") None None) = None /\
  currentStation (Session.boardingFetchDone "Kyoto"
                    (fetch (FlavorService:=gemini) "Kyoto" None
                       (Gemini.Returns (Some "Sorry, I cannot help") None None)) initial_app)
    = currentStation initial_app /\
  loadingStation (Session.boardingFetchDone "Kyoto"
                    (fetch (FlavorService:=gemini) "Kyoto" None
                       (Gemini.Returns (Some "Sorry, I cannot help") None None)) initial_app)
    = false.
Proof. apply parse_failure_null. reflexivity. Defined.
