(* ===== verification/Scheduler.v ===== *)
(** * The event loop around [App]: clock, timers, effects, fetches

    A [World] is the state of the page: the hooks of [App], the clock
    ([Date.now()] in milliseconds), the timers registered with
    [setInterval]/[setTimeout] in creation order, and the promises in
    flight.  One [Event] is one macrotask of the browser:
    - [User ev]: a click or keystroke on a control that the render shows
      ([enabled], from the JSX conditions of src/App.tsx lines 736-1240);
    - [Fire r]: the earliest timer fires ([r] is what [Math.random()]
      returns if the callback calls it);
    - [Advance t]: time passes without any timer becoming due;
    - [Settle i x]: the [i]-th promise in flight settles, the network
      having done [x].
    After a handler, the intents it issued are run in order ([run_intents])
    and then the [useEffect]s whose dependencies changed ([commit],
    src/App.tsx lines 364-378, 427-456): the fetch effect on
    [selectedDestination], the timer effect on [timerState, timeLeft] (its
    cleanup clears the interval) and the tip effect on [timerState].  The
    timer effect may call [completeSession] itself; [commit] then renders
    and runs the effects once more.

    Dependencies are compared by value; for [selectedDestination] React
    compares object identity, which coincides here because the catalog
    entries are pairwise distinct ([Catalog]) and [confirmFreestyle] never
    rebuilds the current surprise. *)

From Stdlib Require Import ZArith QArith String.
From stdpp Require Import base list strings decidable relations.
From coqutil Require Import Datatypes.RecordSetters.
From S2P Require Import Prelude JsRuntime Types Catalog AppState Session Labels Flavor Media Remote.
Import DoubleBraceUpdate.

Local Open Scope Z_scope.

Module Scheduler.

(** The timers of the page. *)
Inductive Timer :=
  | TickTimer             (** the 1 s interval of the timer effect (line 435) *)
  | TipTimer              (** the 30 s interval of the tip effect (line 450) *)
  | Timeout (cb : Callback).

#[export] Instance Timer_eq_dec : EqDecision Timer.
Proof. solve_decision. Defined.

#[projections(primitive)] Record Pending := mkPending { due : Z; timer : Timer }.

#[export] Instance Pending_eq_dec : EqDecision Pending.
Proof. solve_decision. Defined.

(** The promises in flight: the background fetch of [fetchDataForDestination]
    and the awaited fetch of [onTicketAnimationComplete]. *)
Inductive Request :=
  | Prefetch (dest : Destination.t)
  | Boarding (destName task : string).

Record World := mkWorld {
  app : App;
  now : Z;
  timers : list Pending;
  inflight : list Request
}.

(** Updates of the world's fields. *)
Definition with_app (n : App) (w : World) : World := mkWorld n (now w) (timers w) (inflight w).
Definition with_now (t : Z) (w : World) : World := mkWorld (app w) t (timers w) (inflight w).
Definition with_timers (f : list Pending -> list Pending) (w : World) : World :=
  mkWorld (app w) (now w) (f (timers w)) (inflight w).
Definition with_inflight (f : list Request -> list Request) (w : World) : World :=
  mkWorld (app w) (now w) (timers w) (f (inflight w)).

(** The page after mount: the fetch effect has started the fetch of the
    initial destination. *)
Definition initial_world (t0 : Z) : World :=
  mkWorld initial_app t0 [] [Prefetch Catalog.INITIAL_DESTINATION].

Definition clear_timer (t : Timer) (ts : list Pending) : list Pending :=
  filter (fun p => timer p <> t) ts.

Definition add_timer (ms : Z) (t : Timer) (w : World) : World :=
  with_timers (fun ts => (ts ++ [mkPending (now w + ms) t])%list) w.

(** One intent of a handler. *)
Definition run_intent (w : World) (i : Intent) : World :=
  match i with
  | SetTimeout ms cb => add_timer ms (Timeout cb) w
  | ClearTick => with_timers (clear_timer TickTimer) w
  | AwaitStation name task => with_inflight (fun rs => (rs ++ [Boarding name task])%list) w
  | PlayClick | PlaySfx _ | Alert _ => w
  end.

Definition run_intents (w : World) (ints : list Intent) : World := fold_left run_intent ints w.

(** The fetch effect on [selectedDestination] (lines 427-429). *)
Definition fetch_effect (o : App) (w : World) : World :=
  let n := app w in
  if bool_decide (selectedDestination o = selectedDestination n)
     || negb (Flavor.fetch_requested (selectedDestination n)) then w
  else with_inflight (fun rs => (rs ++ [Prefetch (selectedDestination n)])%list) w.

(** The timer effect on [timerState, timeLeft] (lines 433-445): its cleanup
    clears the interval, then it starts a new one or completes the
    session; the boolean says that it called [completeSession()]. *)
Definition timer_effect_run (o : App) (w : World) : World * bool :=
  let n := app w in
  if bool_decide (timerState o = timerState n) && bool_decide (timeLeft o = timeLeft n)
  then (w, false)
  else
    let w' := with_timers (clear_timer TickTimer) w in
    match Session.timer_effect n with
    | Session.StartInterval => (add_timer 1000 TickTimer w', false)
    | Session.CompleteNow => (w', true)
    | Session.NoTimer => (w', false)
    end.

(** The tip effect on [timerState] (lines 448-456). *)
Definition tip_effect (o : App) (w : World) : World :=
  let n := app w in
  if bool_decide (timerState o = timerState n) then w
  else
    let w' := with_timers (clear_timer TipTimer) w in
    if bool_decide (timerState n = RUNNING) then add_timer 30000 TipTimer w' else w'.

(** The effects after a render from [o] to [app w], in declaration order. *)
Definition effects (o : App) (w : World) : World * bool :=
  let '(w2, done_) := timer_effect_run o (fetch_effect o w) in
  (tip_effect o w2, done_).

(** Render and run the effects; a [completeSession()] called by the timer
    effect is followed by one more render. *)
Definition commit (o : App) (w : World) : World :=
  let '(w1, done_) := effects o w in
  if done_ then
    let '(n', ints) := Session.completeSession false (now w1) (app w1) in
    fst (effects (app w1) (run_intents (with_app n' w1) ints))
  else w1.

(** Run a handler's result and commit. *)
Definition apply_handler (res : App * list Intent) (w : World) : World :=
  commit (app w) (run_intents (with_app (fst res) w) (snd res)).

Definition apply_update (n : App) (w : World) : World := commit (app w) (with_app n w).

(** The controls of the page. *)
Inductive UserEvent :=
  | Depart
  | SelectDestination (d : Destination.t)
  | SetCustomHours (v : Z)
  | SetCustomMinutes (v : Z)
  | ConfirmFreestyle (r : Q)
  | CloseFreestyle
  | TicketComplete (seat : string)
  | Pause
  | Resume
  | Abandon
  | FinishEarly
  | Reset
  | SelectLabel (l : MissionLabel.t)
  | DeleteLabel (id : string) (confirmed : bool)
  | SelectSubLabel (sub : string)
  | TypeSubLabel (v : string)
  | TypeTask (v : string)
  | OpenLabelEditor
  | CloseLabelEditor
  | TypeLabelName (v : string)
  | PickColor (c : string)
  | PickIcon (k : string)
  | AddLabel
  | ToggleMusic
  | NextTrack
  | PrevTrack.

(** The seats of [TicketModal] (src/components/TicketModal.tsx lines
    105-140); [onAnimationComplete] receives one of them. *)
Definition SEATS : list string :=
  ["1A"; "1B"; "1C"; "1D"; "2A"; "2B"; "2C"; "2D"; "3A"; "3B"; "3C"; "3D"]%string.

(** The main panel shows the controls of state [st].  The overlays
    ([fixed inset-0 z-50]) only cover the page: its buttons stay in the
    document and keyboard focus reaches them, so no control is disabled by
    an open overlay. *)
Definition main_ctl (st : TimerState) (s : App) : bool :=
  bool_decide (timerState s = st).

(** Which controls the render shows (src/App.tsx lines 736-1240). *)
Definition enabledb (ev : UserEvent) (s : App) : bool :=
  match ev with
  | Depart | TypeTask _ | OpenLabelEditor => main_ctl IDLE s
  | SelectDestination d =>
      main_ctl IDLE s && bool_decide (d ∈ Catalog.FREESTYLE_DESTINATION :: Catalog.DESTINATIONS)
  | SetCustomHours _ | SetCustomMinutes _ | CloseFreestyle => showFreestyleModal s
  | ConfirmFreestyle r => showFreestyleModal s && Qle_bool 0 r && negb (Qle_bool 1 r)
  | TicketComplete seat => isBooking s && bool_decide (seat ∈ SEATS)
  | Pause => main_ctl RUNNING s
  | Resume => main_ctl PAUSED s
  | Abandon | FinishEarly => main_ctl RUNNING s || main_ctl PAUSED s
  | Reset => main_ctl COMPLETED s
  | SelectLabel l => main_ctl IDLE s && bool_decide (l ∈ availableLabels s)
  | DeleteLabel id _ =>
      main_ctl IDLE s && bool_decide (id ∈ map MissionLabel.id (availableLabels s))
  | SelectSubLabel sub =>
      main_ctl IDLE s &&
      match activeLabel s with
      | Some l => match MissionLabel.subLabels l with
                  | Some subs => bool_decide (sub ∈ subs)
                  | None => false
                  end
      | None => false
      end
  | TypeSubLabel _ =>
      main_ctl IDLE s &&
      match activeLabel s with
      | Some l => bool_decide (MissionLabel.subLabels l = None)
                  && js_truthy_opt_string (MissionLabel.customSubLabelPrompt l)
      | None => false
      end
  | CloseLabelEditor | TypeLabelName _ | AddLabel => isCreatingLabel s
  | PickColor c => isCreatingLabel s && bool_decide (c ∈ Catalog.AVAILABLE_COLORS)
  | PickIcon k => isCreatingLabel s && bool_decide (k ∈ Catalog.ICON_KEYS)
  | ToggleMusic | NextTrack | PrevTrack => true
  end.

(** The handler a control runs, at time [now]. *)
Definition user_handler (ev : UserEvent) (now : Z) (s : App) : option (App * list Intent) :=
  match ev with
  | Depart => Some (Session.handleDepartClick s)
  | SelectDestination d => Some (Session.handleSelectDestination d s)
  | SetCustomHours v => Some (Session.setCustomHours v s, [])
  | SetCustomMinutes v => Some (Session.setCustomMinutes v s, [])
  | ConfirmFreestyle r => Session.confirmFreestyle r s
  | CloseFreestyle => Some (Session.closeFreestyleModal s)
  | TicketComplete seat => Some (Session.onTicketAnimationComplete seat s)
  | Pause => Some (Session.pauseSession s)
  | Resume => Some (Session.resumeSession s)
  | Abandon => Some (Session.abandonSession s)
  | FinishEarly => Some (Session.finishEarly now s)
  | Reset => Some (Session.resetTimer s)
  | SelectLabel l => Some (Labels.selectLabel l s)
  | DeleteLabel id c => Some (Labels.handleDeleteLabel id c s)
  | SelectSubLabel sub => Some (Labels.selectSubLabel sub s)
  | TypeSubLabel v => Some (Labels.typeSubLabel v s, [])
  | TypeTask v => Some (Labels.typeTask v s, [])
  | OpenLabelEditor => Some (Labels.openLabelEditor s)
  | CloseLabelEditor => Some (Labels.closeLabelEditor s)
  | TypeLabelName v => Some (Labels.typeLabelName v s, [])
  | PickColor c => Some (Labels.pickColor c s)
  | PickIcon k => Some (Labels.pickIcon k s)
  | AddLabel => Some (Labels.handleAddCustomLabel now s)
  | ToggleMusic => Some (Media.toggleMusic s)
  | NextTrack => Some (Media.nextTrack s)
  | PrevTrack => Some (Media.prevTrack s)
  end.

(** The timer that fires next ([earliest_by] of [Prelude]). *)
Definition earliest (ts : list Pending) : option (nat * Pending) := earliest_by due ts.

Section WithService.
Context `{F : FlavorService}.

Inductive Event :=
  | User (ev : UserEvent)
  | Fire (r : Q)
  | Advance (t : Z)
  | Settle (i : nat) (x : net_outcome).

(** The timer [p], removed from the list, fires. *)
Definition fire_timer (r : Q) (p : Pending) (w : World) : option World :=
  match timer p with
  | TickTimer => Some (apply_update (Session.tick (app w)) (add_timer 1000 TickTimer w))
  | TipTimer =>
      match Media.rotateTip r (app w) with
      | Some n => Some (apply_update n (add_timer 30000 TipTimer w))
      | None => None
      end
  | Timeout DisarmAbandon => Some (apply_update (Session.disarmAbandon (app w)) w)
  end.

(** One macrotask. *)
Definition world_step (e : Event) (w : World) : option World :=
  match e with
  | User ev =>
      if enabledb ev (app w) then
        option_map (fun res => apply_handler res w) (user_handler ev (now w) (app w))
      else None
  | Fire r =>
      if Qle_bool 0 r && negb (Qle_bool 1 r) then
        match earliest (timers w) with
        | Some (i, p) => fire_timer r p (with_timers (delete i) (with_now (due p) w))
        | None => None
        end
      else None
  | Advance t =>
      if bool_decide (now w <= t) && forallb (fun p => bool_decide (t <= due p)) (timers w)
      then Some (with_now t w) else None
  | Settle i x =>
      match inflight w !! i with
      | Some req =>
          let w0 := with_inflight (delete i) w in
          match req with
          | Prefetch d =>
              Some (apply_update
                      (Flavor.prefetchDone (fetch (Destination.name d) None x) (app w0)) w0)
          | Boarding name task =>
              Some (apply_update
                      (Session.boardingFetchDone name (fetch name (Some task) x) (app w0)) w0)
          end
      | None => None
      end
  end.

Inductive step : World -> World -> Prop :=
  | step_event e w w' : world_step e w = Some w' -> step w w'.

(** A sequence of macrotasks. *)
Fixpoint run (es : list Event) (w : World) : option World :=
  match es with
  | [] => Some w
  | e :: es' => match world_step e w with Some w' => run es' w' | None => None end
  end.

(** The worlds a page opened at time [t0] can reach. *)
Definition reachable (t0 : Z) (w : World) : Prop := rtc step (initial_world t0) w.
End WithService.

End Scheduler.
