(* ===== verification/TicketModal.v ===== *)
(** * The boarding animation: src/components/TicketModal.tsx

    [App] mounts [TicketModal] while [isBooking] holds and passes it
    [onTicketAnimationComplete] as [onAnimationComplete].  The modal has
    two state hooks, [stage] and [selectedSeat] (lines 12-13).  Its stage
    advances by timeouts:
    - a click on a seat schedules [setStage('passport')] in 500 ms
      (lines 33-38);
    - the stage effect (lines 40-75) registers one timeout for the
      current stage and its cleanup clears it.  The passport stage's
      timeout stamps the passport and schedules [setStage('printing')] in
      2000 ms; that nested timeout is not the effect's and no cleanup
      clears it.
    The effect's dependencies are [stage], [onAnimationComplete] and
    [selectedSeat].  [App] passes a new closure at each of its renders, so
    every render of [App] re-runs the effect ([ParentRender]).

    [Modal] is the component together with its timers.  [modal_step] is
    one macrotask; the effect runs in the same step as the state change
    that triggers it.  Once [onAnimationComplete] has been called,
    [App]'s state update unmounts the modal ([completed]); nothing of the
    modal runs after that.  The sounds are not modelled. *)

From Stdlib Require Import ZArith String Lia.
From stdpp Require Import base list strings decidable relations.
From coqutil Require Import Datatypes.RecordSetters.
From S2P Require Import Prelude JsRuntime Types Catalog AppState Scheduler.
Import DoubleBraceUpdate.

Local Open Scope Z_scope.

Module TicketModal.

Inductive Stage := SeatSelection | Passport | Printing | Visible | Tearing | Complete.

#[export] Instance Stage_eq_dec : EqDecision Stage.
Proof. solve_decision. Defined.

(** The callbacks the modal gives to [setTimeout]. *)
Inductive Callback :=
  | SetStage (st : Stage)   (** [() => setStage(st)] (lines 37, 51, 55, 59, 66) *)
  | Stamp                   (** the passport's timeout (lines 47-51) *)
  | Finish.                 (** [() => onAnimationComplete(selectedSeat || '1A')] (line 70) *)

#[export] Instance Callback_eq_dec : EqDecision Callback.
Proof. solve_decision. Defined.

(** A timer: its handle, due time (ms) and callback. *)
#[projections(primitive)] Record Pending := mkPending { t_id : nat; t_due : Z; t_cb : Callback }.

#[projections(primitive)] Record Modal := mkModal {
  stage : Stage;
  selectedSeat : option string;
  now : Z;
  timers : list Pending;
  next_id : nat;
  effect_timer : option nat;      (** the [timer] the effect's cleanup clears *)
  completed : option string       (** the seat passed to [onAnimationComplete] *)
}.

(** The seat buttons (lines 105-140): rows 1-3, columns A and B left of
    the aisle, C and D right of it; the id is [`${row}${col}`]. *)
Definition rows : list Z := [1; 2; 3].

Definition seat_block (cols : list string) : list string :=
  flat_map (fun row => map (fun col => js_to_string row +:+ col) cols) rows.

Definition seat_ids : list string := seat_block ["A"; "B"] ++ seat_block ["C"; "D"].

(** [setTimeout(cb, ms)]: the modal with the new timer, and its handle. *)
Definition set_timeout (ms : Z) (cb : Callback) (m : Modal) : Modal * nat :=
  (m{{ timers := timers m ++ [mkPending (next_id m) (now m + ms) cb];
       next_id := S (next_id m) }}, next_id m).

(** [window.clearTimeout(timer)]; [timer] is [undefined] when the effect
    registered nothing. *)
Definition clear_ids (h : option nat) (ts : list Pending) : list Pending :=
  match h with
  | Some i => filter (fun p => t_id p <> i) ts
  | None => ts
  end.

Definition clear_timeout (h : option nat) (m : Modal) : Modal :=
  m{{ timers := clear_ids h (timers m) }}.

(** The timeout the effect's [switch] registers for a stage (lines 43-71). *)
Definition stage_timeout (st : Stage) : option (Z * Callback) :=
  match st with
  | Passport => Some (1000, Stamp)
  | Printing => Some (100, SetStage Visible)
  | Visible => Some (2500, SetStage Tearing)
  | Tearing => Some (1000, SetStage Complete)
  | Complete => Some (200, Finish)
  | SeatSelection => None
  end.

(** One run of the stage effect: the cleanup of the previous run, then the
    body (lines 40-75). *)
Definition stage_effect (m : Modal) : Modal :=
  let m0 := clear_timeout (effect_timer m) m in
  match stage_timeout (stage m0) with
  | Some (ms, cb) => let '(m1, h) := set_timeout ms cb m0 in m1{{ effect_timer := Some h }}
  | None => m0{{ effect_timer := None }}
  end.

(** The render after a state update of the modal: the effect runs when
    [stage] or [selectedSeat] changed. *)
Definition commit (old new : Modal) : Modal :=
  if bool_decide (stage new = stage old /\ selectedSeat new = selectedSeat old) then new
  else stage_effect new.

(** [handleSeatClick(seatId)] (lines 33-38). *)
Definition handleSeatClick (seat : string) (m : Modal) : Modal :=
  let m1 := m{{ selectedSeat := Some seat }} in
  commit m (fst (set_timeout 500 (SetStage Passport) m1)).

(** [selectedSeat || '1A'] *)
Definition finish_seat (sel : option string) : string :=
  match sel with
  | Some s => if js_truthy_string s then s else "1A"%string
  | None => "1A"%string
  end.

(** A callback runs. *)
Definition run_callback (cb : Callback) (m : Modal) : Modal :=
  match cb with
  | SetStage st => commit m (m{{ stage := st }})
  | Stamp => fst (set_timeout 2000 (SetStage Printing) m)
  | Finish => m{{ completed := Some (finish_seat (selectedSeat m)) }}
  end.

(** The timer [p], at position [i] of the queue, leaves it; the clock is
    at its due time. *)
Definition take_timer (i : nat) (p : Pending) (m : Modal) : Modal :=
  m{{ now := t_due p; timers := delete i (timers m) }}.

Inductive ModalEvent :=
  | ClickSeat (seat : string)
  | FireTimer
  | Wait (t : Z)
  | ParentRender.

(** One macrotask while the modal is mounted. *)
Definition modal_step (e : ModalEvent) (m : Modal) : option Modal :=
  match completed m with
  | Some _ => None
  | None =>
      match e with
      | ClickSeat seat =>
          if bool_decide (stage m = SeatSelection /\ seat ∈ seat_ids)
          then Some (handleSeatClick seat m) else None
      | FireTimer =>
          match earliest_by t_due (timers m) with
          | Some (i, p) => Some (run_callback (t_cb p) (take_timer i p m))
          | None => None
          end
      | Wait t =>
          if bool_decide (now m <= t) && forallb (fun p => bool_decide (t <= t_due p)) (timers m)
          then Some (m{{ now := t }}) else None
      | ParentRender => Some (stage_effect m)
      end
  end.

Fixpoint modal_run (es : list ModalEvent) (m : Modal) : option Modal :=
  match es with
  | [] => Some m
  | e :: es' => match modal_step e m with Some m' => modal_run es' m' | None => None end
  end.

(** The stages the modal goes through along a run. *)
Fixpoint stage_trace (es : list ModalEvent) (m : Modal) : option (list Stage) :=
  match es with
  | [] => Some []
  | e :: es' =>
      match modal_step e m with
      | Some m' => option_map (cons (stage m')) (stage_trace es' m')
      | None => None
      end
  end.

(** The modal mounted at time [t0]; its effect has run once. *)
Definition mount (t0 : Z) : Modal :=
  stage_effect (mkModal SeatSelection None t0 [] 0 None None).

Inductive modal_rel : Modal -> Modal -> Prop :=
  | modal_rel_step e m m' : modal_step e m = Some m' -> modal_rel m m'.

Definition modal_reachable (t0 : Z) (m : Modal) : Prop := rtc modal_rel (mount t0) m.

(** [getStampColor] (lines 82-89). *)
Definition getStampColor (d : Destination.t) : string :=
  let reg := js_lower (Destination.region d) in
  if js_includes reg "japan" || js_includes reg "asia" then "#b91c1c"
  else if js_includes reg "europe" then "#1d4ed8"
  else if js_includes reg "usa" || js_includes reg "america" then "#15803d"
  else if js_includes reg "africa" then "#b45309"
  else "#334155".

(** The passport stamp's name (line 262): [name.length > 10 ?
    name.substring(0, 10).toUpperCase() + '.' : name.toUpperCase()]. *)
Definition stamp_name (name : string) : string :=
  if bool_decide (10 < String.length name)%nat then js_upper (substring 0 10 name) +:+ "." else js_upper name.

(** The boarding pass (lines 282-355). *)
Record Ticket := mkTicket {
  tk_name : string; tk_region : string; tk_image : string; tk_seat : option string;
  tk_distance : Z; tk_task : string; tk_minutes : Z
}.

(** What the modal renders at each stage (lines 93-357). *)
Inductive ModalView :=
  | SeatGridView (name : string) (seats : list (string * bool))   (** each seat and whether it is highlighted *)
  | PassportView (stampHex : string) (stampName : string)
  | TicketView (st : Stage) (t : Ticket)                           (** printing, visible or tearing *)
  | NoView.                                                        (** [complete]: the backdrop only *)

Definition modal_view (d : Destination.t) (task : string) (m : Modal) : ModalView :=
  match stage m with
  | SeatSelection =>
      SeatGridView (Destination.name d) ((fun id => (id, bool_decide (selectedSeat m = Some id))) <$> seat_ids)
  | Passport => PassportView (getStampColor d) (stamp_name (Destination.name d))
  | Complete => NoView
  | st =>
      TicketView st (mkTicket (Destination.name d) (Destination.region d) (Destination.imageUrl d) (selectedSeat m)
        (Destination.distanceKm d) (if js_truthy_string task then task else "Unspecified Journey")
        (Destination.durationMinutes d))
  end.

(** ** Work left and the invariant of the mounted modal *)

(** The callbacks of the registered timers. *)
Definition cbs (m : Modal) : list Callback := t_cb <$> timers m.

(** How many callbacks a timer can still cause to run: each callback
    schedules at most one timer of smaller weight. *)
Definition cb_weight (cb : Callback) : nat :=
  match cb with
  | Finish | SetStage SeatSelection => 1
  | SetStage Complete => 2
  | SetStage Tearing => 3
  | SetStage Visible => 4
  | SetStage Printing => 5
  | Stamp => 6
  | SetStage Passport => 7
  end.

Lemma cb_weight_pos c : (0 < cb_weight c)%nat.
Proof. destruct c as [[]| |]; cbn; lia. Qed.

Definition modal_work (m : Modal) : nat := sum_list_with cb_weight (cbs m).

(** The callbacks that move the modal on from a stage. *)
Definition needs (st : Stage) : list Callback :=
  match st with
  | SeatSelection => [SetStage Passport]
  | Passport => [Stamp; SetStage Printing]
  | Printing => [SetStage Visible]
  | Visible => [SetStage Tearing]
  | Tearing => [SetStage Complete]
  | Complete => [Finish]
  end.

(** One of them is registered (once a seat is chosen). *)
Definition awaits (m : Modal) : Prop :=
  (stage m = SeatSelection -> selectedSeat m <> None) -> exists c, c ∈ needs (stage m) /\ c ∈ cbs m.

Record modal_inv (m : Modal) : Prop := {
  mi_awaits : completed m = None -> awaits m;
  mi_seat : from_option (fun s => s ∈ seat_ids) True (selectedSeat m);
  mi_no_back : SetStage SeatSelection ∉ cbs m;
  mi_idle : stage m = SeatSelection -> effect_timer m = None
}.

(** ** Timers *)

(** Projections of the record updates [m{{ f := v }}]. *)
Ltac msimpl := cbn; unfold constant; cbn.

Lemma cbs_set_timeout ms cb m : cbs (fst (set_timeout ms cb m)) = cbs m ++ [cb].
Proof.
  unfold cbs. transitivity (t_cb <$> (timers m ++ [mkPending (next_id m) (now m + ms) cb]));
    [reflexivity|by rewrite fmap_app].
Qed.

Lemma cbs_clear h m c : c ∈ cbs (clear_timeout h m) -> c ∈ cbs m.
Proof.
  unfold cbs, clear_timeout, clear_ids. destruct h as [i|]; msimpl; [|done].
  intros (p & -> & Hp)%list_elem_of_fmap. apply list_elem_of_filter in Hp as [_ Hp].
  by apply list_elem_of_fmap_2.
Qed.

(** The timer at [i] fires: it leaves the queue. *)
Lemma cbs_delete (ts : list Pending) (i : nat) p :
  ts !! i = Some p -> t_cb <$> ts ≡ₚ t_cb p :: (t_cb <$> delete i ts).
Proof. intros Hi. rewrite <- fmap_cons. f_equiv. by apply delete_Permutation. Qed.

Lemma work_clear h m : (modal_work (clear_timeout h m) <= modal_work m)%nat.
Proof.
  unfold modal_work, cbs, clear_timeout, clear_ids. destruct h as [i|]; msimpl; [|lia].
  induction (timers m) as [|p ts IH]; [cbn; lia|]. rewrite filter_cons.
  case_decide; rewrite ?fmap_cons; cbn [sum_list_with]; lia.
Qed.

(** ** The stage effect *)

Lemma stage_effect_fields m :
  stage (stage_effect m) = stage m /\ selectedSeat (stage_effect m) = selectedSeat m /\
  completed (stage_effect m) = completed m /\ now (stage_effect m) = now m.
Proof. unfold stage_effect. msimpl. repeat case_match; cbn; auto. Qed.

Lemma cbs_stage_effect m :
  cbs (stage_effect m) = cbs (clear_timeout (effect_timer m) m) ++
    from_option (fun '(_, cb) => [cb]) [] (stage_timeout (stage m)).
Proof.
  unfold stage_effect. change (stage (clear_timeout (effect_timer m) m)) with (stage m).
  destruct (stage_timeout (stage m)) as [[ms cb]|]; cbn [from_option].
  - exact (cbs_set_timeout ms cb (clear_timeout (effect_timer m) m)).
  - by rewrite app_nil_r.
Qed.

(** The effect in the seat selection stage registers nothing. *)
Lemma stage_effect_idle m :
  stage m = SeatSelection -> effect_timer m = None -> cbs (stage_effect m) = cbs m /\ effect_timer (stage_effect m) = None.
Proof.
  intros Hs He. rewrite cbs_stage_effect, Hs, He. cbn. rewrite app_nil_r. split; [done|].
  unfold stage_effect. change (stage (clear_timeout (effect_timer m) m)) with (stage m). by rewrite Hs.
Qed.

Definition effect_weight (st : Stage) : nat :=
  from_option (fun '(_, cb) => cb_weight cb) 0%nat (stage_timeout st).

Lemma work_stage_effect m : (modal_work (stage_effect m) <= modal_work m + effect_weight (stage m))%nat.
Proof.
  pose proof (work_clear (effect_timer m) m) as Hc. unfold modal_work in *.
  rewrite cbs_stage_effect, sum_list_with_app. unfold effect_weight.
  destruct (stage_timeout (stage m)) as [[ms c]|]; cbn [from_option].
  - change (sum_list_with cb_weight [c]) with (cb_weight c + 0)%nat. lia.
  - change (sum_list_with cb_weight []) with 0%nat. lia.
Qed.

(** A stage's timeout is lighter than the callback that enters the stage. *)
Lemma effect_weight_lt st : (effect_weight st < cb_weight (SetStage st))%nat.
Proof. destruct st; cbn; lia. Qed.

Lemma stage_effect_awaits m : stage m <> SeatSelection -> awaits (stage_effect m).
Proof.
  intros Hs _. destruct (stage_effect_fields m) as (-> & _). rewrite cbs_stage_effect.
  destruct (stage m); [done| | | | |]; cbn [stage_timeout from_option needs];
    (eexists; split; [apply list_elem_of_here|apply elem_of_app; right; apply list_elem_of_here]).
Qed.

(** A stage keeps waiting for its callbacks when another one fires. *)
Lemma awaits_keep m m' c :
  awaits m -> stage m' = stage m -> selectedSeat m' = selectedSeat m ->
  (forall d, d ∈ cbs m -> d <> c -> d ∈ cbs m') -> c ∉ needs (stage m) -> awaits m'.
Proof.
  intros Ha Hs Hsel Hsub Hc Hne. rewrite Hs, Hsel in Hne. destruct (Ha Hne) as (d & Hd & Hdm).
  exists d. rewrite Hs. split; [done|]. apply Hsub; [done|]. intros ->. contradiction.
Qed.

Lemma stage_effect_no_back m :
  SetStage SeatSelection ∉ cbs m -> stage m <> SeatSelection -> SetStage SeatSelection ∉ cbs (stage_effect m).
Proof.
  intros Hn Hs. rewrite cbs_stage_effect, elem_of_app. intros [H|H]; [exact (Hn (cbs_clear _ _ _ H))|].
  destruct (stage m); try done; cbn in H; apply list_elem_of_singleton in H; discriminate.
Qed.

(** ** A timer fires *)

Section Fire.
Variables (m : Modal) (i : nat) (p : Pending).
Hypothesis He : earliest_by t_due (timers m) = Some (i, p).

Lemma fire_cbs : cbs m ≡ₚ t_cb p :: cbs (take_timer i p m).
Proof. apply cbs_delete. exact (proj1 (earliest_by_spec _ _ _ _ He)). Qed.

Lemma fire_work_taken : (modal_work (take_timer i p m) + cb_weight (t_cb p) = modal_work m)%nat.
Proof. unfold modal_work. rewrite fire_cbs. cbn [sum_list_with]. lia. Qed.

Lemma fire_keeps c : c ∈ cbs m -> c <> t_cb p -> c ∈ cbs (take_timer i p m).
Proof. rewrite fire_cbs. intros [->|]%elem_of_cons; done. Qed.

Lemma fire_sub c : c ∈ cbs (take_timer i p m) -> c ∈ cbs m.
Proof. rewrite fire_cbs. intros H. by apply elem_of_cons; right. Qed.

(** Every callback but the last one leaves less work. *)
Lemma fire_work :
  completed (run_callback (t_cb p) (take_timer i p m)) = None ->
  (modal_work (run_callback (t_cb p) (take_timer i p m)) < modal_work m)%nat.
Proof.
  pose proof fire_work_taken as Hw. pose proof (cb_weight_pos (t_cb p)). destruct (t_cb p) as [st| |] eqn:Hc; cbn [run_callback]; [|intros _|done].
  - intros _. unfold commit. case_bool_decide; [change (modal_work (take_timer i p m) < modal_work m)%nat; lia|].
    pose proof (work_stage_effect ((take_timer i p m){{ stage := st }})) as Hs. pose proof (effect_weight_lt st).
    change (modal_work ((take_timer i p m){{ stage := st }})) with (modal_work (take_timer i p m)) in Hs.
    change (stage ((take_timer i p m){{ stage := st }})) with st in Hs. lia.
  - unfold modal_work at 1. rewrite cbs_set_timeout, sum_list_with_app. fold (modal_work (take_timer i p m)).
    assert (E : sum_list_with cb_weight [SetStage Printing] = 5%nat) by reflexivity.
    rewrite E. change (cb_weight Stamp) with 6%nat in Hw. lia.
Qed.

Lemma fire_inv : modal_inv m -> completed m = None -> modal_inv (run_callback (t_cb p) (take_timer i p m)).
Proof.
  intros [Ha Hseat Hnb Hidle] Hc. assert (Hin : t_cb p ∈ cbs m) by (rewrite fire_cbs; apply list_elem_of_here).
  assert (Hnb0 : SetStage SeatSelection ∉ cbs (take_timer i p m)) by (intros H; exact (Hnb (fire_sub _ H))).
  specialize (Ha Hc). destruct (t_cb p) as [st| |] eqn:Ep; cbn [run_callback].
  - assert (Hst : st <> SeatSelection) by (intros ->; contradiction).
    unfold commit. case_bool_decide as Hsame.
    + destruct Hsame as [Hs _]. change (st = stage m) in Hs. split.
      * intros _. apply (awaits_keep m _ (SetStage st) Ha); [exact Hs|reflexivity| |].
        -- intros d Hd Hne. apply fire_keeps; [exact Hd|by rewrite Ep].
        -- rewrite <- Hs. destruct st; cbn; set_solver.
      * exact Hseat.
      * exact Hnb0.
      * intros E. exfalso. exact (Hst E).
    + destruct (stage_effect_fields ((take_timer i p m){{ stage := st }})) as (Es & Esel & Ec & _).
      split; rewrite ?Es, ?Esel, ?Ec.
      * intros _. by apply stage_effect_awaits.
      * exact Hseat.
      * by apply stage_effect_no_back.
      * intros E. contradiction.
  - split.
    + intros _. destruct (decide (stage m = Passport)) as [Es|Es].
      * intros _. exists (SetStage Printing). rewrite cbs_set_timeout.
        change (stage (fst (set_timeout 2000 (SetStage Printing) (take_timer i p m)))) with (stage m). rewrite Es.
        split; [set_solver|]. apply elem_of_app. right. apply list_elem_of_here.
      * apply (awaits_keep m _ Stamp Ha); [reflexivity|reflexivity| |].
        -- intros d Hd Hne. rewrite cbs_set_timeout. apply elem_of_app. left. apply fire_keeps; [exact Hd|by rewrite Ep].
        -- destruct (stage m); cbn; set_solver.
    + exact Hseat.
    + rewrite cbs_set_timeout, elem_of_app. intros [H|H]; [done|set_solver].
    + exact Hidle.
  - split; [discriminate|exact Hseat|exact Hnb0|exact Hidle].
Qed.
End Fire.

(** ** The invariant along every run *)

Lemma stage_effect_inv m : modal_inv m -> modal_inv (stage_effect m).
Proof.
  intros [Ha Hseat Hnb Hidle]. destruct (stage_effect_fields m) as (Es & Esel & Ec & _).
  destruct (decide (stage m = SeatSelection)) as [E|E].
  - destruct (stage_effect_idle m E (Hidle E)) as [Hcbs Het].
    split; rewrite ?Es, ?Esel, ?Ec.
    + intros Hc. unfold awaits. rewrite Es, Esel, Hcbs. exact (Ha Hc).
    + exact Hseat.
    + by rewrite Hcbs.
    + intros _. exact Het.
  - split; rewrite ?Es, ?Esel, ?Ec.
    + intros _. by apply stage_effect_awaits.
    + exact Hseat.
    + by apply stage_effect_no_back.
    + intros E'. contradiction.
Qed.

Lemma handleSeatClick_inv seat m :
  modal_inv m -> stage m = SeatSelection -> seat ∈ seat_ids -> modal_inv (handleSeatClick seat m).
Proof.
  intros [Ha Hseat Hnb Hidle] Hs Hin.
  set (m2 := fst (set_timeout 500 (SetStage Passport) (m{{ selectedSeat := Some seat }}))).
  assert (H2 : modal_inv m2).
  { split.
    - intros _ _. exists (SetStage Passport). unfold m2. rewrite cbs_set_timeout.
      change (stage (fst (set_timeout 500 (SetStage Passport) (m{{ selectedSeat := Some seat }})))) with (stage m).
      rewrite Hs. split; [apply list_elem_of_here|]. apply elem_of_app. right. apply list_elem_of_here.
    - exact Hin.
    - unfold m2. rewrite cbs_set_timeout, elem_of_app. intros [H|H]; [done|set_solver].
    - exact Hidle. }
  unfold handleSeatClick, commit. fold m2. case_bool_decide; [exact H2|]. by apply stage_effect_inv.
Qed.

Lemma modal_step_inv e m m' : modal_inv m -> modal_step e m = Some m' -> modal_inv m'.
Proof.
  intros Hi. unfold modal_step. destruct (completed m) eqn:Hc; [discriminate|].
  destruct e as [seat| |t|].
  - case_bool_decide as H; [|discriminate]. destruct H as [Hs Hin]. intros [= <-].
    by apply handleSeatClick_inv.
  - destruct (earliest_by t_due (timers m)) as [[i p]|] eqn:He; [|discriminate].
    intros [= <-]. by apply fire_inv.
  - destruct (_ && _); [|discriminate]. intros [= <-].
    destruct Hi as [Ha Hseat Hnb Hidle]. split; done.
  - intros [= <-]. by apply stage_effect_inv.
Qed.

Lemma mount_inv t0 : modal_inv (mount t0).
Proof.
  apply stage_effect_inv. split.
  - intros _ H. exfalso. by apply H.
  - exact I.
  - intros H. by apply elem_of_nil in H.
  - reflexivity.
Qed.

Lemma modal_steps_inv m m' : rtc modal_rel m m' -> modal_inv m -> modal_inv m'.
Proof.
  induction 1 as [|m1 m2 m3 [e ? ? Hs] _ IH]; [done|]. intros Hi. apply IH. by eapply modal_step_inv.
Qed.

Lemma reachable_inv t0 m : modal_reachable t0 m -> modal_inv m.
Proof. intros Hr. exact (modal_steps_inv _ _ Hr (mount_inv t0)). Qed.

(** ** The modal depends on elapsed time only *)

Definition shift_pending (d : Z) (p : Pending) : Pending := mkPending (t_id p) (t_due p + d) (t_cb p).

(** The modal with its clock and timers [d] ms later. *)
Definition shift (d : Z) (m : Modal) : Modal :=
  m{{ now := now m + d; timers := shift_pending d <$> timers m }}.

Definition shift_event (d : Z) (e : ModalEvent) : ModalEvent :=
  match e with Wait t => Wait (t + d) | e => e end.

Lemma min_due_shift d ts : min_due_by t_due (shift_pending d <$> ts) = option_map (fun x => x + d) (min_due_by t_due ts).
Proof.
  unfold min_due_by. change (@None Z) with (option_map (fun x => x + d) None) at 1.
  generalize (@None Z). induction ts as [|p ts IH]; intros acc; [done|]. cbn [fmap list_fmap fold_left].
  rewrite <- IH. f_equal. destruct acc as [a|]; cbn; [|done]. f_equal. apply Z.add_min_distr_r.
Qed.

Lemma earliest_shift d ts :
  earliest_by t_due (shift_pending d <$> ts) = prod_map id (shift_pending d) <$> earliest_by t_due ts.
Proof.
  unfold earliest_by. rewrite min_due_shift. destruct (min_due_by t_due ts) as [x|]; [|done]. cbn [option_map].
  rewrite list_find_fmap. f_equal. apply list_find_ext. intros p. cbn. lia.
Qed.

Lemma clear_ids_shift d h ts : clear_ids h (shift_pending d <$> ts) = shift_pending d <$> clear_ids h ts.
Proof.
  destruct h as [i|]; [|done]. cbn. induction ts as [|p ts IH]; [done|].
  cbn [fmap list_fmap]. rewrite !filter_cons. cbn [t_id shift_pending]. case_decide; [cbn; by f_equal|done].
Qed.

Lemma shift_stage_effect d m : shift d (stage_effect m) = stage_effect (shift d m).
Proof.
  destruct m as [st sel t ts n h c]. unfold stage_effect, shift, clear_timeout, set_timeout.
  cbn. unfold constant. cbn. rewrite clear_ids_shift. destruct (stage_timeout st) as [[ms cb]|]; cbn; [|done].
  rewrite fmap_app. cbn. do 3 f_equal. unfold shift_pending. cbn. f_equal. lia.
Qed.

Lemma shift_set_timeout d ms cb m : shift d (fst (set_timeout ms cb m)) = fst (set_timeout ms cb (shift d m)).
Proof.
  destruct m as [st sel t ts n h c]. unfold shift, set_timeout. cbn. unfold constant. cbn.
  rewrite fmap_app. cbn. do 3 f_equal. unfold shift_pending. cbn. f_equal. lia.
Qed.

Lemma shift_commit d old new : shift d (commit old new) = commit (shift d old) (shift d new).
Proof.
  unfold commit. change (stage (shift d new)) with (stage new). change (stage (shift d old)) with (stage old).
  change (selectedSeat (shift d new)) with (selectedSeat new).
  change (selectedSeat (shift d old)) with (selectedSeat old).
  case_bool_decide; [done|apply shift_stage_effect].
Qed.

Lemma shift_run_callback d cb m : shift d (run_callback cb m) = run_callback cb (shift d m).
Proof. destruct cb; cbn [run_callback]; [apply shift_commit|apply shift_set_timeout|reflexivity]. Qed.

Lemma forallb_shift d t ts :
  forallb (fun p => bool_decide (t + d <= t_due p)) (shift_pending d <$> ts) =
  forallb (fun p => bool_decide (t <= t_due p)) ts.
Proof.
  induction ts as [|p ts IH]; [done|]. cbn [fmap list_fmap forallb]. rewrite IH. f_equal.
  apply bool_decide_ext. unfold shift_pending. cbn. lia.
Qed.

(** One macrotask [d] ms later is the same macrotask, [d] ms later. *)
Lemma modal_step_shift d e m : modal_step (shift_event d e) (shift d m) = shift d <$> modal_step e m.
Proof.
  unfold modal_step. change (completed (shift d m)) with (completed m).
  destruct (completed m); [done|]. destruct e as [seat| |t|]; cbn [shift_event].
  - change (stage (shift d m)) with (stage m). case_bool_decide; [|done].
    cbn [fmap option_fmap option_map]. f_equal. unfold handleSeatClick.
    rewrite shift_commit, shift_set_timeout. reflexivity.
  - change (timers (shift d m)) with (shift_pending d <$> timers m). rewrite earliest_shift.
    destruct (earliest_by t_due (timers m)) as [[i p]|]; [|done]. cbn [fmap option_fmap option_map prod_map fst snd].
    f_equal. rewrite shift_run_callback. f_equal. unfold take_timer, shift. cbn. unfold constant. cbn.
    by rewrite list_fmap_delete.
  - change (timers (shift d m)) with (shift_pending d <$> timers m).
    rewrite forallb_shift. rewrite (bool_decide_ext (now (shift d m) <= t + d) (now m <= t)) by (change (now (shift d m)) with (now m + d); lia).
    by destruct (_ && _).
  - cbn [fmap option_fmap option_map]. f_equal. symmetry. apply shift_stage_effect.
Qed.

Lemma modal_run_shift d es m : modal_run (shift_event d <$> es) (shift d m) = shift d <$> modal_run es m.
Proof.
  revert m. induction es as [|e es IH]; intros m; [done|]. cbn [fmap list_fmap modal_run].
  rewrite modal_step_shift. destruct (modal_step e m); [apply IH|done].
Qed.

Lemma stage_trace_shift d es m : stage_trace (shift_event d <$> es) (shift d m) = stage_trace es m.
Proof.
  revert m. induction es as [|e es IH]; intros m; [done|]. cbn [fmap list_fmap stage_trace].
  rewrite modal_step_shift. destruct (modal_step e m); [cbn [fmap option_fmap option_map]; by rewrite IH|done].
Qed.

Lemma mount_shift t0 : mount t0 = shift t0 (mount 0).
Proof. unfold mount. rewrite shift_stage_effect. f_equal. Qed.

(** ** Completion *)

Lemma seat_ids_truthy : Forall (fun s => js_truthy_string s = true) seat_ids.
Proof. apply (bool_decide_unpack _). vm_compute. reflexivity. Qed.

Lemma seat_ids_SEATS : Forall (fun s => s ∈ Scheduler.SEATS) seat_ids.
Proof. apply (bool_decide_unpack _). vm_compute. reflexivity. Qed.

(** [selectedSeat || '1A'] is the chosen seat. *)
Lemma finish_seat_id s : s ∈ seat_ids -> finish_seat (Some s) = s.
Proof.
  intros Hs. pose proof seat_ids_truthy as Hall. rewrite Forall_forall in Hall.
  cbn [finish_seat]. by rewrite (Hall s Hs).
Qed.

Lemma run_callback_seat cb m : selectedSeat (run_callback cb m) = selectedSeat m.
Proof.
  destruct cb as [s| |]; cbn [run_callback]; [|reflexivity|reflexivity].
  unfold commit. case_bool_decide; [reflexivity|]. exact (proj1 (proj2 (stage_effect_fields (m{{ stage := s }})))).
Qed.

Lemma run_callback_completed cb m :
  completed m = None -> completed (run_callback cb m) = None \/
                        (cb = Finish /\ completed (run_callback cb m) = Some (finish_seat (selectedSeat m))).
Proof.
  intros Hc. destruct cb; cbn [run_callback]; [left|left|right; done].
  - unfold commit. case_bool_decide; [exact Hc|]. rewrite (proj1 (proj2 (proj2 (stage_effect_fields _)))). exact Hc.
  - exact Hc.
Qed.

(** Once a seat is chosen, the next timer fires: it completes the modal or
    leaves less work. *)
Lemma modal_fire_progress m s :
  modal_inv m -> completed m = None -> selectedSeat m = Some s ->
  (1 <= modal_work m)%nat /\
  exists m', modal_step FireTimer m = Some m' /\ modal_inv m' /\ selectedSeat m' = Some s /\
    (completed m' = Some s \/ completed m' = None /\ (modal_work m' < modal_work m)%nat).
Proof.
  intros Hi Hc Hs. pose proof (mi_seat _ Hi) as Hseat. rewrite Hs in Hseat. cbn in Hseat.
  destruct (mi_awaits _ Hi Hc) as (c & _ & Hcm); [by rewrite Hs|].
  destruct (earliest_by_some t_due (timers m)) as (i & p & He).
  { intros E. unfold cbs in Hcm. rewrite E in Hcm. by apply elem_of_nil in Hcm. }
  pose proof (fire_work_taken m i p He) as Hw. pose proof (cb_weight_pos (t_cb p)).
  split; [lia|]. exists (run_callback (t_cb p) (take_timer i p m)). split.
  { unfold modal_step. by rewrite Hc, He. }
  split; [by apply fire_inv|]. rewrite run_callback_seat. split; [exact Hs|].
  destruct (run_callback_completed (t_cb p) (take_timer i p m) Hc) as [Hn|[_ Hf]].
  - right. split; [exact Hn|]. by apply fire_work.
  - left. rewrite Hf. change (selectedSeat (take_timer i p m)) with (selectedSeat m). rewrite Hs.
    by rewrite finish_seat_id.
Qed.

Lemma fire_until_complete n m s :
  (modal_work m <= n)%nat -> modal_inv m -> completed m = None -> selectedSeat m = Some s ->
  exists k m', (k <= modal_work m)%nat /\ modal_run (repeat FireTimer k) m = Some m' /\ completed m' = Some s.
Proof.
  revert m. induction n as [|n IH]; intros m Hn Hi Hc Hs.
  - destruct (modal_fire_progress m s Hi Hc Hs) as [H1 _]. lia.
  - destruct (modal_fire_progress m s Hi Hc Hs) as (H1 & m' & Hst & Hi' & Hs' & [Hd|[Hc' Hlt]]).
    + exists 1%nat, m'. split; [lia|]. cbn. by rewrite Hst.
    + destruct (IH m') as (k & m'' & Hk & Hr & Hd); [lia|done|done|done|].
      exists (S k), m''. split; [lia|]. cbn. by rewrite Hst.
Qed.

Lemma modal_run_steps es m m' : modal_run es m = Some m' -> rtc modal_rel m m'.
Proof.
  revert m. induction es as [|e es IH]; intros m Hr; cbn in Hr; [injection Hr as ->; constructor|].
  destruct (modal_step e m) as [m1|] eqn:Hs; [|discriminate].
  eapply rtc_l; [econstructor; exact Hs|]. by apply IH.
Qed.

(** ** What the modal does *)

(** C22: once a seat is chosen, the mounted modal calls
    [onAnimationComplete] with that seat after at most [modal_work]
    timers have fired, whatever happened before (parent re-renders,
    repeated clicks, waiting); the seat is one of the seats [App] accepts,
    so [App]'s [TicketComplete] control is enabled while it is booking. *)
Theorem modal_completes t0 m s :
  modal_reachable t0 m -> completed m = None -> selectedSeat m = Some s ->
  exists k m', (k <= modal_work m)%nat /\ modal_run (repeat FireTimer k) m = Some m' /\
    completed m' = Some s /\
    forall a, isBooking a = true -> Scheduler.enabledb (Scheduler.TicketComplete s) a = true.
Proof.
  intros Hr Hc Hs. pose proof (reachable_inv _ _ Hr) as Hi.
  destruct (fire_until_complete _ m s (le_n _) Hi Hc Hs) as (k & m' & Hk & Hrun & Hd).
  exists k, m'. split_and!; [done|done|done|]. intros a Hb. cbn. rewrite Hb. apply bool_decide_eq_true_2.
  pose proof (mi_seat _ Hi) as Hseat. rewrite Hs in Hseat. pose proof seat_ids_SEATS as Hall.
  rewrite Forall_forall in Hall. by apply Hall.
Qed.

(** The modal after a click on seat 2B at time 0. *)
Definition seat_clicked : Modal := from_option id (mount 0) (modal_run [ClickSeat "2B"] (mount 0)).

Lemma seat_clicked_reachable : modal_reachable 0 seat_clicked.
Proof. apply (modal_run_steps [ClickSeat "2B"]). vm_compute. reflexivity. Qed.

Lemma modal_completes_witness :
  exists k m', (k <= modal_work seat_clicked)%nat /\ modal_run (repeat FireTimer k) seat_clicked = Some m' /\
    completed m' = Some "2B"%string /\
    forall a, isBooking a = true -> Scheduler.enabledb (Scheduler.TicketComplete "2B") a = true.
Proof. apply (modal_completes 0); [exact seat_clicked_reachable|reflexivity|reflexivity]. Defined.

Lemma ticket_timeline_at_0 seat :
  seat ∈ seat_ids ->
  stage_trace (ClickSeat seat :: repeat FireTimer 7) (mount 0) =
    Some [SeatSelection; Passport; Passport; Printing; Visible; Tearing; Complete; Complete] /\
  exists m, modal_run (ClickSeat seat :: repeat FireTimer 7) (mount 0) = Some m /\
    completed m = Some seat /\ now m = 7300.
Proof.
  intros Hs.
  (* the twelve seats, evaluated *)
  assert (Hall : Forall (fun seat =>
    stage_trace (ClickSeat seat :: repeat FireTimer 7) (mount 0) =
      Some [SeatSelection; Passport; Passport; Printing; Visible; Tearing; Complete; Complete] /\
    completed <$> modal_run (ClickSeat seat :: repeat FireTimer 7) (mount 0) = Some (Some seat) /\
    now <$> modal_run (ClickSeat seat :: repeat FireTimer 7) (mount 0) = Some 7300) seat_ids).
  { apply (bool_decide_unpack _). vm_compute. reflexivity. }
  rewrite Forall_forall in Hall. destruct (Hall seat Hs) as (Ht & Hc & Hn). split; [exact Ht|].
  destruct (modal_run _ _) as [m|]; [|discriminate]. exists m. injection Hc as Hc. by injection Hn as Hn.
Qed.

(** C23: without re-renders of [App], a seat clicked at time [t0] goes
    through the passport, printing, visible, tearing and complete stages
    and reaches [onAnimationComplete] with that seat at [t0 + 7300] ms
    (500 + 1000 + 2000 + 100 + 2500 + 1000 + 200), after seven timers. *)
Theorem ticket_timeline t0 seat :
  seat ∈ seat_ids ->
  stage_trace (ClickSeat seat :: repeat FireTimer 7) (mount t0) =
    Some [SeatSelection; Passport; Passport; Printing; Visible; Tearing; Complete; Complete] /\
  exists m, modal_run (ClickSeat seat :: repeat FireTimer 7) (mount t0) = Some m /\
    completed m = Some seat /\ now m = t0 + 7300.
Proof.
  intros Hs. destruct (ticket_timeline_at_0 seat Hs) as (Ht & m & Hr & Hc & Hn).
  rewrite mount_shift.
  change (ClickSeat seat :: repeat FireTimer 7) with (shift_event t0 <$> (ClickSeat seat :: repeat FireTimer 7)).
  rewrite stage_trace_shift, modal_run_shift, Hr. split; [exact Ht|].
  exists (shift t0 m). split; [reflexivity|]. split; [exact Hc|]. change (now m + t0 = t0 + 7300). lia.
Qed.

Lemma ticket_timeline_witness :
  stage_trace (ClickSeat "3C" :: repeat FireTimer 7) (mount 1000) =
    Some [SeatSelection; Passport; Passport; Printing; Visible; Tearing; Complete; Complete] /\
  exists m, modal_run (ClickSeat "3C" :: repeat FireTimer 7) (mount 1000) = Some m /\
    completed m = Some "3C"%string /\ now m = 1000 + 7300.
Proof. apply ticket_timeline. vm_compute. repeat constructor. Defined.

(** A re-render of [App] at time [t] after a click on [seat] and the
    first two stage timers (at 0.5 s the passport shows, at 1.5 s it is
    stamped and the nested [setStage('printing')] is pending until 3.5 s). *)
Definition rerender_events (seat : string) (t : Z) : list ModalEvent :=
  [ClickSeat seat; FireTimer; FireTimer; Wait t; ParentRender] ++ repeat FireTimer 8.

Definition reprinted_trace : list Stage :=
  [SeatSelection; Passport; Passport; Passport; Passport; Passport;
   Printing; Visible; Printing; Visible; Tearing; Complete; Complete].

(** The outcome of a re-render at [d] ms after a click at time 0. *)
Definition reprints (seat : string) (d : Z) : bool :=
  bool_decide (stage_trace (rerender_events seat d) (mount 0) = Some reprinted_trace) &&
  match modal_run (rerender_events seat d) (mount 0) with
  | Some m => bool_decide (completed m = Some seat) && bool_decide (now m = d + 6800)
  | None => false
  end.

(** Every seat and every millisecond of the window from the stamp (1.5 s)
    to 2.5 s, in which the stamp of the re-run effect (1 s after the
    render) comes before the pending [setStage('printing')] (3.5 s). *)
Lemma reprints_window :
  forallb (fun seat => forallb (fun n => reprints seat (1500 + Z.of_nat n)) (seq 0 1000)) seat_ids = true.
Proof. vm_compute. reflexivity. Qed.

Lemma reprints_at seat d : seat ∈ seat_ids -> 1500 <= d < 2500 -> reprints seat d = true.
Proof.
  intros Hs Hd. pose proof reprints_window as H. rewrite forallb_forall in H.
  specialize (H seat (proj1 (list_elem_of_In _ _) Hs)). rewrite forallb_forall in H.
  replace d with (1500 + Z.of_nat (Z.to_nat (d - 1500))) by lia.
  apply H, in_seq. lia.
Qed.

(** C24 (a finding): a render of [App] after the passport is stamped
    re-runs the stage effect, which stamps again and schedules a second
    [setStage('printing')]; neither nested timeout is cleared by the
    cleanup.  For every seat, every click time [t0] and every render time
    [t0 + d] with [1500 <= d < 2500] (the second stamp then comes before
    the first [setStage('printing')] at [t0 + 3500]), the second one
    fires while the ticket is visible, the ticket is printed a second
    time, and [onAnimationComplete] comes at [t0 + d + 6800] instead of
    [t0 + 7300]. *)
Theorem rerender_reprints t0 seat d :
  seat ∈ seat_ids -> 1500 <= d < 2500 ->
  stage_trace (rerender_events seat (t0 + d)) (mount t0) = Some reprinted_trace /\
  exists m, modal_run (rerender_events seat (t0 + d)) (mount t0) = Some m /\
    completed m = Some seat /\ now m = t0 + d + 6800.
Proof.
  intros Hs Hd. pose proof (reprints_at seat d Hs Hd) as Hr. unfold reprints in Hr.
  rewrite mount_shift. assert (E : rerender_events seat (t0 + d) = shift_event t0 <$> rerender_events seat d).
  { unfold rerender_events. cbn. by rewrite (Z.add_comm t0 d). }
  rewrite E, stage_trace_shift, modal_run_shift.
  apply andb_prop in Hr as [Ht Hm]. split; [exact (bool_decide_eq_true_1 _ Ht)|].
  destruct (modal_run _ _) as [m|]; [|discriminate].
  apply andb_prop in Hm as [Hc Hn]. apply bool_decide_eq_true_1 in Hc, Hn.
  exists (shift t0 m). split; [reflexivity|]. split; [exact Hc|]. change (now m + t0 = t0 + d + 6800). lia.
Qed.

Lemma rerender_reprints_witness :
  stage_trace (rerender_events "2B" (1000 + 2000)) (mount 1000) = Some reprinted_trace /\
  exists m, modal_run (rerender_events "2B" (1000 + 2000)) (mount 1000) = Some m /\
    completed m = Some "2B"%string /\ now m = 1000 + 2000 + 6800.
Proof. apply rerender_reprints; [vm_compute; repeat constructor|lia]. Defined.

(** ** What the modal shows *)

(** Until a seat is clicked the modal shows the seat grid and has no
    timer. *)
Definition unclicked_inv (m : Modal) : Prop := selectedSeat m = None -> stage m = SeatSelection /\ timers m = [].

Lemma handleSeatClick_seat seat m : selectedSeat (handleSeatClick seat m) = Some seat.
Proof.
  unfold handleSeatClick, commit. case_bool_decide; [reflexivity|].
  exact (proj1 (proj2 (stage_effect_fields _))).
Qed.

Lemma stage_effect_unclicked m : modal_inv m -> unclicked_inv m -> unclicked_inv (stage_effect m).
Proof.
  intros Hi Hu Hn. destruct (stage_effect_fields m) as (Es & Esel & _).
  rewrite Esel in Hn. destruct (Hu Hn) as [Hs Ht]. split; [by rewrite Es|].
  destruct (stage_effect_idle m Hs (mi_idle _ Hi Hs)) as [Hcbs _].
  unfold cbs in Hcbs. rewrite Ht in Hcbs. exact (fmap_nil_inv _ _ Hcbs).
Qed.

Lemma modal_step_unclicked e m m' :
  modal_inv m -> unclicked_inv m -> modal_step e m = Some m' -> unclicked_inv m'.
Proof.
  intros Hi Hu. unfold modal_step. destruct (completed m); [discriminate|]. destruct e as [seat| |t|].
  - case_bool_decide; [|discriminate]. intros [= <-] Hn. by rewrite handleSeatClick_seat in Hn.
  - destruct (earliest_by t_due (timers m)) as [[i p]|] eqn:He; [|discriminate]. intros [= <-] Hn.
    rewrite run_callback_seat in Hn. destruct (Hu Hn) as [_ Ht]. rewrite Ht in He. discriminate.
  - destruct (_ && _); [|discriminate]. intros [= <-]. exact Hu.
  - intros [= <-]. by apply stage_effect_unclicked.
Qed.

Lemma steps_unclicked m m' : rtc modal_rel m m' -> modal_inv m -> unclicked_inv m -> unclicked_inv m'.
Proof.
  induction 1 as [|m1 m2 m3 [e ? ? Hs] _ IH]; intros Hi Hu; [exact Hu|].
  apply IH; [exact (modal_step_inv _ _ _ Hi Hs)|exact (modal_step_unclicked _ _ _ Hi Hu Hs)].
Qed.

Lemma reachable_unclicked t0 m : modal_reachable t0 m -> unclicked_inv m.
Proof.
  intros Hr. apply (steps_unclicked _ _ Hr (mount_inv t0)).
  apply stage_effect_unclicked; [|intros _; split; reflexivity].
  split; [intros _ H; exfalso; by apply H|exact I|intros H; by apply elem_of_nil in H|reflexivity].
Qed.

(** C37: once the modal prints the boarding pass (the printing, visible
    and tearing stages), the pass shows the destination's name, region,
    picture, distance and duration, the task or "Unspecified Journey",
    and a seat of the grid: the one the user clicked, never [null]. *)
Theorem ticket_shows_seat d task t0 m :
  modal_reachable t0 m -> stage m = Printing \/ stage m = Visible \/ stage m = Tearing ->
  exists seat, seat ∈ seat_ids /\ selectedSeat m = Some seat /\
    modal_view d task m = TicketView (stage m)
      (mkTicket (Destination.name d) (Destination.region d) (Destination.imageUrl d) (Some seat)
        (Destination.distanceKm d) (if js_truthy_string task then task else "Unspecified Journey")
        (Destination.durationMinutes d)).
Proof.
  intros Hr Hst. pose proof (reachable_unclicked t0 m Hr) as Hu. pose proof (mi_seat _ (reachable_inv t0 m Hr)) as Hseat.
  destruct (selectedSeat m) as [seat|] eqn:Es.
  - exists seat. split; [exact Hseat|]. split; [reflexivity|].
    unfold modal_view. rewrite Es. destruct Hst as [E | [E | E]]; rewrite E; reflexivity.
  - exfalso. destruct (Hu Es) as [Hs _]. rewrite Hs in Hst. destruct Hst as [H|[H|H]]; discriminate.
Qed.

Definition ticket_printing : Modal :=
  from_option id (mount 0) (modal_run [ClickSeat "2B"; FireTimer; FireTimer; FireTimer] (mount 0)).

Lemma ticket_printing_reachable : modal_reachable 0 ticket_printing.
Proof. apply (modal_run_steps [ClickSeat "2B"; FireTimer; FireTimer; FireTimer]). vm_compute. reflexivity. Qed.

Lemma ticket_shows_seat_witness :
  stage ticket_printing = Printing /\
  exists seat, seat ∈ seat_ids /\ selectedSeat ticket_printing = Some seat /\
    modal_view Catalog.INITIAL_DESTINATION "" ticket_printing = TicketView (stage ticket_printing)
      (mkTicket (Destination.name Catalog.INITIAL_DESTINATION) (Destination.region Catalog.INITIAL_DESTINATION)
        (Destination.imageUrl Catalog.INITIAL_DESTINATION) (Some seat) (Destination.distanceKm Catalog.INITIAL_DESTINATION)
        (if js_truthy_string "" then "" else "Unspecified Journey") (Destination.durationMinutes Catalog.INITIAL_DESTINATION)).
Proof.
  split; [vm_compute; reflexivity|]. apply (ticket_shows_seat _ _ 0); [exact ticket_printing_reachable|].
  left. vm_compute. reflexivity.
Defined.

End TicketModal.
