(* ===== verification/Invariants.v ===== *)
(** * Invariants of the session timer and of the event loop

    [timer_inv] is the invariant of the hooks that the session timer
    relies on: the planned duration is a positive whole number of minutes,
    the countdown stays within [0 .. initialDuration], it is full whenever
    the timer is idle, and every recorded session is well formed.
    [world_inv] adds what the event loop keeps: exactly one tick interval
    and one tip interval while RUNNING and none otherwise, no timer due in
    the past, and the tick due within one second.  [reachable_world_inv]
    proves [world_inv] of every reachable world by induction on the steps;
    the handlers' lemmas of this file are its cases. *)

From Stdlib Require Import ZArith QArith String Lia.
From stdpp Require Import base list strings decidable relations.
From coqutil Require Import Datatypes.RecordSetters.
From S2P Require Import Prelude JsRuntime Types Catalog AppState Session Labels Flavor Media Remote Scheduler.
Import DoubleBraceUpdate.
Import Scheduler.

Local Open Scope Z_scope.

(** ** The timer queue *)

Definition count_timer (t : Timer) (ts : list Pending) : nat :=
  length (filter (fun p => timer p = t) ts).

Lemma count_timer_nil t : count_timer t [] = 0%nat.
Proof. reflexivity. Qed.

Lemma count_timer_cons t p ts :
  count_timer t (p :: ts) = ((if bool_decide (timer p = t) then 1 else 0) + count_timer t ts)%nat.
Proof. unfold count_timer. rewrite filter_cons. by case_bool_decide; case_decide. Qed.

Lemma clear_timer_cons t p ts :
  clear_timer t (p :: ts) = if bool_decide (timer p = t) then clear_timer t ts else p :: clear_timer t ts.
Proof. unfold clear_timer. rewrite filter_cons. by case_bool_decide; case_decide. Qed.

Lemma count_timer_app t ts1 ts2 :
  count_timer t (ts1 ++ ts2) = (count_timer t ts1 + count_timer t ts2)%nat.
Proof. unfold count_timer. by rewrite filter_app, length_app. Qed.

Lemma count_timer_single t d t' :
  count_timer t [mkPending d t'] = if bool_decide (t' = t) then 1%nat else 0%nat.
Proof. rewrite count_timer_cons. simpl. by case_bool_decide. Qed.

Lemma count_clear_same t ts : count_timer t (clear_timer t ts) = 0%nat.
Proof.
  induction ts as [|p ts IH]; [done|]. rewrite clear_timer_cons.
  case_bool_decide; [done|]. rewrite count_timer_cons, bool_decide_eq_false_2 by done. exact IH.
Qed.

Lemma count_clear_other t t' ts : t <> t' -> count_timer t (clear_timer t' ts) = count_timer t ts.
Proof.
  intros Hne. induction ts as [|p ts IH]; [done|].
  rewrite clear_timer_cons, (count_timer_cons _ p). case_bool_decide as Hp.
  - rewrite bool_decide_eq_false_2 by congruence. exact IH.
  - rewrite count_timer_cons, IH. reflexivity.
Qed.

Lemma count_timer_delete t ts i p :
  ts !! i = Some p ->
  count_timer t ts = (count_timer t (delete i ts) + if bool_decide (timer p = t) then 1 else 0)%nat.
Proof.
  intros Hi. rewrite <- (take_drop_middle ts i p Hi) at 1.
  rewrite delete_take_drop, !count_timer_app, count_timer_cons. lia.
Qed.

#[export] Hint Rewrite count_timer_nil count_timer_app count_timer_single count_clear_same : fx_rw.

Lemma Forall_clear_timer (P : Pending -> Prop) t ts :
  Forall P ts -> Forall P (clear_timer t ts).
Proof.
  rewrite !Forall_forall. intros H x Hx. apply H.
  unfold clear_timer in Hx. by apply list_elem_of_filter in Hx as [_ Hx].
Qed.

#[export] Hint Resolve Forall_clear_timer Forall_delete : fx.

(** ** The invariants *)

(** A recorded session: completed, with a positive planned duration and
    an actual duration between 0 and the planned one. *)
Definition session_wf (x : FocusSession.t) : Prop :=
  FocusSession.completed x = true /\ 0 < FocusSession.durationMinutes x /\
  match FocusSession.actualDurationMinutes x with
  | Some a => 0 <= a <= FocusSession.durationMinutes x
  | None => False
  end.

Record timer_inv (s : App) : Prop := {
  ti_init_pos : 0 < initialDuration s;
  ti_init_min : initialDuration s mod 60 = 0;
  ti_left_nonneg : 0 <= timeLeft s;
  ti_left_le : timeLeft s <= initialDuration s;
  ti_idle : timerState s = IDLE -> timeLeft s = initialDuration s;
  ti_paused : timerState s = PAUSED -> 0 < timeLeft s;
  ti_dest : Destination.id (selectedDestination s) <> "freestyle"%string ->
            initialDuration s = Destination.durationMinutes (selectedDestination s) * 60;
  ti_sessions : Forall session_wf (sessions s)
}.

(** The invariant between macrotasks: a running countdown is never at 0. *)
Definition app_inv (s : App) : Prop :=
  timer_inv s /\ (timerState s = RUNNING -> 0 < timeLeft s).

Definition running_count (s : App) : nat := if bool_decide (timerState s = RUNNING) then 1 else 0.

Record world_inv (w : World) : Prop := {
  wi_app : app_inv (app w);
  wi_ticks : count_timer TickTimer (timers w) = running_count (app w);
  wi_tips : count_timer TipTimer (timers w) = running_count (app w);
  wi_future : Forall (fun p => now w <= due p) (timers w);
  wi_tick_soon : Forall (fun p => timer p = TickTimer -> due p <= now w + 1000) (timers w)
}.

(** ** The effects pass *)

Lemma add_timer_app ms t w : app (add_timer ms t w) = app w.
Proof. reflexivity. Qed.
Lemma add_timer_now ms t w : now (add_timer ms t w) = now w.
Proof. reflexivity. Qed.
Lemma add_timer_timers ms t w : timers (add_timer ms t w) = timers w ++ [mkPending (now w + ms) t].
Proof. reflexivity. Qed.

#[export] Hint Rewrite add_timer_app add_timer_now add_timer_timers : fx_rw.

(** The timers due in the future stay so when a timer is added. *)
Lemma future_add (t : Z) (ts : list Pending) ms tm :
  0 <= ms -> Forall (fun p => t <= due p) ts ->
  Forall (fun p => t <= due p) (ts ++ [mkPending (t + ms) tm]).
Proof. intros Hms H. apply Forall_app. split; [exact H|]. constructor; [simpl; lia|constructor]. Qed.

Lemma soon_add (t : Z) (ts : list Pending) ms tm :
  (tm = TickTimer -> ms <= 1000) ->
  Forall (fun p => timer p = TickTimer -> due p <= t + 1000) ts ->
  Forall (fun p => timer p = TickTimer -> due p <= t + 1000) (ts ++ [mkPending (t + ms) tm]).
Proof.
  intros Hms H. apply Forall_app. split; [exact H|].
  constructor; [simpl; intros Ht; specialize (Hms Ht); lia|constructor].
Qed.

#[export] Hint Resolve future_add soon_add : fx.

Definition timer_changed (o n : App) : bool :=
  negb (bool_decide (timerState o = timerState n) && bool_decide (timeLeft o = timeLeft n)).

Definition state_changed (o n : App) : bool := negb (bool_decide (timerState o = timerState n)).

(** Reduce the record updates of the world and of the app. *)
Ltac world_simpl :=
  cbn [with_app with_now with_timers with_inflight add_timer app now timers inflight fst snd] in *.

Lemma fetch_effect_timers o w :
  app (fetch_effect o w) = app w /\ now (fetch_effect o w) = now w /\
  timers (fetch_effect o w) = timers w.
Proof. unfold fetch_effect. by destruct (_ || _). Qed.

Lemma tip_effect_spec o w :
  app (tip_effect o w) = app w /\ now (tip_effect o w) = now w /\
  count_timer TickTimer (timers (tip_effect o w)) = count_timer TickTimer (timers w) /\
  count_timer TipTimer (timers (tip_effect o w)) =
    (if state_changed o (app w) then running_count (app w) else count_timer TipTimer (timers w)) /\
  (Forall (fun p => now w <= due p) (timers w) -> Forall (fun p => now w <= due p) (timers (tip_effect o w))) /\
  (Forall (fun p => timer p = TickTimer -> due p <= now w + 1000) (timers w) ->
   Forall (fun p => timer p = TickTimer -> due p <= now w + 1000) (timers (tip_effect o w))).
Proof.
  unfold tip_effect, state_changed, running_count.
  destruct (bool_decide (timerState o = timerState (app w))); [done|]. cbn [negb].
  destruct (bool_decide (timerState (app w) = RUNNING)); world_simpl; autorewrite with fx_rw; world_simpl;
    simpl; repeat split; intros;
    rewrite ?count_clear_same, ?(count_clear_other TickTimer TipTimer),
      ?(count_clear_other TipTimer TickTimer) by discriminate; try lia; auto with fx.
  - apply future_add; [lia|]. by apply Forall_clear_timer.
  - apply soon_add; [discriminate|]. by apply Forall_clear_timer.
Qed.

Lemma timer_effect_run_spec o w :
  let w' := fst (timer_effect_run o w) in
  app w' = app w /\ now w' = now w /\
  count_timer TickTimer (timers w') =
    (if timer_changed o (app w)
     then (if bool_decide (Session.timer_effect (app w) = Session.StartInterval) then 1 else 0)
     else count_timer TickTimer (timers w))%nat /\
  count_timer TipTimer (timers w') = count_timer TipTimer (timers w) /\
  (Forall (fun p => now w <= due p) (timers w) -> Forall (fun p => now w <= due p) (timers w')) /\
  (Forall (fun p => timer p = TickTimer -> due p <= now w + 1000) (timers w) ->
   Forall (fun p => timer p = TickTimer -> due p <= now w + 1000) (timers w')) /\
  snd (timer_effect_run o w) =
    timer_changed o (app w) && bool_decide (Session.timer_effect (app w) = Session.CompleteNow).
Proof.
  unfold timer_effect_run, timer_changed. cbv zeta.
  destruct (_ && _); cbn [negb fst snd andb]; [done|].
  destruct (Session.timer_effect (app w)); cbn [fst snd];
    rewrite ?bool_decide_eq_true_2, ?bool_decide_eq_false_2 by done;
    world_simpl; autorewrite with fx_rw; world_simpl;
    simpl; repeat split; intros;
    rewrite ?count_clear_same, ?(count_clear_other TickTimer TipTimer),
      ?(count_clear_other TipTimer TickTimer) by discriminate; try lia; auto with fx.
  - apply future_add; [lia|]. by apply Forall_clear_timer.
  - apply soon_add; [lia|]. by apply Forall_clear_timer.
Qed.

Lemma effects_spec o w :
  let n := app w in
  let w' := fst (effects o w) in
  app w' = n /\ now w' = now w /\
  count_timer TickTimer (timers w') =
    (if timer_changed o n
     then (if bool_decide (Session.timer_effect n = Session.StartInterval) then 1 else 0)
     else count_timer TickTimer (timers w))%nat /\
  count_timer TipTimer (timers w') =
    (if state_changed o n then running_count n else count_timer TipTimer (timers w)) /\
  (Forall (fun p => now w <= due p) (timers w) -> Forall (fun p => now w <= due p) (timers w')) /\
  (Forall (fun p => timer p = TickTimer -> due p <= now w + 1000) (timers w) ->
   Forall (fun p => timer p = TickTimer -> due p <= now w + 1000) (timers w')) /\
  snd (effects o w) = timer_changed o n && bool_decide (Session.timer_effect n = Session.CompleteNow).
Proof.
  cbv zeta. unfold effects.
  destruct (fetch_effect_timers o w) as (Fa & Fn & Ft).
  pose proof (timer_effect_run_spec o (fetch_effect o w)) as (Ta & Tn & Ttk & Ttp & Tf & Ts & Td).
  destruct (timer_effect_run o (fetch_effect o w)) as [w2 d] eqn:E. cbn [fst snd] in *.
  destruct (tip_effect_spec o w2) as (Pa & Pn & Ptk & Ptp & Pf & Ps).
  rewrite Fa, Fn, Ft in *. rewrite Ta, Tn in *.
  rewrite Ptk, Ptp, Ttk, Ttp. repeat split; try congruence; auto.
Qed.

(** Normalise the record updates of a handler applied to an explicit record. *)
Ltac app_norm := unfold constant in *; cbn in *.

(** ** Recording a session *)

(** A planned duration that is a positive whole number of minutes is at
    least one minute. *)
Lemma minutes_pos (d : Z) : 0 < d -> d mod 60 = 0 -> 0 < d / 60.
Proof. intros. pose proof (Z.div_mod d 60). lia. Qed.

Lemma newSession_wf early now s : timer_inv s -> session_wf (Session.newSession early now s).
Proof.
  intros Hi. pose proof (minutes_pos _ (ti_init_pos _ Hi) (ti_init_min _ Hi)).
  pose proof (ti_left_nonneg _ Hi). pose proof (ti_left_le _ Hi).
  unfold session_wf, Session.newSession, js_floor_div. cbn.
  split; [reflexivity|]. split; [lia|]. destruct early; [|lia].
  split; [apply Z_div_nonneg; lia | apply Z_div_le_div; lia].
Qed.

Lemma completeSession_inv early now s :
  timer_inv s -> timerState s <> IDLE -> timer_inv (fst (Session.completeSession early now s)).
Proof.
  intros Hi Hs. pose proof (newSession_wf early now s Hi).
  unfold Session.completeSession; destruct s; destruct Hi; constructor; app_norm;
    try done; try (intros; congruence). by constructor.
Qed.

(** ** Committing a render *)

Lemma timer_effect_start s :
  Session.timer_effect s = Session.StartInterval <-> timerState s = RUNNING /\ 0 < timeLeft s.
Proof.
  unfold Session.timer_effect.
  repeat case_bool_decide; simpl; split; intros; try done; destruct_and?;
    try (split; [done|lia]); try lia; congruence.
Qed.

Lemma timer_effect_complete s :
  Session.timer_effect s = Session.CompleteNow <-> timerState s = RUNNING /\ timeLeft s = 0.
Proof.
  unfold Session.timer_effect.
  repeat case_bool_decide; simpl; split; intros; try done; destruct_and?;
    try (split; [done|lia]); try lia; congruence.
Qed.

(** What [commit] needs of the world a handler left. *)
Record commit_pre (o : App) (w : World) : Prop := {
  cp_inv : timer_inv (app w);
  cp_same : timer_changed o (app w) = false ->
            (timerState (app w) = RUNNING -> 0 < timeLeft (app w)) /\
            count_timer TickTimer (timers w) = running_count (app w);
  cp_tips : state_changed o (app w) = false -> count_timer TipTimer (timers w) = running_count (app w);
  cp_future : Forall (fun p => now w <= due p) (timers w);
  cp_soon : Forall (fun p => timer p = TickTimer -> due p <= now w + 1000) (timers w)
}.

Lemma running_count_start s :
  timer_inv s -> ~ (timerState s = RUNNING /\ timeLeft s = 0) ->
  (if bool_decide (Session.timer_effect s = Session.StartInterval) then 1 else 0)%nat = running_count s.
Proof.
  intros Hi H0. pose proof (ti_left_nonneg _ Hi). unfold running_count.
  case_bool_decide as Hs; rewrite timer_effect_start in Hs.
  - by rewrite bool_decide_eq_true_2 by apply Hs.
  - case_bool_decide as Hr; [|done]. exfalso. apply H0. split; [done|].
    destruct (decide (0 < timeLeft s)); [by destruct Hs|lia].
Qed.

(** The render after [completeSession()] called from the timer effect. *)
Lemma commit_complete_inv (w1 : World) :
  timer_inv (app w1) -> timerState (app w1) = RUNNING ->
  Forall (fun p => now w1 <= due p) (timers w1) ->
  Forall (fun p => timer p = TickTimer -> due p <= now w1 + 1000) (timers w1) ->
  let '(n', ints) := Session.completeSession false (now w1) (app w1) in
  world_inv (fst (effects (app w1) (run_intents (with_app n' w1) ints))).
Proof.
  intros Hi Hr Hf Hs. cbn [Session.completeSession].
  set (w2 := run_intents _ _).
  pose proof (effects_spec (app w1) w2) as (Happ & Hnow & Htick & Htip & Hf' & Hs' & _).
  assert (Hn' : app w2 = fst (Session.completeSession false (now w1) (app w1))) by reflexivity.
  assert (Hst : timerState (app w2) = COMPLETED) by reflexivity.
  assert (Hch : timer_changed (app w1) (app w2) = true).
  { unfold timer_changed. rewrite Hst, Hr. by rewrite bool_decide_eq_false_2. }
  assert (Hsch : state_changed (app w1) (app w2) = true).
  { unfold state_changed. rewrite Hst, Hr. by rewrite bool_decide_eq_false_2. }
  assert (Hrc : running_count (app w2) = 0%nat) by (unfold running_count; by rewrite Hst).
  constructor.
  - rewrite Happ, Hn'. split; [apply completeSession_inv; [exact Hi|congruence]|].
    cbn. discriminate.
  - rewrite Htick, Hch, Happ, Hrc. rewrite bool_decide_eq_false_2; [done|].
    rewrite timer_effect_start, Hst. naive_solver.
  - by rewrite Htip, Hsch, Happ.
  - rewrite Hnow. apply Hf'. apply Forall_clear_timer. exact Hf.
  - rewrite Hnow. apply Hs'. apply Forall_clear_timer. exact Hs.
Qed.

Lemma commit_inv o w : commit_pre o w -> world_inv (commit o w).
Proof.
  intros [Hi Hsame Htips Hfut Hsoon].
  pose proof (effects_spec o w) as (Happ & Hnow & Htick & Htip & Hf & Hs & Hd).
  unfold commit. destruct (effects o w) as [w1 d] eqn:E. cbn [fst snd] in *.
  pose proof (ti_left_nonneg _ Hi).
  destruct d.
  - symmetry in Hd. apply andb_prop in Hd as [Hchg Hce].
    apply bool_decide_eq_true_1, timer_effect_complete in Hce as [Hr H0].
    apply commit_complete_inv; rewrite ?Happ, ?Hnow; auto.
  - assert (Hnc : timer_changed o (app w) = true ->
                  ~ (timerState (app w) = RUNNING /\ timeLeft (app w) = 0)).
    { intros Hch Hc. rewrite Hch in Hd. simpl in Hd.
      rewrite <- timer_effect_complete in Hc. by rewrite bool_decide_eq_true_2 in Hd. }
    constructor; rewrite ?Happ, ?Hnow.
    + split; [exact Hi|]. destruct (timer_changed o (app w)) eqn:Ech.
      * intros Hr. specialize (Hnc eq_refl).
        destruct (decide (timeLeft (app w) = 0)); [by destruct Hnc|lia].
      * apply Hsame; reflexivity.
    + rewrite Htick. destruct (timer_changed o (app w)) eqn:Ech.
      * by apply running_count_start, Hnc.
      * apply Hsame; reflexivity.
    + rewrite Htip. destruct (state_changed o (app w)) eqn:Esc; [reflexivity|]. by apply Htips.
    + by apply Hf.
    + by apply Hs.
Qed.

(** ** Running the intents of a handler *)

Definition intent_ok (i : Intent) : Prop :=
  match i with SetTimeout ms _ => 0 <= ms | _ => True end.

Lemma run_intents_spec w ints :
  Forall intent_ok ints ->
  let w' := run_intents w ints in
  app w' = app w /\ now w' = now w /\
  count_timer TipTimer (timers w') = count_timer TipTimer (timers w) /\
  (ClearTick ∉ ints -> count_timer TickTimer (timers w') = count_timer TickTimer (timers w)) /\
  (Forall (fun p => now w <= due p) (timers w) -> Forall (fun p => now w <= due p) (timers w')) /\
  (Forall (fun p => timer p = TickTimer -> due p <= now w + 1000) (timers w) ->
   Forall (fun p => timer p = TickTimer -> due p <= now w + 1000) (timers w')).
Proof.
  intros Hok. cbv zeta. unfold run_intents. revert w.
  induction Hok as [|i ints Hi Hok IH]; intros w; [done|]. cbn [fold_left].
  destruct (IH (run_intent w i)) as (Ha & Hn & Htp & Htk & Hf & Hs).
  assert (Hstep : app (run_intent w i) = app w /\ now (run_intent w i) = now w /\
     count_timer TipTimer (timers (run_intent w i)) = count_timer TipTimer (timers w) /\
     (i <> ClearTick -> count_timer TickTimer (timers (run_intent w i)) = count_timer TickTimer (timers w)) /\
     (Forall (fun p => now w <= due p) (timers w) -> Forall (fun p => now w <= due p) (timers (run_intent w i))) /\
     (Forall (fun p => timer p = TickTimer -> due p <= now w + 1000) (timers w) ->
      Forall (fun p => timer p = TickTimer -> due p <= now w + 1000) (timers (run_intent w i)))).
  { destruct i; cbn [run_intent intent_ok] in *; world_simpl; autorewrite with fx_rw; simpl;
      repeat split; intros; rewrite ?(count_clear_other TipTimer TickTimer) by discriminate;
      try lia; try congruence; auto with fx;
      first [apply future_add; done | apply soon_add; [discriminate|done]]. }
  destruct Hstep as (Ha' & Hn' & Htp' & Htk' & Hf' & Hs').
  rewrite Ha', Hn' in *. repeat split; try congruence.
  - intros Hc. rewrite Htk, Htk'; [done| |]; set_solver.
  - auto.
  - auto.
Qed.

(** What a handler must guarantee for the world invariant to survive it. *)
Definition handler_ok (s : App) (res : App * list Intent) : Prop :=
  timer_inv (fst res) /\
  (timer_changed s (fst res) = false -> ClearTick ∉ snd res) /\
  Forall intent_ok (snd res).

Lemma timer_changed_false o n :
  timer_changed o n = false -> timerState o = timerState n /\ timeLeft o = timeLeft n.
Proof. unfold timer_changed. by repeat case_bool_decide. Qed.

Lemma state_changed_false o n : state_changed o n = false -> timerState o = timerState n.
Proof. unfold state_changed. by case_bool_decide. Qed.

Lemma running_count_eq o n : timerState o = timerState n -> running_count o = running_count n.
Proof. unfold running_count. by intros ->. Qed.

Lemma apply_handler_inv w res :
  world_inv w -> handler_ok (app w) res -> world_inv (apply_handler res w).
Proof.
  intros [[Hi Hr] Htk Htp Hf Hs] (Hi' & Hclr & Hok). unfold apply_handler.
  destruct (run_intents_spec (with_app (fst res) w) (snd res) Hok)
    as (Ia & In & Itp & Itk & If & Is).
  apply commit_inv. constructor; rewrite ?Ia, ?In; world_simpl.
  - exact Hi'.
  - intros Hch. destruct (timer_changed_false _ _ Hch) as [Hst Htl]. split.
    + rewrite <- Hst, <- Htl. exact Hr.
    + rewrite Itk by (apply Hclr, Hch). world_simpl. rewrite Htk. by apply running_count_eq.
  - intros Hch. rewrite Itp. world_simpl. rewrite Htp. by apply running_count_eq, state_changed_false.
  - by apply If.
  - by apply Is.
Qed.

(** A handler that leaves the fields of the invariant alone keeps
    [timer_inv]. *)
Lemma timer_inv_frame s n :
  timerState n = timerState s -> timeLeft n = timeLeft s ->
  initialDuration n = initialDuration s -> selectedDestination n = selectedDestination s ->
  sessions n = sessions s ->
  timer_inv s -> timer_inv n.
Proof.
  intros E1 E2 E3 E4 E5 [] . constructor; rewrite ?E1, ?E2, ?E3, ?E4, ?E5; auto.
Qed.

(** ** The handlers keep the invariant *)

Lemma frame_handler_ok s n ints :
  timer_inv s ->
  timerState n = timerState s -> timeLeft n = timeLeft s ->
  initialDuration n = initialDuration s -> selectedDestination n = selectedDestination s ->
  sessions n = sessions s ->
  Forall intent_ok ints -> ClearTick ∉ ints ->
  handler_ok s (n, ints).
Proof.
  intros Hi E1 E2 E3 E4 E5 Hok Hc. split; [|split; [intros _; exact Hc|exact Hok]].
  by eapply timer_inv_frame.
Qed.

(** Close a [frame_handler_ok] goal for a handler that changes no field
    the invariant reads. *)
Ltac frame_ok :=
  apply frame_handler_ok;
  [ assumption | reflexivity | reflexivity | reflexivity | reflexivity | reflexivity
  | repeat constructor | set_solver ].

Lemma enabled_state st s : main_ctl st s = true -> timerState s = st.
Proof. unfold main_ctl. by case_bool_decide. Qed.

(** Intents without [ClearTick]. *)
Ltac not_in_intents :=
  repeat (apply not_elem_of_cons; split; [discriminate|]); apply not_elem_of_nil.

(** Depart opens the freestyle modal or the booking, whatever overlay is
    already open: both stay on the page's IDLE state. *)
Lemma handleDepartClick_ok s : timer_inv s -> handler_ok s (Session.handleDepartClick s).
Proof.
  intros Hi. unfold Session.handleDepartClick. destruct (Session.departValidation s); [frame_ok|].
  case_bool_decide; frame_ok.
Qed.

Lemma grid_duration_pos d :
  d ∈ Catalog.FREESTYLE_DESTINATION :: Catalog.DESTINATIONS ->
  Destination.id d <> "freestyle"%string -> 0 < Destination.durationMinutes d.
Proof.
  intros Hd Hid. apply elem_of_cons in Hd as [->|Hd]; [done|].
  pose proof Catalog.destinations_duration_pos as H. rewrite Forall_forall in H. by apply H.
Qed.

Lemma handleSelectDestination_ok d s :
  timer_inv s -> main_ctl IDLE s = true ->
  d ∈ Catalog.FREESTYLE_DESTINATION :: Catalog.DESTINATIONS ->
  handler_ok s (Session.handleSelectDestination d s).
Proof.
  intros Hi Hen Hd. apply enabled_state in Hen as Hs.
  unfold Session.handleSelectDestination. rewrite bool_decide_eq_true_2 by exact Hs.
  case_bool_decide as Hf; (split; [|split; [intros; not_in_intents|repeat constructor]]).
  - pose proof (grid_duration_pos d Hd Hf).
    destruct s; destruct Hi; constructor; app_norm; try lia; auto.
    rewrite Z_mod_mult. reflexivity.
  - destruct s; destruct Hi; constructor; app_norm; try lia; auto.
    intros Hid. by destruct (Hid Hf).
Qed.

(** Confirming the freestyle modal sets a full countdown of the chosen
    duration in whatever state the timer is: the modal may still be open
    after departure, behind the running page. *)
Lemma confirmFreestyle_ok r s res :
  timer_inv s -> Session.confirmFreestyle r s = Some res -> handler_ok s res.
Proof.
  intros Hi Hres. unfold Session.confirmFreestyle in Hres. case_bool_decide as Ht.
  - injection Hres as <-. frame_ok.
  - destruct (js_array_get _ _) as [rd|]; [|discriminate]. injection Hres as <-.
    split; [|split; [intros; not_in_intents|repeat constructor]].
    destruct s; destruct Hi; constructor; app_norm; subst; try lia; auto; try (intros; lia).
    rewrite Z_mod_mult. reflexivity.
Qed.

Lemma onTicketAnimationComplete_ok seat s :
  timer_inv s -> handler_ok s (Session.onTicketAnimationComplete seat s).
Proof.
  intros Hi. unfold Session.onTicketAnimationComplete.
  destruct (preloadedStation s); (split; [|split; [intros; not_in_intents|repeat constructor]]);
    destruct s; destruct Hi; constructor; app_norm; subst; try lia; auto; first [discriminate | intros; congruence].
Qed.

Lemma pauseSession_ok s :
  app_inv s -> main_ctl RUNNING s = true -> handler_ok s (Session.pauseSession s).
Proof.
  intros [Hi Hr] Hen. apply enabled_state in Hen as Hs. specialize (Hr Hs).
  split; [|split; [intros; not_in_intents|repeat constructor]].
  destruct s; destruct Hi; constructor; app_norm; subst; try lia; auto; first [discriminate | intros; congruence].
Qed.

Lemma resumeSession_ok s :
  timer_inv s -> main_ctl PAUSED s = true -> handler_ok s (Session.resumeSession s).
Proof.
  intros Hi Hen. apply enabled_state in Hen as Hs.
  split; [|split; [intros; not_in_intents|repeat constructor]].
  destruct s; destruct Hi; constructor; app_norm; subst; try lia; auto; first [discriminate | intros; congruence].
Qed.

Lemma abandonSession_ok s :
  timer_inv s -> main_ctl RUNNING s || main_ctl PAUSED s = true ->
  handler_ok s (Session.abandonSession s).
Proof.
  intros Hi Hen. apply orb_true_iff in Hen as [Hen|Hen]; apply enabled_state in Hen as Hs;
  unfold Session.abandonSession; destruct (confirmAbandon s); cbn [negb].
  1,3: split; [|split; [intros; not_in_intents|repeat constructor]];
       destruct s; destruct Hi; constructor; app_norm; subst; try lia; auto; first [discriminate | intros; congruence].
  all: apply frame_handler_ok; try done; try (repeat constructor; cbn; lia); not_in_intents.
Qed.

Lemma finishEarly_ok now s :
  timer_inv s -> main_ctl RUNNING s || main_ctl PAUSED s = true ->
  handler_ok s (Session.finishEarly now s).
Proof.
  intros Hi Hen.
  assert (Hs : timerState s = RUNNING \/ timerState s = PAUSED).
  { apply orb_true_iff in Hen as [Hen|Hen]; apply enabled_state in Hen as Hs; auto. }
  split; [|split].
  - apply completeSession_inv; [done|]. destruct Hs as [-> | ->]; discriminate.
  - intros Hch. exfalso. apply timer_changed_false in Hch as [Hst _].
    cbn in Hst. unfold constant in Hst. destruct Hs; congruence.
  - repeat constructor.
Qed.

Lemma resetTimer_ok s :
  timer_inv s -> main_ctl COMPLETED s = true -> handler_ok s (Session.resetTimer s).
Proof.
  intros Hi Hen. apply enabled_state in Hen as Hs.
  split; [|split; [intros; not_in_intents|repeat constructor]].
  destruct s; destruct Hi; constructor; app_norm; subst; try lia; auto; first [discriminate | intros; congruence].
Qed.

Lemma handleAddCustomLabel_ok now s :
  timer_inv s -> handler_ok s (Labels.handleAddCustomLabel now s).
Proof.
  intros Hi. unfold Labels.handleAddCustomLabel. destruct (js_truthy_string _); [|frame_ok].
  frame_ok.
Qed.

Lemma handleDeleteLabel_ok id c s : timer_inv s -> handler_ok s (Labels.handleDeleteLabel id c s).
Proof. intros Hi. unfold Labels.handleDeleteLabel. destruct c; [case_bool_decide|]; frame_ok. Qed.

Lemma openLabelEditor_ok s : timer_inv s -> handler_ok s (Labels.openLabelEditor s).
Proof. intros Hi. frame_ok. Qed.

Lemma closeLabelEditor_ok s : timer_inv s -> handler_ok s (Labels.closeLabelEditor s).
Proof. intros Hi. frame_ok. Qed.

Lemma closeFreestyleModal_ok s : timer_inv s -> handler_ok s (Session.closeFreestyleModal s).
Proof. intros Hi. frame_ok. Qed.

(** The controls that touch no field of the invariant. *)
Lemma frame_handlers_ok ev now s res :
  timer_inv s ->
  match ev with
  | SetCustomHours _ | SetCustomMinutes _ | SelectLabel _ | SelectSubLabel _ | TypeSubLabel _
  | TypeTask _ | TypeLabelName _ | PickColor _ | PickIcon _ | ToggleMusic | NextTrack | PrevTrack => True
  | _ => False
  end ->
  user_handler ev now s = Some res -> handler_ok s res.
Proof.
  intros Hi Hev Hh. destruct ev; try contradiction; cbn [user_handler] in Hh; injection Hh as <-;
    frame_ok.
Qed.

(** ** Every macrotask keeps the invariant *)

Lemma user_event_ok w ev res :
  world_inv w -> enabledb ev (app w) = true -> user_handler ev (now w) (app w) = Some res ->
  handler_ok (app w) res.
Proof.
  intros Hw Hen Hh. destruct Hw as [[Hi Hr] _ _ _ _].
  destruct ev; cbn [enabledb] in Hen;
    try (refine (frame_handlers_ok _ _ _ _ Hi _ Hh); exact I);
    cbn [user_handler] in Hh; try (injection Hh as <-);
    repeat match goal with H : _ && _ = true |- _ => apply andb_prop in H as [? ?] end.
  - by apply handleDepartClick_ok.
  - apply handleSelectDestination_ok; [done|done|]. by eapply bool_decide_eq_true_1.
  - by eapply confirmFreestyle_ok.
  - by apply closeFreestyleModal_ok.
  - by apply onTicketAnimationComplete_ok.
  - by apply pauseSession_ok.
  - by apply resumeSession_ok.
  - by apply abandonSession_ok.
  - by apply finishEarly_ok.
  - by apply resetTimer_ok.
  - by apply handleDeleteLabel_ok.
  - by apply openLabelEditor_ok.
  - by apply closeLabelEditor_ok.
  - by apply handleAddCustomLabel_ok.
Qed.

Lemma apply_update_inv w n :
  world_inv w -> timer_inv n -> world_inv (apply_update n w).
Proof.
  intros Hw Hn. change (apply_update n w) with (apply_handler (n, []) w).
  apply apply_handler_inv; [done|]. split; [done|split; [intros; apply not_elem_of_nil|constructor]].
Qed.

Lemma earliest_spec ts i p :
  earliest ts = Some (i, p) -> ts !! i = Some p /\ Forall (fun q => due p <= due q) ts.
Proof. apply earliest_by_spec. Qed.

(** The world just before a timer's callback runs: the clock at its due
    time, the timer removed and an interval rescheduled. *)
Lemma fire_pre_inv w i p :
  world_inv w -> earliest (timers w) = Some (i, p) ->
  let w0 := with_timers (delete i) (with_now (due p) w) in
  world_inv (match timer p with
             | TickTimer => add_timer 1000 TickTimer w0
             | TipTimer => add_timer 30000 TipTimer w0
             | Timeout _ => w0
             end).
Proof.
  intros [Ha Htk Htp Hf Hs] He. cbv zeta.
  destruct (earliest_spec _ _ _ He) as [Hi Hall].
  pose proof (count_timer_delete TickTimer _ _ _ Hi) as Ctk.
  pose proof (count_timer_delete TipTimer _ _ _ Hi) as Ctp.
  pose proof (Forall_lookup_1 _ _ _ _ Hf Hi) as Hnow. cbn beta in Hnow.
  assert (Hall' : Forall (fun q => due p <= due q) (delete i (timers w))) by by apply Forall_delete.
  assert (Hs' : Forall (fun q => timer q = TickTimer -> due q <= due p + 1000) (delete i (timers w))).
  { apply Forall_delete. eapply Forall_impl; [exact Hs|]. intros q Hq Ht. specialize (Hq Ht). lia. }
  destruct p as [d t]. cbn [due timer] in *.
  revert Ctk Ctp. repeat case_bool_decide; try congruence; intros Ctk Ctp;
  destruct t as [| |cb]; try discriminate; constructor; world_simpl; autorewrite with fx_rw; simpl;
  first [ exact Ha | apply future_add; [lia|done] | apply soon_add; [first [lia|discriminate]|done]
        | done | (repeat case_bool_decide; simpl in *; lia) ].
Qed.

Lemma tick_timer_running w j q : world_inv w -> timers w !! j = Some q -> timer q = TickTimer ->
  timerState (app w) = RUNNING.
Proof.
  intros [_ Htk _ _ _] Hj Hq. unfold running_count in Htk. case_bool_decide; [done|]. exfalso.
  pose proof (count_timer_delete TickTimer _ _ _ Hj) as C. rewrite Htk in C.
  rewrite bool_decide_eq_true_2 in C by done. lia.
Qed.

Lemma tick_inv s : app_inv s -> timerState s = RUNNING -> timer_inv (Session.tick s).
Proof.
  intros [Hi Hr] Hs. specialize (Hr Hs).
  destruct s; destruct Hi; constructor; app_norm; subst; try lia; auto; first [discriminate | intros; congruence].
Qed.

(** Close a [timer_inv] goal for an update of the state [H] is about that
    changes no field the invariant reads. *)
Ltac frame_inv H :=
  match type of H with
  | timer_inv ?s =>
      apply (timer_inv_frame s);
      [ reflexivity | reflexivity | reflexivity | reflexivity | reflexivity
      | exact H ]
  end.

Lemma with_now_inv w t :
  world_inv w -> now w <= t -> Forall (fun p => t <= due p) (timers w) -> world_inv (with_now t w).
Proof.
  intros [Ha Htk Htp Hf Hs] Ht Hall. constructor; world_simpl; auto.
  eapply Forall_impl; [exact Hs|]. intros q Hq Hq'. specialize (Hq Hq'). lia.
Qed.

Lemma with_inflight_inv w f : world_inv w -> world_inv (with_inflight f w).
Proof. intros []. by constructor. Qed.

Lemma initial_world_inv t0 : world_inv (initial_world t0).
Proof.
  constructor; [|reflexivity|reflexivity|constructor|constructor].
  split; [|discriminate]. constructor; cbn; try lia; try done; constructor.
Qed.

Section Reachable.
Context `{F : FlavorService}.

Lemma world_step_inv e w w' : world_inv w -> world_step e w = Some w' -> world_inv w'.
Proof.
  intros Hw Hs. destruct e as [ev|r|t|i x]; cbn [world_step] in Hs.
  - destruct (enabledb ev (app w)) eqn:Hen; [|discriminate].
    destruct (user_handler ev (now w) (app w)) as [res|] eqn:Hh; [|discriminate].
    injection Hs as <-. apply apply_handler_inv; [done|]. by eapply user_event_ok.
  - destruct (_ && _); [|discriminate].
    destruct (earliest (timers w)) as [[i p]|] eqn:He; [|discriminate].
    pose proof (fire_pre_inv w i p Hw He) as Hpre.
    destruct (earliest_spec _ _ _ He) as [Hi _].
    pose proof (wi_app _ Hw) as [Hti Hr].
    unfold fire_timer in Hs. destruct (timer p) as [| |[]] eqn:Ht.
    + injection Hs as <-. apply apply_update_inv; [exact Hpre|].
      apply tick_inv; [done|]. by eapply tick_timer_running.
    + destruct (Media.rotateTip r _) as [n|] eqn:Er; [|discriminate]. injection Hs as <-.
      apply apply_update_inv; [exact Hpre|].
      unfold Media.rotateTip in Er. destruct (js_array_get _ _); [|discriminate].
      injection Er as <-. world_simpl. frame_inv Hti.
    + injection Hs as <-. apply apply_update_inv; [exact Hpre|]. world_simpl. frame_inv Hti.
  - destruct (_ && _) eqn:Hc; [|discriminate]. injection Hs as <-.
    apply andb_prop in Hc as [H1 H2]. apply bool_decide_eq_true_1 in H1.
    apply with_now_inv; [done|done|]. apply Forall_forall. intros q Hq.
    rewrite forallb_forall in H2. apply list_elem_of_In in Hq. specialize (H2 q Hq).
    by apply bool_decide_eq_true_1 in H2.
  - destruct (inflight w !! i) as [[d|name task]|]; [| |discriminate]; injection Hs as <-;
      (apply apply_update_inv; [by apply with_inflight_inv|]); pose proof (wi_app _ Hw) as [Hti _].
    + unfold Flavor.prefetchDone. destruct (fetch _ _ x) as [[r|]|]; [|frame_inv Hti|frame_inv Hti].
      destruct (Flavor.weather_of_condition _). frame_inv Hti.
    + unfold Session.boardingFetchDone. destruct (fetch _ _ x) as [[r|]|]; frame_inv Hti.
Qed.

Lemma steps_inv w w' : rtc step w w' -> world_inv w -> world_inv w'.
Proof.
  induction 1 as [|w1 w2 w3 [e ? ? Hs] _ IH]; [done|].
  intros Hw. apply IH. by eapply world_step_inv.
Qed.

Lemma run_steps es w w' : run es w = Some w' -> rtc step w w'.
Proof.
  revert w. induction es as [|e es IH]; intros w; simpl; [by intros [= <-]|].
  destruct (world_step e w) as [w1|] eqn:Hs; [|discriminate].
  intros Hr. eapply rtc_l; [by constructor 1 with e|]. by apply IH.
Qed.

(** Every world reachable from the page opened at [t0] satisfies the invariant. *)
Lemma reachable_world_inv t0 w : reachable t0 w -> world_inv w.
Proof. intros Hr. eapply steps_inv; [exact Hr|apply initial_world_inv]. Qed.
End Reachable.

(** ** A concrete page

    Select the Work label, depart for the initial destination (Kyoto,
    25 minutes), board in seat 2B, let the awaited fetch settle with
    [null], let 301 timers fire and finish early. *)
Definition work_label : MissionLabel.t :=
  nth 1 Catalog.PRESET_LABELS (MissionLabel.mk "" "" "" None None None None).

Definition demo_events : list (@Event AnyOutcome) :=
  ([User (SelectLabel work_label); User Depart; User (TicketComplete "2B");
    @Settle AnyOutcome 1 (Resolved None)]
   ++ repeat (Fire 0) 301 ++ [User FinishEarly])%list.

Definition demo_world : World :=
  from_option id (initial_world 0) (run (F:=AnyOutcome) demo_events (initial_world 0)).

Lemma demo_reachable : reachable (F:=AnyOutcome) 0 demo_world.
Proof. apply run_steps with demo_events. vm_compute. reflexivity. Qed.

(** ** The invariant of the page, for every reachable world *)



(** C2: every reachable world satisfies the timer invariant [timer_inv]:
    the countdown stays between 0 and the planned duration, a positive whole
    number of minutes (the planned duration of the selected catalog
    destination unless it is a surprise); IDLE means a full countdown,
    PAUSED a non-zero one; the history is well formed.  Moreover a
    running countdown is never left at 0 between two macrotasks.  This
    holds with every control of the page enabled behind an open overlay,
    as keyboard focus reaches them. *)
Theorem reachable_app_inv `{FlavorService} t0 w :
  reachable t0 w ->
  timer_inv (app w) /\ (timerState (app w) = RUNNING -> 0 < timeLeft (app w)).
Proof. intros Hr. exact (wi_app _ (reachable_world_inv _ _ Hr)). Qed.

Lemma reachable_app_inv_witness :
  timer_inv (app demo_world) /\ (timerState (app demo_world) = RUNNING -> 0 < timeLeft (app demo_world)).
Proof. apply (reachable_app_inv (H:=AnyOutcome) 0). exact demo_reachable. Defined.

(** C3: exactly one countdown interval and one tip interval are registered
    while the session runs, and none otherwise; every timer is due at most
    1 s (the countdown) after the current time or later than now. *)
Theorem reachable_intervals `{FlavorService} t0 w :
  reachable t0 w ->
  count_timer TickTimer (timers w) = (if bool_decide (timerState (app w) = RUNNING) then 1 else 0)%nat /\
  count_timer TipTimer (timers w) = (if bool_decide (timerState (app w) = RUNNING) then 1 else 0)%nat /\
  Forall (fun p => now w <= due p /\ (timer p = TickTimer -> due p <= now w + 1000)) (timers w).
Proof.
  intros Hr. destruct (reachable_world_inv _ _ Hr) as [_ Htk Htp Hf Hs].
  split; [exact Htk|split; [exact Htp|]]. by apply Forall_and.
Qed.

Lemma reachable_intervals_witness :
  let w := demo_world in
  count_timer TickTimer (timers w) = (if bool_decide (timerState (app w) = RUNNING) then 1 else 0)%nat /\
  count_timer TipTimer (timers w) = (if bool_decide (timerState (app w) = RUNNING) then 1 else 0)%nat /\
  Forall (fun p => now w <= due p /\ (timer p = TickTimer -> due p <= now w + 1000)) (timers w).
Proof. apply (reachable_intervals (H:=AnyOutcome) 0). exact demo_reachable. Defined.
