(* ===== verification/Behaviour.v ===== *)
(** * What one macrotask does to the page

    Functional theorems about [Scheduler.world_step]: the state a firing
    interval, a button or a settling promise leaves, computed through the
    effects pass ([commit]).  The first lemmas say what [commit] does to
    the hooks: nothing, unless the timer effect finds a running countdown
    at 0 and records the session itself ([completes]). *)

From Stdlib Require Import ZArith QArith String Lia.
From stdpp Require Import base list strings decidable relations.
From coqutil Require Import Datatypes.RecordSetters.
From S2P Require Import Prelude JsRuntime Types Catalog AppState Session Labels Flavor Media Remote Scheduler Invariants.
Import DoubleBraceUpdate.
Import Scheduler.

Local Open Scope Z_scope.

(** The timer effect, run after a render from [o] to [n], calls
    [completeSession()]. *)
Definition completes (o n : App) : bool :=
  timer_changed o n && bool_decide (Session.timer_effect n = Session.CompleteNow).

(** The due times of the timers of kind [k], in creation order. *)
Definition dues (k : Timer) (ts : list Pending) : list Z :=
  map due (filter (fun p => timer p = k) ts).

(** No interval is registered. *)
Definition no_intervals (w : World) : Prop :=
  count_timer TickTimer (timers w) = 0%nat /\ count_timer TipTimer (timers w) = 0%nat.

(** ** The hooks after the effects pass *)

Lemma run_intents_app w ints : app (run_intents w ints) = app w /\ now (run_intents w ints) = now w.
Proof.
  unfold run_intents. revert w. induction ints as [|i ints IH]; intros w; [done|].
  cbn [fold_left]. rewrite !(proj1 (IH _)), !(proj2 (IH _)). by destruct i.
Qed.

Lemma effects_app o w :
  app (fst (effects o w)) = app w /\ now (fst (effects o w)) = now w /\
  snd (effects o w) = completes o (app w).
Proof. destruct (effects_spec o w) as (Ha & Hn & _ & _ & _ & _ & Hd). done. Qed.

Lemma commit_app o w :
  app (commit o w) =
    (if completes o (app w) then fst (Session.completeSession false (now w) (app w)) else app w) /\
  now (commit o w) = now w.
Proof.
  unfold commit. destruct (effects_app o w) as (Ha & Hn & Hd).
  destruct (effects o w) as [w1 d] eqn:E. cbn [fst snd] in *. subst d.
  destruct (completes o (app w)); [|done].
  destruct (Session.completeSession false (now w1) (app w1)) as [n' ints] eqn:Ec.
  destruct (effects_app (app w1) (run_intents (with_app n' w1) ints)) as (Ha' & Hn' & _).
  destruct (run_intents_app (with_app n' w1) ints) as [Ha2 Hn2].
  rewrite Ha', Hn', Ha2, Hn2. world_simpl. rewrite <- Ha, <- Hn, Ec. done.
Qed.

Lemma completes_false o n : ~ (timerState n = RUNNING /\ timeLeft n = 0) -> completes o n = false.
Proof.
  intros H. unfold completes. rewrite bool_decide_eq_false_2, andb_false_r; [done|].
  by rewrite timer_effect_complete.
Qed.

Lemma apply_handler_app res w :
  app (apply_handler res w) =
    (if completes (app w) (fst res) then fst (Session.completeSession false (now w) (fst res))
     else fst res) /\
  now (apply_handler res w) = now w.
Proof.
  unfold apply_handler. destruct (commit_app (app w) (run_intents (with_app (fst res) w) (snd res))) as [Ha Hn].
  destruct (run_intents_app (with_app (fst res) w) (snd res)) as [Ha2 Hn2].
  rewrite Ha, Hn, Ha2, Hn2. done.
Qed.

Lemma apply_update_app n w :
  app (apply_update n w) =
    (if completes (app w) n then fst (Session.completeSession false (now w) n) else n) /\
  now (apply_update n w) = now w.
Proof. exact (apply_handler_app (n, []) w). Qed.

(** A handler whose state is not a running countdown at 0 is not followed
    by [completeSession()]. *)
Lemma apply_handler_plain res w :
  ~ (timerState (fst res) = RUNNING /\ timeLeft (fst res) = 0) ->
  app (apply_handler res w) = fst res /\ now (apply_handler res w) = now w.
Proof. intros H. destruct (apply_handler_app res w) as [-> ->]. by rewrite completes_false. Qed.

Lemma apply_update_plain n w :
  ~ (timerState n = RUNNING /\ timeLeft n = 0) ->
  app (apply_update n w) = n /\ now (apply_update n w) = now w.
Proof. exact (apply_handler_plain (n, []) w). Qed.

(** [Math.random()] is in [0, 1). *)
Lemma fire_guard (r : Q) : (0 <= r)%Q -> (r < 1)%Q -> Qle_bool 0 r && negb (Qle_bool 1 r) = true.
Proof.
  intros H0 H1. apply andb_true_intro. split; [by apply Qle_bool_iff|].
  apply negb_true_iff. destruct (Qle_bool 1 r) eqn:E; [|done].
  apply Qle_bool_iff in E. exfalso. apply (Qlt_not_le _ _ H1 E).
Qed.

(** ** One second of the countdown *)

(** What the countdown interval does to a running session at time [t]:
    one second less, and, on the last second, the session recorded. *)
Definition countdown_second (t : Z) (s : App) : App :=
  if bool_decide (timeLeft s = 1) then fst (Session.completeSession false t (Session.tick s))
  else Session.tick s.

Lemma completes_tick s :
  timerState s = RUNNING -> completes s (Session.tick s) = bool_decide (timeLeft s = 1).
Proof.
  intros Hr. unfold completes, timer_changed.
  assert (E1 : timerState (Session.tick s) = timerState s) by reflexivity.
  assert (E2 : timeLeft (Session.tick s) = timeLeft s - 1) by reflexivity.
  rewrite E1, E2, bool_decide_eq_true_2 by done.
  rewrite (bool_decide_eq_false_2 (timeLeft s = _)) by lia.
  cbn [andb negb]. apply bool_decide_ext. rewrite timer_effect_complete, E1, E2.
  split; [intros [_ ?]; lia|intros; split; [done|lia]].
Qed.

(** The earliest timer exists whenever a timer is registered. *)
Lemma earliest_some ts : ts <> [] -> exists i p, earliest ts = Some (i, p).
Proof. apply earliest_by_some. Qed.

Lemma fire_tick_exact `{FlavorService} w i p r :
  world_inv w -> earliest (timers w) = Some (i, p) -> timer p = TickTimer ->
  (0 <= r)%Q -> (r < 1)%Q ->
  exists w', world_step (Fire r) w = Some w' /\ now w' = due p /\
             app w' = countdown_second (due p) (app w).
Proof.
  intros Hw He Ht H0 H1. cbn [world_step]. rewrite fire_guard, He by done.
  unfold fire_timer. rewrite Ht. eexists. split; [reflexivity|].
  destruct (earliest_spec _ _ _ He) as [Hi _].
  pose proof (tick_timer_running w i p Hw Hi Ht) as Hr.
  destruct (apply_update_app (Session.tick (app w))
              (add_timer 1000 TickTimer (with_timers (delete i) (with_now (due p) w)))) as [Ha Hn].
  world_simpl. rewrite Ha, Hn, completes_tick by exact Hr. unfold countdown_second. done.
Qed.

(** C7: when the earliest timer is the countdown interval, the macrotask
    that fires it exists for every value of [Math.random()], runs at the
    interval's due time, and does exactly one second of the countdown:
    [timeLeft] one less, and on the last second the session completed and
    recorded by the timer effect. *)
Theorem fire_tick_second `{FlavorService} w i p r :
  world_inv w -> earliest (timers w) = Some (i, p) -> timer p = TickTimer ->
  (0 <= r)%Q -> (r < 1)%Q ->
  exists w', world_step (Fire r) w = Some w' /\ now w' = due p /\
             app w' = countdown_second (due p) (app w).
Proof. exact (fire_tick_exact w i p r). Qed.

(** The page after boarding Kyoto with the Work label (the start of
    [demo_events]). *)
Definition demo_running : World :=
  from_option id (initial_world 0) (run (F:=AnyOutcome) (take 4 demo_events) (initial_world 0)).

Lemma demo_running_inv : world_inv demo_running.
Proof.
  apply (reachable_world_inv (F:=AnyOutcome) 0).
  apply run_steps with (take 4 demo_events). vm_compute. reflexivity.
Qed.

Lemma fire_tick_second_witness :
  exists w', world_step (F:=AnyOutcome) (Fire 0) demo_running = Some w' /\ now w' = 1000 /\
             app w' = countdown_second 1000 (app demo_running).
Proof.
  apply (fire_tick_second (H:=AnyOutcome) demo_running 0 (mkPending 1000 TickTimer) 0).
  - exact demo_running_inv.
  - vm_compute. reflexivity.
  - reflexivity.
  - vm_compute. discriminate.
  - reflexivity.
Defined.

(** ** Controls of a session under way *)

Lemma no_intervals_idle w : world_inv w -> timerState (app w) <> RUNNING -> no_intervals w.
Proof.
  intros [_ Htk Htp _ _] Hs. unfold no_intervals, running_count in *.
  rewrite bool_decide_eq_false_2 in Htk, Htp by done. done.
Qed.

(** An interval is registered only while the countdown runs. *)
Lemma interval_running w j q :
  world_inv w -> timers w !! j = Some q -> timer q = TickTimer \/ timer q = TipTimer ->
  timerState (app w) = RUNNING.
Proof.
  intros Hw Hj Hq. destruct (decide (timerState (app w) = RUNNING)) as [|Hs]; [done|].
  destruct (no_intervals_idle w Hw Hs) as [Htk Htp]. exfalso.
  destruct Hq as [Hq|Hq]; [pose proof (count_timer_delete TickTimer _ _ _ Hj) as C; rewrite Htk in C
                          |pose proof (count_timer_delete TipTimer _ _ _ Hj) as C; rewrite Htp in C];
    rewrite bool_decide_eq_true_2 in C by done; lia.
Qed.

Lemma step_user `{FlavorService} ev w w' :
  world_step (User ev) w = Some w' ->
  enabledb ev (app w) = true /\
  exists res, user_handler ev (now w) (app w) = Some res /\ w' = apply_handler res w.
Proof.
  cbn [world_step]. destruct (enabledb ev (app w)); [|discriminate].
  destruct (user_handler ev (now w) (app w)) as [res|]; [|discriminate].
  intros [= <-]. eauto.
Qed.

(** C8: finishing early records the session with the time actually spent,
    [Math.floor((initialDuration - timeLeft) / 60)] minutes, stops both
    intervals and leaves the timer COMPLETED. *)
Theorem finish_early_records `{FlavorService} w w' :
  world_inv w -> world_step (User FinishEarly) w = Some w' ->
  timerState (app w') = COMPLETED /\
  sessions (app w') = Session.newSession true (now w) (app w) :: sessions (app w) /\
  no_intervals w'.
Proof.
  intros Hw Hs. pose proof (world_step_inv _ _ _ Hw Hs) as Hw'.
  apply step_user in Hs as (_ & res & [= <-] & ->).
  destruct (apply_handler_plain (Session.finishEarly (now w) (app w)) w) as [Ha _];
    [cbn; intros [? _]; discriminate|].
  rewrite Ha. split; [reflexivity|]. split; [reflexivity|].
  apply no_intervals_idle; [done|]. rewrite Ha. discriminate.
Qed.

(** Five minutes (and ten tips) into the Kyoto session of [demo_running]:
    1200 of its 1500 seconds are left. *)
Definition demo_300s : World :=
  from_option id (initial_world 0)
    (run (F:=AnyOutcome) (take 4 demo_events ++ repeat (Fire 0) 310) (initial_world 0)).

Lemma demo_300s_inv : world_inv demo_300s.
Proof.
  apply (reachable_world_inv (F:=AnyOutcome) 0).
  apply run_steps with (take 4 demo_events ++ repeat (Fire 0) 310). vm_compute. reflexivity.
Qed.

(** Finishing 300 s into a 25-minute session records 5 minutes. *)
Lemma finish_early_records_witness :
  exists w', world_step (F:=AnyOutcome) (User FinishEarly) demo_300s = Some w' /\
    timerState (app w') = COMPLETED /\
    sessions (app w') = Session.newSession true (now demo_300s) (app demo_300s) :: sessions (app demo_300s) /\
    no_intervals w' /\
    option_map FocusSession.actualDurationMinutes (head (sessions (app w'))) = Some (Some 5).
Proof.
  destruct (world_step (F:=AnyOutcome) (User FinishEarly) demo_300s) as [w'|] eqn:E;
    [|vm_compute in E; discriminate].
  destruct (finish_early_records (H:=AnyOutcome) demo_300s w' demo_300s_inv E) as (A & B & C).
  exists w'. split; [reflexivity|]. split; [exact A|]. split; [exact B|]. split; [exact C|].
  rewrite B. vm_compute. reflexivity.
Defined.

Lemma enabled_under_way ev s :
  ev = Abandon \/ ev = FinishEarly -> enabledb ev s = true ->
  timerState s = RUNNING \/ timerState s = PAUSED.
Proof.
  intros Hev. assert (enabledb ev s = main_ctl RUNNING s || main_ctl PAUSED s) as -> by (by destruct Hev as [->| ->]).
  intros H. apply orb_prop in H as [H|H]; apply enabled_state in H; naive_solver.
Qed.

Lemma abandonSession_arms s :
  confirmAbandon s = false ->
  let n := fst (Session.abandonSession s) in
  timerState n = timerState s /\ timeLeft n = timeLeft s /\ initialDuration n = initialDuration s /\
  sessions n = sessions s /\ confirmAbandon n = true.
Proof. intros H. unfold Session.abandonSession. rewrite H. repeat split. Qed.

Lemma abandonSession_confirms s :
  confirmAbandon s = true ->
  let n := fst (Session.abandonSession s) in
  timerState n = IDLE /\ timeLeft n = initialDuration s /\ currentStation n = None /\
  sessions n = sessions s.
Proof. intros H. unfold Session.abandonSession. rewrite H. repeat split. Qed.

(** C9: two presses of the abandon button in a row (the first arms it,
    the second confirms) end the session without recording it: the timer
    is IDLE and full again, the station cleared, the history unchanged and
    no interval left. *)
Theorem abandon_two_presses `{FlavorService} w w' :
  world_inv w -> run [User Abandon; User Abandon] w = Some w' ->
  timerState (app w') = IDLE /\ timeLeft (app w') = initialDuration (app w) /\
  currentStation (app w') = None /\ sessions (app w') = sessions (app w) /\ no_intervals w'.
Proof.
  intros Hw. cbn [run].
  destruct (world_step (User Abandon) w) as [w1|] eqn:E1; [|discriminate].
  destruct (world_step (User Abandon) w1) as [w2|] eqn:E2; [|discriminate]. intros [= <-].
  pose proof (world_step_inv _ _ _ (world_step_inv _ _ _ Hw E1) E2) as Hw2.
  apply step_user in E1 as (Hen1 & res1 & [= <-] & ->).
  apply step_user in E2 as (Hen2 & res2 & [= <-] & ->).
  pose proof (enabled_under_way _ _ (or_introl eq_refl) Hen1) as Hst.
  pose proof (enabled_under_way _ _ (or_introl eq_refl) Hen2) as Hst2.
  destruct (wi_app _ Hw) as [_ Hpos].
  set (w1 := apply_handler (Session.abandonSession (app w)) w) in *.
  destruct (confirmAbandon (app w)) eqn:Ec.
  - exfalso. destruct (abandonSession_confirms _ Ec) as (Hi & _).
    destruct (apply_handler_plain (Session.abandonSession (app w)) w) as [Ha _]; [rewrite Hi; by intros []|].
    fold w1 in Ha. rewrite Ha, Hi in Hst2. by destruct Hst2.
  - destruct (abandonSession_arms _ Ec) as (A1 & A2 & A3 & A4 & A5).
    destruct (apply_handler_plain (Session.abandonSession (app w)) w) as [Ha _].
    { rewrite A1, A2. intros [Hr H0]. specialize (Hpos Hr). lia. }
    fold w1 in Ha. rewrite <- Ha in A1, A2, A3, A4, A5.
    destruct (abandonSession_confirms _ A5) as (B1 & B2 & B3 & B4).
    destruct (apply_handler_plain (Session.abandonSession (app w1)) w1) as [Hb _]; [rewrite B1; by intros []|].
    rewrite Hb, B1, B2, B3, B4, A3, A4. do 4 (split; [done|]).
    apply no_intervals_idle; [exact Hw2|]. by rewrite Hb, B1.
Qed.

Lemma abandon_two_presses_witness :
  exists w', run (F:=AnyOutcome) [User Abandon; User Abandon] demo_running = Some w' /\
    timerState (app w') = IDLE /\ timeLeft (app w') = initialDuration (app demo_running) /\
    currentStation (app w') = None /\ sessions (app w') = sessions (app demo_running) /\
    no_intervals w'.
Proof.
  destruct (run (F:=AnyOutcome) [User Abandon; User Abandon] demo_running) as [w'|] eqn:E;
    [|vm_compute in E; discriminate].
  exists w'. split; [reflexivity|].
  exact (abandon_two_presses (H:=AnyOutcome) demo_running w' demo_running_inv E).
Defined.

(** ** Nothing but a control moves a paused countdown *)

(** The updates that settle promises and the abandon timeout leave the
    countdown alone. *)
Definition keeps_countdown (n s : App) : Prop :=
  timerState n = timerState s /\ timeLeft n = timeLeft s /\ sessions n = sessions s.

Lemma prefetchDone_keeps o s : keeps_countdown (Flavor.prefetchDone o s) s.
Proof.
  unfold Flavor.prefetchDone. destruct o as [[r|]|]; [|repeat split..].
  destruct (Flavor.weather_of_condition _). repeat split.
Qed.

Lemma boardingFetchDone_keeps name o s : keeps_countdown (Session.boardingFetchDone name o s) s.
Proof. unfold Session.boardingFetchDone. destruct o as [[r|]|]; repeat split. Qed.

Lemma disarmAbandon_keeps s : keeps_countdown (Session.disarmAbandon s) s.
Proof. repeat split. Qed.

Lemma apply_update_keeps n w s :
  app w = s -> keeps_countdown n s -> timerState s <> RUNNING -> keeps_countdown (app (apply_update n w)) s.
Proof.
  intros <- (E1 & E2 & E3) Hs. destruct (apply_update_plain n w) as [-> _]; [rewrite E1; by intros []|].
  exact (conj E1 (conj E2 E3)).
Qed.

(** C10: while the session is PAUSED, no timer, no passing of time and no
    settling promise changes the timer state, the countdown or the
    history: only the controls do. *)
Theorem paused_frozen `{FlavorService} w e w' :
  world_inv w -> timerState (app w) = PAUSED -> (forall ev, e <> User ev) ->
  world_step e w = Some w' ->
  timerState (app w') = PAUSED /\ timeLeft (app w') = timeLeft (app w) /\
  sessions (app w') = sessions (app w).
Proof.
  intros Hw Hp Hu Hs. enough (keeps_countdown (app w') (app w)) as (-> & -> & ->) by done.
  assert (Hr : timerState (app w) <> RUNNING) by congruence.
  destruct e as [ev|r|t|i x]; cbn [world_step] in Hs.
  - by destruct (Hu ev).
  - destruct (_ && _); [|discriminate].
    destruct (earliest (timers w)) as [[i p]|] eqn:He; [|discriminate].
    destruct (earliest_spec _ _ _ He) as [Hi _].
    unfold fire_timer in Hs. destruct (timer p) as [| |[]] eqn:Ht.
    + by destruct Hr; apply (interval_running w i p); [..|left].
    + by destruct Hr; apply (interval_running w i p); [..|right].
    + injection Hs as <-. eapply apply_update_keeps; [reflexivity|apply disarmAbandon_keeps|done].
  - destruct (_ && _); [|discriminate]. injection Hs as <-. repeat split.
  - destruct (inflight w !! i) as [[d|name task]|]; [| |discriminate]; injection Hs as <-;
      (eapply apply_update_keeps; [reflexivity| |done]); [apply prefetchDone_keeps|apply boardingFetchDone_keeps].
Qed.

(** [demo_running] paused, with the abandon button armed: its 3 s
    timeout is the only timer. *)
Definition demo_paused : World :=
  from_option id demo_running (run (F:=AnyOutcome) [User Pause; User Abandon] demo_running).

Lemma demo_paused_inv : world_inv demo_paused.
Proof.
  apply (steps_inv (F:=AnyOutcome) demo_running); [|exact demo_running_inv].
  apply run_steps with [User Pause; User Abandon]. vm_compute. reflexivity.
Qed.

(** The abandon timeout fires on the paused session. *)
Lemma paused_frozen_witness :
  exists w', world_step (F:=AnyOutcome) (Fire 0) demo_paused = Some w' /\
    timerState (app w') = PAUSED /\ timeLeft (app w') = timeLeft (app demo_paused) /\
    sessions (app w') = sessions (app demo_paused).
Proof.
  destruct (world_step (F:=AnyOutcome) (Fire 0) demo_paused) as [w'|] eqn:E;
    [|vm_compute in E; discriminate].
  exists w'. split; [reflexivity|].
  apply (paused_frozen (H:=AnyOutcome) demo_paused (Fire 0) w' demo_paused_inv); [|discriminate|exact E].
  vm_compute. reflexivity.
Defined.

(** ** A rejected departure *)

Lemma commit_same w : commit (app w) w = w.
Proof.
  assert (E1 : fetch_effect (app w) w = w).
  { unfold fetch_effect. by rewrite (bool_decide_eq_true_2 (selectedDestination (app w) = _)). }
  assert (E2 : timer_effect_run (app w) w = (w, false)).
  { unfold timer_effect_run.
    by rewrite (bool_decide_eq_true_2 (timerState (app w) = _)), (bool_decide_eq_true_2 (timeLeft (app w) = _)). }
  assert (E3 : tip_effect (app w) w = w).
  { unfold tip_effect. by rewrite (bool_decide_eq_true_2 (timerState (app w) = _)). }
  unfold commit, effects. by rewrite E1, E2, E3.
Qed.

(** A handler that only plays sounds and shows alerts, and leaves the
    state as it found it, leaves the world as it found it. *)
Lemma apply_handler_silent w ints :
  Forall (fun i => match i with PlayClick | PlaySfx _ | Alert _ => True | _ => False end) ints ->
  apply_handler (app w, ints) w = w.
Proof.
  intros Hints. unfold apply_handler. cbn [fst snd].
  assert (E : run_intents (with_app (app w) w) ints = w).
  { unfold run_intents. replace (with_app (app w) w) with w by (by destruct w).
    induction Hints as [|i ints Hi _ IH]; [done|]. cbn [fold_left]. by destruct i. }
  rewrite E. apply commit_same.
Qed.

(** C11: when the mission is incomplete (no label, a label with sub-labels
    and none chosen, or a prompted label with a blank answer), the depart
    button changes nothing: same state, no timer, no request. *)
Theorem depart_rejected `{FlavorService} w w' msg :
  Session.departValidation (app w) = Some msg -> world_step (User Depart) w = Some w' -> w' = w.
Proof.
  intros Hv Hs. apply step_user in Hs as (_ & res & Hh & ->). cbn in Hh. injection Hh as <-.
  unfold Session.handleDepartClick. rewrite Hv. apply apply_handler_silent. repeat constructor.
Qed.

(** The Study label, which asks for a subject. *)
Definition study_label : MissionLabel.t :=
  nth 0 Catalog.PRESET_LABELS (MissionLabel.mk "" "" "" None None None None).

Definition demo_study : World :=
  from_option id (initial_world 0) (run (F:=AnyOutcome) [User (SelectLabel study_label)] (initial_world 0)).

(** Study selected without a subject: the alert asks for one and the
    page stays as it is. *)
Lemma depart_rejected_witness :
  Session.departValidation (app demo_study) = Some "Please select a subject for Study."%string /\
  world_step (F:=AnyOutcome) (User Depart) demo_study = Some demo_study.
Proof.
  assert (Hv : Session.departValidation (app demo_study) = Some "Please select a subject for Study."%string)
    by (vm_compute; reflexivity).
  split; [exact Hv|].
  destruct (world_step (F:=AnyOutcome) (User Depart) demo_study) as [w'|] eqn:E;
    [|vm_compute in E; discriminate].
  f_equal. exact (depart_rejected (H:=AnyOutcome) demo_study w' _ Hv E).
Defined.
