(* ===== verification/Liveness.v ===== *)
(** * A running session reaches its destination

    If nothing but the page's own timers happens (no click, no settling
    promise), a RUNNING session is completed and recorded, no later than
    [timeLeft] seconds from now.  The argument follows the timer queue:
    the countdown interval fires every second, the tip interval at most
    once between two of its firings, and each abandon timeout once; the
    measure [countdown_measure] decreases with every firing.  The lemmas
    before say what each kind of firing does to the queue. *)

From Stdlib Require Import ZArith QArith String Lia.
From stdpp Require Import base list strings decidable relations.
From coqutil Require Import Datatypes.RecordSetters.
From S2P Require Import Prelude JsRuntime Types Catalog AppState Session Labels Flavor Media Remote Scheduler Invariants Behaviour.
Import DoubleBraceUpdate.
Import Scheduler.

Local Open Scope Z_scope.

(** ** Due times of one kind of timer *)

Lemma dues_app k ts1 ts2 : dues k (ts1 ++ ts2) = dues k ts1 ++ dues k ts2.
Proof. unfold dues. by rewrite filter_app, map_app. Qed.

Lemma dues_single k d t : dues k [mkPending d t] = if bool_decide (t = k) then [d] else [].
Proof. unfold dues. rewrite filter_cons. cbn. by case_bool_decide; case_decide. Qed.

Lemma dues_clear_same k ts : dues k (clear_timer k ts) = [].
Proof.
  induction ts as [|p ts IH]; [done|]. rewrite clear_timer_cons.
  case_bool_decide; [exact IH|]. change (p :: clear_timer k ts) with ([p] ++ clear_timer k ts).
  rewrite dues_app, IH. destruct p. rewrite dues_single, bool_decide_eq_false_2 by done. done.
Qed.

Lemma dues_clear_other k k' ts : k <> k' -> dues k (clear_timer k' ts) = dues k ts.
Proof.
  intros Hne. unfold dues, clear_timer. rewrite list_filter_filter.
  f_equal. apply list_filter_iff. intros p. split; [naive_solver|]. intros ->. split; congruence.
Qed.

Lemma dues_length k ts : length (dues k ts) = count_timer k ts.
Proof. unfold dues, count_timer. by rewrite length_map. Qed.

Lemma dues_lookup k ts i p : ts !! i = Some p -> timer p = k -> due p ∈ dues k ts.
Proof.
  intros Hi Hp. unfold dues. apply list_elem_of_fmap. exists p. split; [done|].
  apply list_elem_of_filter. split; [done|]. by eapply list_elem_of_lookup_2.
Qed.

Lemma dues_delete_other k ts i p : ts !! i = Some p -> timer p <> k -> dues k (delete i ts) = dues k ts.
Proof.
  intros Hi Hp. rewrite <- (take_drop_middle ts i p Hi) at 2. rewrite delete_take_drop.
  rewrite !dues_app. change (p :: drop (S i) ts) with ([p] ++ drop (S i) ts).
  rewrite dues_app. destruct p as [d t]. rewrite dues_single, bool_decide_eq_false_2 by done. done.
Qed.

Lemma dues_delete_same k ts i p : ts !! i = Some p -> timer p = k -> count_timer k ts = 1%nat ->
  dues k (delete i ts) = [].
Proof.
  intros Hi Hp Hc. pose proof (count_timer_delete k _ _ _ Hi) as C.
  rewrite Hc, bool_decide_eq_true_2 in C by done.
  apply nil_length_inv. rewrite dues_length. lia.
Qed.

Lemma dues_one k ts : count_timer k ts = 1%nat -> exists d, dues k ts = [d].
Proof.
  rewrite <- dues_length. destruct (dues k ts) as [|d [|]]; simpl; [lia| |lia]. by eexists.
Qed.

(** ** The effects pass after a firing *)

Lemma fetch_effect_same o w : selectedDestination o = selectedDestination (app w) -> fetch_effect o w = w.
Proof. intros E. unfold fetch_effect. by rewrite bool_decide_eq_true_2. Qed.

Lemma tip_effect_same o w : timerState o = timerState (app w) -> tip_effect o w = w.
Proof. intros E. unfold tip_effect. by rewrite bool_decide_eq_true_2. Qed.

(** A render that changes no dependency of an effect runs none. *)
Lemma commit_quiet o w :
  selectedDestination o = selectedDestination (app w) -> timerState o = timerState (app w) ->
  timeLeft o = timeLeft (app w) -> commit o w = w.
Proof.
  intros E1 E2 E3. unfold commit, effects. rewrite fetch_effect_same by done.
  assert (timer_effect_run o w = (w, false)) as -> by (unfold timer_effect_run; by rewrite !bool_decide_eq_true_2).
  by rewrite tip_effect_same.
Qed.

(** A render that only moves the countdown restarts the interval. *)
Lemma commit_restart o w :
  selectedDestination o = selectedDestination (app w) -> timerState o = timerState (app w) ->
  timeLeft o <> timeLeft (app w) -> timerState (app w) = RUNNING -> 0 < timeLeft (app w) ->
  commit o w = add_timer 1000 TickTimer (with_timers (clear_timer TickTimer) w).
Proof.
  intros E1 E2 E3 Hr Hp. unfold commit, effects. rewrite fetch_effect_same by done.
  assert (Session.timer_effect (app w) = Session.StartInterval) as Hs by (by apply timer_effect_start).
  assert (timer_effect_run o w = (add_timer 1000 TickTimer (with_timers (clear_timer TickTimer) w), false))
    as -> by (unfold timer_effect_run; rewrite (bool_decide_eq_false_2 (timeLeft o = _)), andb_false_r by done;
              cbv zeta; by rewrite Hs).
  by rewrite tip_effect_same.
Qed.

(** ** The three kinds of firing on a running session *)

(** The history, and every field [completeSession(false)] reads, agree. *)
Definition same_trip (s s' : App) : Prop :=
  sessions s' = sessions s /\ forall t, Session.newSession false t s' = Session.newSession false t s.

Lemma same_trip_trans s1 s2 s3 : same_trip s1 s2 -> same_trip s2 s3 -> same_trip s1 s3.
Proof. intros [E1 N1] [E2 N2]. split; [congruence|]. intros t. by rewrite N2, N1. Qed.

Section Firing.
Context `{F : FlavorService}.
Variables (w : World) (i : nat) (p : Pending).
Hypothesis Hw : world_inv w.
Hypothesis Hrun : timerState (app w) = RUNNING.
Hypothesis He : earliest (timers w) = Some (i, p).

Let w0 := with_timers (delete i) (with_now (due p) w).

Lemma lookup_earliest : timers w !! i = Some p.
Proof. exact (proj1 (earliest_spec _ _ _ He)). Qed.

Lemma fire_tick_step :
  timer p = TickTimer -> 1 < timeLeft (app w) ->
  exists w', world_step (Fire 0) w = Some w' /\ app w' = Session.tick (app w) /\ now w' = due p /\
    dues TickTimer (timers w') = [due p + 1000] /\
    dues TipTimer (timers w') = dues TipTimer (timers w) /\
    count_timer (Timeout DisarmAbandon) (timers w') = count_timer (Timeout DisarmAbandon) (timers w).
Proof.
  intros Ht Hl. cbn [world_step]. rewrite fire_guard, He by (vm_compute; done).
  unfold fire_timer. rewrite Ht. eexists. split; [reflexivity|].
  unfold apply_update. rewrite commit_restart;
    [|reflexivity|reflexivity|change (timeLeft (app w) <> timeLeft (app w) - 1); lia|exact Hrun
     |change (0 < timeLeft (app w) - 1); lia].
  pose proof lookup_earliest as Hi. world_simpl.
  rewrite !dues_app, !dues_single, !bool_decide_eq_true_2, dues_clear_same by done.
  rewrite dues_clear_other, dues_app, dues_single, bool_decide_eq_false_2,
    (dues_delete_other _ _ _ _ Hi) by (rewrite ?Ht; discriminate).
  rewrite !count_timer_app, !count_timer_single, count_clear_other by discriminate.
  rewrite count_timer_app, count_timer_single, (count_timer_delete (Timeout DisarmAbandon) _ _ _ Hi).
  rewrite Ht. repeat split; repeat (rewrite bool_decide_eq_false_2 by discriminate); try lia.
  by rewrite !app_nil_r.
Qed.
Lemma fire_tip_step :
  timer p = TipTimer ->
  exists w', world_step (Fire 0) w = Some w' /\ same_trip (app w) (app w') /\
    timerState (app w') = RUNNING /\ timeLeft (app w') = timeLeft (app w) /\ now w' = due p /\
    dues TickTimer (timers w') = dues TickTimer (timers w) /\
    dues TipTimer (timers w') = [due p + 30000] /\
    count_timer (Timeout DisarmAbandon) (timers w') = count_timer (Timeout DisarmAbandon) (timers w).
Proof.
  intros Ht. cbn [world_step]. rewrite fire_guard, He by (vm_compute; done).
  unfold fire_timer. rewrite Ht.
  destruct (Media.rotateTip_some 0 (app (with_timers (delete i) (with_now (due p) w)))) as (tip & -> & _);
    [vm_compute; done..|].
  eexists. split; [reflexivity|].
  unfold apply_update. rewrite commit_quiet by reflexivity.
  pose proof lookup_earliest as Hi. destruct Hw as [_ _ Htp _ _].
  unfold running_count in Htp. rewrite bool_decide_eq_true_2 in Htp by exact Hrun.
  world_simpl. split; [split; reflexivity|]. split; [exact Hrun|]. split; [reflexivity|]. split; [reflexivity|].
  rewrite !dues_app, !dues_single, (dues_delete_other TickTimer _ _ _ Hi), (dues_delete_same TipTimer _ _ _ Hi)
    by (rewrite ?Ht; done).
  rewrite bool_decide_eq_false_2, bool_decide_eq_true_2 by done. split; [by rewrite app_nil_r|]. split; [done|].
  rewrite count_timer_app, count_timer_single, (count_timer_delete (Timeout DisarmAbandon) _ _ _ Hi), Ht.
  rewrite !bool_decide_eq_false_2 by discriminate. lia.
Qed.

Lemma fire_timeout_step :
  timer p = Timeout DisarmAbandon ->
  exists w', world_step (Fire 0) w = Some w' /\ same_trip (app w) (app w') /\
    timerState (app w') = RUNNING /\ timeLeft (app w') = timeLeft (app w) /\
    dues TickTimer (timers w') = dues TickTimer (timers w) /\
    dues TipTimer (timers w') = dues TipTimer (timers w) /\
    S (count_timer (Timeout DisarmAbandon) (timers w')) = count_timer (Timeout DisarmAbandon) (timers w).
Proof.
  intros Ht. cbn [world_step]. rewrite fire_guard, He by (vm_compute; done).
  unfold fire_timer. rewrite Ht. eexists. split; [reflexivity|].
  unfold apply_update. rewrite commit_quiet by reflexivity.
  pose proof lookup_earliest as Hi. world_simpl.
  split; [split; reflexivity|]. split; [exact Hrun|]. split; [reflexivity|].
  rewrite (dues_delete_other TickTimer _ _ _ Hi), (dues_delete_other TipTimer _ _ _ Hi) by (rewrite Ht; done).
  split; [done|]. split; [done|].
  rewrite (count_timer_delete (Timeout DisarmAbandon) _ _ _ Hi), Ht, bool_decide_eq_true_2 by done. lia.
Qed.
End Firing.

(** ** The measure *)

(** The due time of the first timer of kind [k] (0 if there is none). *)
Definition first_due (k : Timer) (ts : list Pending) : Z := hd 0 (dues k ts).

(** Two per second left, one per pending abandon timeout, and one if the
    tip interval is due no later than the countdown interval. *)
Definition countdown_measure (w : World) : nat :=
  (2 * Z.to_nat (timeLeft (app w)) + count_timer (Timeout DisarmAbandon) (timers w)
   + if bool_decide (first_due TipTimer (timers w) <= first_due TickTimer (timers w))%Z then 1 else 0)%nat.

Lemma dues_elem k ts d : d ∈ dues k ts -> exists q, q ∈ ts /\ timer q = k /\ due q = d.
Proof.
  unfold dues. intros H. change (d ∈ due <$> filter (fun p => timer p = k) ts) in H.
  apply list_elem_of_fmap in H as (q & -> & Hq). apply list_elem_of_filter in Hq as [Hk Hq]. by exists q.
Qed.

Lemma running_dues w :
  world_inv w -> timerState (app w) = RUNNING ->
  exists dT dP, dues TickTimer (timers w) = [dT] /\ dues TipTimer (timers w) = [dP] /\
                now w <= dT <= now w + 1000 /\ now w <= dP.
Proof.
  intros [_ Htk Htp Hf Hs] Hr. unfold running_count in *. rewrite bool_decide_eq_true_2 in Htk, Htp by done.
  destruct (dues_one _ _ Htk) as [dT HT]. destruct (dues_one _ _ Htp) as [dP HP].
  exists dT, dP. split; [done|]. split; [done|].
  destruct (dues_elem TickTimer (timers w) dT) as (q & Hq & Hk & <-); [rewrite HT; by left|].
  destruct (dues_elem TipTimer (timers w) dP) as (q' & Hq' & _ & <-); [rewrite HP; by left|].
  rewrite Forall_forall in Hf, Hs. pose proof (Hs q Hq Hk). pose proof (Hf q Hq). pose proof (Hf q' Hq'). lia.
Qed.

Lemma earliest_le ts i p k d : earliest ts = Some (i, p) -> d ∈ dues k ts -> due p <= d.
Proof.
  intros He Hd. destruct (earliest_spec _ _ _ He) as [_ Hall].
  destruct (dues_elem _ _ _ Hd) as (q & Hq & _ & <-). rewrite Forall_forall in Hall. by apply Hall.
Qed.

Lemma earliest_kind_due ts i p k d :
  earliest ts = Some (i, p) -> timer p = k -> dues k ts = [d] -> due p = d.
Proof.
  intros He Hk Hd. destruct (earliest_spec _ _ _ He) as [Hi _].
  pose proof (dues_lookup _ _ _ _ Hi Hk) as H. rewrite Hd in H. by apply list_elem_of_singleton in H.
Qed.

(** The arrival time the countdown interval promises: its next firing
    plus one second per second left after it. *)
Definition arrival (w : World) : Z := first_due TickTimer (timers w) + 1000 * (timeLeft (app w) - 1).

Section Progress.
Context `{F : FlavorService}.

(** One firing on a running session either completes it at [arrival], or
    keeps it running with the same trip, the same arrival and a smaller
    measure. *)
Lemma fire_progress w :
  world_inv w -> timerState (app w) = RUNNING ->
  (exists w', world_step (Fire 0) w = Some w' /\ timerState (app w') = COMPLETED /\ now w' = arrival w /\
              sessions (app w') = Session.newSession false (now w') (app w) :: sessions (app w)) \/
  (exists w1, world_step (Fire 0) w = Some w1 /\ world_inv w1 /\ timerState (app w1) = RUNNING /\
              (countdown_measure w1 < countdown_measure w)%nat /\ same_trip (app w) (app w1) /\
              arrival w1 = arrival w).
Proof.
  intros Hw Hr. destruct (running_dues w Hw Hr) as (dT & dP & HT & HP & HdT & HdP).
  pose proof (proj2 (wi_app _ Hw) Hr) as Hpos.
  destruct (earliest_some (timers w)) as (i & p & He); [intros E; rewrite E in HT; discriminate|].
  assert (HpT : due p <= dT) by (eapply earliest_le; [exact He|rewrite HT; by left]).
  assert (HpP : due p <= dP) by (eapply earliest_le; [exact He|rewrite HP; by left]).
  unfold countdown_measure, arrival, first_due. rewrite HT, HP. cbn [hd].
  destruct (timer p) as [| |[]] eqn:Ht.
  - pose proof (earliest_kind_due _ _ _ _ _ He Ht HT) as Hd.
    destruct (decide (timeLeft (app w) = 1)) as [E1|E1].
    + left. destruct (fire_tick_exact w i p 0 Hw He Ht) as (w' & Hs & Hn & Ha); [done|done|].
      exists w'. unfold countdown_second in Ha. rewrite bool_decide_eq_true_2 in Ha by done.
      rewrite Hn, Ha, E1, Hd. split; [done|]. split; [done|]. split; [lia|done].
    + right. destruct (fire_tick_step w i p Hr He Ht) as (w1 & Hs & Ha & _ & HT1 & HP1 & Hc1); [lia|].
      exists w1. rewrite HT1, HP1, Hc1, Ha, HP, Hd. cbn [hd].
      split; [done|]. split; [by eapply world_step_inv|]. split; [exact Hr|].
      assert (Etl : timeLeft (Session.tick (app w)) = timeLeft (app w) - 1) by reflexivity.
      rewrite Etl. split; [|split; [split; reflexivity|lia]].
      repeat case_bool_decide; lia.
  - pose proof (earliest_kind_due _ _ _ _ _ He Ht HP) as Hd. right.
    destruct (fire_tip_step w i p Hw Hr He Ht) as (w1 & Hs & Htrip & Hr1 & Hl & _ & HT1 & HP1 & Hc1).
    exists w1. rewrite HT1, HP1, Hc1, Hl, HT, Hd. cbn [hd].
    split; [done|]. split; [by eapply world_step_inv|]. split; [exact Hr1|].
    split; [|split; [exact Htrip|done]].
    rewrite (bool_decide_eq_false_2 (_ + 30000 <= _)), (bool_decide_eq_true_2 (_ <= dT)) by lia. lia.
  - right. destruct (fire_timeout_step w i p Hr He Ht) as (w1 & Hs & Htrip & Hr1 & Hl & HT1 & HP1 & Hc1).
    exists w1. rewrite HT1, HP1, Hl, HT, HP, <- Hc1. cbn [hd].
    split; [done|]. split; [by eapply world_step_inv|]. split; [exact Hr1|].
    split; [lia|split; [exact Htrip|done]].
Qed.
End Progress.

Section Completion.
Context `{F : FlavorService}.

Lemma countdown_run m w :
  (countdown_measure w <= m)%nat -> world_inv w -> timerState (app w) = RUNNING ->
  exists n w', (n <= countdown_measure w)%nat /\ run (repeat (Fire 0) n) w = Some w' /\
    timerState (app w') = COMPLETED /\ now w' = arrival w /\
    sessions (app w') = Session.newSession false (now w') (app w) :: sessions (app w).
Proof.
  revert w. induction m as [|m IH]; intros w Hm Hw Hr.
  - exfalso. pose proof (proj2 (wi_app _ Hw) Hr). unfold countdown_measure in Hm. lia.
  - destruct (fire_progress w Hw Hr) as [(w' & Hs & Hc & Hn & Hss)|(w1 & Hs & Hw1 & Hr1 & Hlt & [E1 E2] & Ha)].
    + exists 1%nat, w'. pose proof (proj2 (wi_app _ Hw) Hr). unfold countdown_measure.
      cbn [repeat run]. rewrite Hs. repeat split; auto. lia.
    + destruct (IH w1) as (n & w' & Hn & Hrun & Hc & Hnow & Hss); [lia|done|done|].
      exists (S n), w'. cbn [repeat run]. rewrite Hs. repeat split; auto; [lia|congruence|].
      by rewrite Hss, E1, E2.
Qed.

(** C12: with no click and no settling promise, letting the page's timers
    fire completes a running session: after at most [countdown_measure w]
    firings the timer is COMPLETED, no later than [timeLeft] seconds from
    now, and the history has gained exactly the record of this trip with
    its full planned duration. *)
Theorem countdown_completes w :
  world_inv w -> timerState (app w) = RUNNING ->
  exists n w', (n <= countdown_measure w)%nat /\ run (repeat (Fire 0) n) w = Some w' /\
    timerState (app w') = COMPLETED /\ now w' <= now w + 1000 * timeLeft (app w) /\
    sessions (app w') = Session.newSession false (now w') (app w) :: sessions (app w).
Proof.
  intros Hw Hr. destruct (countdown_run _ w (le_n _) Hw Hr) as (n & w' & Hn & Hs & Hc & Hnow & Hss).
  exists n, w'. repeat split; auto.
  destruct (running_dues w Hw Hr) as (dT & dP & HT & _ & HdT & _).
  rewrite Hnow. unfold arrival, first_due. rewrite HT. cbn [hd]. lia.
Qed.
End Completion.

(** The Kyoto session of [demo_running] arrives 25 minutes after boarding. *)
Lemma countdown_completes_witness :
  exists n w', (n <= countdown_measure demo_running)%nat /\
    run (F:=AnyOutcome) (repeat (Fire 0) n) demo_running = Some w' /\
    timerState (app w') = COMPLETED /\ now w' <= now demo_running + 1000 * timeLeft (app demo_running) /\
    sessions (app w') = Session.newSession false (now w') (app demo_running) :: sessions (app demo_running).
Proof.
  apply (countdown_completes (F:=AnyOutcome) demo_running demo_running_inv). vm_compute. reflexivity.
Defined.
