(* ===== verification/Lifecycle.v ===== *)
(** * The session life cycle of the specification, refined by the page

    The specification describes a session as a state machine over
    [IDLE], [RUNNING], [PAUSED] and [COMPLETED] with a countdown, a
    planned duration and a history (its transition table of section 4.1).
    [spec_step] is that table: choosing a destination or a freestyle
    duration while idle, departing, one tick, the tick that reaches 0 and
    records the session, pausing, resuming, finishing early, abandoning
    and booking the next journey, plus the stutter step of everything that
    leaves the session alone.  [abs] reads the abstract state off the
    hooks of [App]: the timer state, [timeLeft], [initialDuration] and,
    per recorded session, its planned and actual minutes.

    [world_step_refines] shows that every macrotask of the page
    ([Scheduler.world_step]) from a world satisfying [world_inv] is one
    step of the table or one of [overlay_step]: the overlays of the page
    do not take keyboard focus from the buttons below them, so the
    freestyle modal can stay open over a running page, and its confirm
    button (which restarts the countdown and reopens the booking) and the
    booking's boarding then act on a session that is not IDLE.  Every
    reachable page is reached by these steps from the initial page
    ([reachable_refines]); [confirm_restarts_trip] shows the restart is
    taken from every reachable page where the modal is open, and
    [board_after_arrival_records_again] that a boarding on a completed
    page at 0 records the trip a second time. *)

From Stdlib Require Import ZArith QArith String Lia.
From stdpp Require Import base list strings decidable relations.
From coqutil Require Import Datatypes.RecordSetters.
From S2P Require Import Prelude JsRuntime Types Catalog AppState Session Labels Flavor Media Remote Scheduler Invariants Behaviour.
Import DoubleBraceUpdate.
Import Scheduler.

Local Open Scope Z_scope.

Module Lifecycle.

(** The abstract state of a session. *)
Record Abs := mkAbs {
  a_state : TimerState;
  a_left : Z;
  a_initial : Z;
  a_history : list (Z * Z)   (** planned and actual minutes, newest first *)
}.

Definition record_of (x : FocusSession.t) : Z * Z :=
  (FocusSession.durationMinutes x, from_option id 0 (FocusSession.actualDurationMinutes x)).

Definition abs (s : App) : Abs :=
  mkAbs (timerState s) (timeLeft s) (initialDuration s) (record_of <$> sessions s).

(** The transition table of the specification (section 4.1). *)
Inductive spec_step : Abs -> Abs -> Prop :=
  | sp_stay a : spec_step a a
  | sp_choose l i i' h : 0 < i' -> spec_step (mkAbs IDLE l i h) (mkAbs IDLE i' i' h)
  | sp_depart i h : spec_step (mkAbs IDLE i i h) (mkAbs RUNNING i i h)
  | sp_tick l i h : 1 < l -> spec_step (mkAbs RUNNING l i h) (mkAbs RUNNING (l - 1) i h)
  | sp_expire i h : spec_step (mkAbs RUNNING 1 i h) (mkAbs COMPLETED 0 i ((i / 60, i / 60) :: h))
  | sp_pause l i h : spec_step (mkAbs RUNNING l i h) (mkAbs PAUSED l i h)
  | sp_resume l i h : spec_step (mkAbs PAUSED l i h) (mkAbs RUNNING l i h)
  | sp_finish st l i h : st = RUNNING \/ st = PAUSED ->
      spec_step (mkAbs st l i h) (mkAbs COMPLETED l i ((i / 60, (i - l) / 60) :: h))
  | sp_abandon st l i h : st = RUNNING \/ st = PAUSED -> spec_step (mkAbs st l i h) (mkAbs IDLE i i h)
  | sp_reset l i h : spec_step (mkAbs COMPLETED l i h) (mkAbs IDLE i i h).

(** The steps the table does not have.  The overlays ([fixed inset-0])
    only cover the page: keyboard focus reaches its buttons, so Depart can
    open the booking over the freestyle modal, boarding then leaves that
    modal open over a running page, and its confirm button (which also
    reopens the booking) works in any timer state. *)
Inductive overlay_step : Abs -> Abs -> Prop :=
  | ov_restart st l i i' h : st <> IDLE -> 0 < i' -> overlay_step (mkAbs st l i h) (mkAbs st i' i' h)
  | ov_board l i h : 0 < l -> overlay_step (mkAbs COMPLETED l i h) (mkAbs RUNNING l i h)
  | ov_board_expired i h : overlay_step (mkAbs COMPLETED 0 i h) (mkAbs COMPLETED 0 i ((i / 60, i / 60) :: h)).

(** The controls of an open overlay that move the session. *)
Definition overlay_control (ev : UserEvent) (s : App) : Prop :=
  match ev with
  | ConfirmFreestyle _ => showFreestyleModal s = true
  | TicketComplete _ => isBooking s = true
  | _ => False
  end.

Definition behind_overlay {F : FlavorService} (e : Event) (s : App) : Prop :=
  match e with User ev => overlay_control ev s | _ => False end.

(** ** Updates that leave the session alone *)

Lemma abs_eq_fields n s :
  abs n = abs s -> timerState n = timerState s /\ timeLeft n = timeLeft s.
Proof. intros E. split; [exact (f_equal a_state E)|exact (f_equal a_left E)]. Qed.

Lemma apply_handler_same res w :
  app_inv (app w) -> abs (fst res) = abs (app w) -> abs (app (apply_handler res w)) = abs (app w).
Proof.
  intros [_ Hr] E. destruct (abs_eq_fields _ _ E) as [E1 E2].
  destruct (apply_handler_plain res w) as [-> _]; [|exact E].
  rewrite E1, E2. intros [H1 H2]. specialize (Hr H1). lia.
Qed.

Lemma apply_update_same n w :
  app_inv (app w) -> abs n = abs (app w) -> abs (app (apply_update n w)) = abs (app w).
Proof. exact (apply_handler_same (n, []) w). Qed.

(** A handler that leaves the session alone. *)
Lemma frame_spec n s :
  app_inv s -> abs n = abs s -> spec_step (abs s) (abs n) /\ (timerState n = RUNNING -> 0 < timeLeft n).
Proof.
  intros [_ Hr] E. rewrite E. split; [apply sp_stay|]. destruct (abs_eq_fields _ _ E) as [-> ->]. exact Hr.
Qed.

(** ** The handlers that move the session *)

Lemma abs_unfold s : abs s = mkAbs (timerState s) (timeLeft s) (initialDuration s) (record_of <$> sessions s).
Proof. reflexivity. Qed.

Lemma board_abs seat s :
  let n := fst (Session.onTicketAnimationComplete seat s) in
  abs n = mkAbs RUNNING (timeLeft s) (initialDuration s) (record_of <$> sessions s) /\
  timerState n = RUNNING /\ timeLeft n = timeLeft s /\ initialDuration n = initialDuration s /\
  sessions n = sessions s.
Proof. unfold Session.onTicketAnimationComplete. by destruct (preloadedStation s). Qed.

(** Boarding a completed page whose countdown is at 0 makes the timer
    effect call [completeSession()] again. *)
Lemma board_completes seat s :
  timerState s = COMPLETED -> timeLeft s = 0 -> completes s (fst (Session.onTicketAnimationComplete seat s)) = true.
Proof.
  intros Hs H0. destruct (board_abs seat s) as (_ & B2 & B3 & _).
  unfold completes. apply andb_true_intro. split.
  - unfold timer_changed. rewrite B2, Hs, (bool_decide_eq_false_2 (COMPLETED = RUNNING)) by discriminate.
    reflexivity.
  - apply bool_decide_eq_true_2, timer_effect_complete. by rewrite B2, B3.
Qed.

(** Boarding ([onTicketAnimationComplete]) and the effects it triggers:
    departure from IDLE; from a state that is not IDLE (a booking reopened
    by the freestyle modal behind the page) it keeps a running countdown,
    resumes a paused one, restarts a completed one, or, at 0, records the
    completed session a second time. *)
Lemma board_spec seat w :
  app_inv (app w) ->
  let w' := apply_handler (Session.onTicketAnimationComplete seat (app w)) w in
  spec_step (abs (app w)) (abs (app w')) \/
  (timerState (app w) <> IDLE /\ overlay_step (abs (app w)) (abs (app w'))).
Proof.
  intros [Hi Hr]. cbv zeta. destruct (board_abs seat (app w)) as (B1 & B2 & B3 & B4 & B5).
  destruct (apply_handler_app (Session.onTicketAnimationComplete seat (app w)) w) as [Ha _].
  rewrite Ha. rewrite (abs_unfold (app w)).
  destruct (decide (timerState (app w) = COMPLETED /\ timeLeft (app w) = 0)) as [[Hs H0]|Hn].
  - rewrite (board_completes seat (app w) Hs H0). right. rewrite Hs, H0. split; [discriminate|].
    change (abs (fst (Session.completeSession false (now w) (fst (Session.onTicketAnimationComplete seat (app w))))))
      with (mkAbs COMPLETED (timeLeft (fst (Session.onTicketAnimationComplete seat (app w))))
              (initialDuration (fst (Session.onTicketAnimationComplete seat (app w))))
              (record_of (Session.newSession false (now w) (fst (Session.onTicketAnimationComplete seat (app w))))
               :: (record_of <$> sessions (fst (Session.onTicketAnimationComplete seat (app w)))))).
    rewrite B3, B4, B5, H0. unfold record_of. cbn. rewrite B4. apply ov_board_expired.
  - assert (Hp : 0 < timeLeft (app w)).
    { pose proof (ti_left_nonneg _ Hi). destruct (timerState (app w)) eqn:Es.
      - rewrite (ti_idle _ Hi Es). exact (ti_init_pos _ Hi).
      - by apply Hr.
      - by apply (ti_paused _ Hi).
      - destruct (decide (timeLeft (app w) = 0)); [by destruct Hn|lia]. }
    rewrite completes_false by (rewrite B3; lia). rewrite B1.
    destruct (timerState (app w)) eqn:Es.
    + left. rewrite (ti_idle _ Hi Es). apply sp_depart.
    + left. apply sp_stay.
    + left. apply sp_resume.
    + right. split; [discriminate|]. by apply ov_board.
Qed.

Lemma choose_spec s n :
  timerState s = IDLE -> timerState n = IDLE -> sessions n = sessions s ->
  timeLeft n = initialDuration n -> 0 < initialDuration n ->
  spec_step (abs s) (abs n) /\ (timerState n = RUNNING -> 0 < timeLeft n).
Proof.
  intros Hs Hn Hh El Hp. rewrite !abs_unfold, Hs, Hn, Hh, El. split; [by apply sp_choose|discriminate].
Qed.

Lemma pause_spec s :
  timerState s = RUNNING ->
  spec_step (abs s) (abs (fst (Session.pauseSession s))) /\
  (timerState (fst (Session.pauseSession s)) = RUNNING -> 0 < timeLeft (fst (Session.pauseSession s))).
Proof.
  intros Hs. change (abs (fst (Session.pauseSession s)))
    with (mkAbs PAUSED (timeLeft s) (initialDuration s) (record_of <$> sessions s)).
  rewrite abs_unfold, Hs. split; [apply sp_pause|discriminate].
Qed.

Lemma resume_spec s :
  timer_inv s -> timerState s = PAUSED ->
  spec_step (abs s) (abs (fst (Session.resumeSession s))) /\
  (timerState (fst (Session.resumeSession s)) = RUNNING -> 0 < timeLeft (fst (Session.resumeSession s))).
Proof.
  intros Hi Hs. pose proof (ti_paused _ Hi Hs).
  change (abs (fst (Session.resumeSession s)))
    with (mkAbs RUNNING (timeLeft s) (initialDuration s) (record_of <$> sessions s)).
  change (timeLeft (fst (Session.resumeSession s))) with (timeLeft s).
  rewrite abs_unfold, Hs. split; [apply sp_resume|intros _; lia].
Qed.

Lemma finish_spec t s :
  timerState s = RUNNING \/ timerState s = PAUSED ->
  spec_step (abs s) (abs (fst (Session.finishEarly t s))) /\
  (timerState (fst (Session.finishEarly t s)) = RUNNING -> 0 < timeLeft (fst (Session.finishEarly t s))).
Proof.
  intros Hs. change (abs (fst (Session.finishEarly t s)))
    with (mkAbs COMPLETED (timeLeft s) (initialDuration s)
            ((initialDuration s / 60, (initialDuration s - timeLeft s) / 60) :: (record_of <$> sessions s))).
  rewrite abs_unfold. split; [by apply sp_finish|discriminate].
Qed.

Lemma abandon_spec s :
  app_inv s -> timerState s = RUNNING \/ timerState s = PAUSED ->
  spec_step (abs s) (abs (fst (Session.abandonSession s))) /\
  (timerState (fst (Session.abandonSession s)) = RUNNING -> 0 < timeLeft (fst (Session.abandonSession s))).
Proof.
  intros Hi Hs. destruct (confirmAbandon s) eqn:Ec.
  - assert (B : abs (fst (Session.abandonSession s)) =
                mkAbs IDLE (initialDuration s) (initialDuration s) (record_of <$> sessions s))
      by (unfold Session.abandonSession; rewrite Ec; reflexivity).
    assert (B2 : timerState (fst (Session.abandonSession s)) = IDLE)
      by (unfold Session.abandonSession; rewrite Ec; reflexivity).
    rewrite B, B2, abs_unfold. split; [by apply sp_abandon|discriminate].
  - apply frame_spec; [exact Hi|]. unfold Session.abandonSession. rewrite Ec. reflexivity.
Qed.

Lemma reset_spec s :
  timerState s = COMPLETED ->
  spec_step (abs s) (abs (fst (Session.resetTimer s))) /\
  (timerState (fst (Session.resetTimer s)) = RUNNING -> 0 < timeLeft (fst (Session.resetTimer s))).
Proof.
  intros Hs. change (abs (fst (Session.resetTimer s)))
    with (mkAbs IDLE (initialDuration s) (initialDuration s) (record_of <$> sessions s)).
  rewrite abs_unfold, Hs. split; [apply sp_reset|discriminate].
Qed.

Lemma select_spec d s :
  app_inv s -> main_ctl IDLE s = true -> d ∈ Catalog.FREESTYLE_DESTINATION :: Catalog.DESTINATIONS ->
  spec_step (abs s) (abs (fst (Session.handleSelectDestination d s))) /\
  (timerState (fst (Session.handleSelectDestination d s)) = RUNNING ->
   0 < timeLeft (fst (Session.handleSelectDestination d s))).
Proof.
  intros Hi Hen Hd. apply enabled_state in Hen as Hs.
  unfold Session.handleSelectDestination. rewrite bool_decide_eq_true_2 by exact Hs.
  case_bool_decide as Hf.
  - pose proof (grid_duration_pos d Hd Hf). apply choose_spec; [exact Hs|exact Hs|reflexivity|reflexivity|].
    change (0 < Destination.durationMinutes d * 60). lia.
  - by apply frame_spec.
Qed.

(** Confirming the freestyle modal: choosing a duration while IDLE, a
    restart of the countdown in any other state. *)
Lemma confirm_spec r s res :
  app_inv s -> showFreestyleModal s = true -> Session.confirmFreestyle r s = Some res ->
  (spec_step (abs s) (abs (fst res)) \/
   (overlay_control (ConfirmFreestyle r) s /\ timerState s <> IDLE /\
    overlay_step (abs s) (abs (fst res)))) /\
  (timerState (fst res) = RUNNING -> 0 < timeLeft (fst res)).
Proof.
  intros Hi Hf Hres. unfold Session.confirmFreestyle in Hres. case_bool_decide as Ht.
  - injection Hres as <-. destruct (frame_spec s s Hi eq_refl). auto.
  - destruct (js_array_get _ _) as [rd|]; [|discriminate]. injection Hres as <-.
    set (i' := (customHours s * 60 + customMinutes s) * 60).
    assert (Hp : 0 < i') by (unfold i'; lia).
    change (abs (fst _)) with (mkAbs (timerState s) i' i' (record_of <$> sessions s)).
    split; [|intros _; exact Hp]. rewrite abs_unfold.
    destruct (decide (timerState s = IDLE)) as [Hs|Hs].
    + left. rewrite Hs. by apply sp_choose.
    + right. split; [exact Hf|]. split; [exact Hs|]. by apply ov_restart.
Qed.

(** The handlers that leave the session alone. *)
Ltac abs_frame Hi :=
  apply (frame_spec _ _ Hi);
  unfold Session.handleDepartClick, Session.setCustomHours, Session.setCustomMinutes,
    Session.closeFreestyleModal, Labels.selectLabel, Labels.handleDeleteLabel, Labels.selectSubLabel,
    Labels.typeSubLabel, Labels.typeTask, Labels.openLabelEditor, Labels.closeLabelEditor,
    Labels.typeLabelName, Labels.pickColor, Labels.pickIcon, Labels.handleAddCustomLabel,
    Media.toggleMusic, Media.nextTrack, Media.prevTrack;
  repeat case_match; reflexivity.

Lemma spec_left (a b : Abs) (P Q : Prop) : spec_step a b /\ P -> (spec_step a b \/ Q) /\ P.
Proof. tauto. Qed.

(** Every control but boarding: a step of the table, or a restart by the
    freestyle modal behind a page that is not IDLE. *)
Lemma user_spec ev t s res :
  app_inv s -> enabledb ev s = true -> user_handler ev t s = Some res ->
  (forall seat, ev <> TicketComplete seat) ->
  (spec_step (abs s) (abs (fst res)) \/
   (overlay_control ev s /\ timerState s <> IDLE /\ overlay_step (abs s) (abs (fst res)))) /\
  (timerState (fst res) = RUNNING -> 0 < timeLeft (fst res)).
Proof.
  intros Hi. destruct ev; cbn [user_handler enabledb]; intros Hen Hh Hnt; try (injection Hh as <-).
  all: lazymatch goal with
  | H : Session.confirmFreestyle _ _ = Some _ |- _ =>
      apply andb_prop in Hen as [Hen _]; apply andb_prop in Hen as [Hf _]; by eapply confirm_spec
  | |- context [Session.onTicketAnimationComplete] => by destruct (Hnt seat)
  | _ => apply spec_left
  end.
  all: lazymatch goal with
  | |- context [Session.handleSelectDestination] =>
      apply andb_prop in Hen as [He Hd]; apply bool_decide_eq_true_1 in Hd; by apply select_spec
  | |- context [Session.pauseSession] => apply enabled_state in Hen as Hs; by apply pause_spec
  | |- context [Session.resumeSession] =>
      apply enabled_state in Hen as Hs; apply resume_spec; [exact (proj1 Hi)|exact Hs]
  | |- context [Session.abandonSession] =>
      pose proof (enabled_under_way Abandon s (or_introl eq_refl) Hen) as Hs; by apply abandon_spec
  | |- context [Session.finishEarly] =>
      pose proof (enabled_under_way FinishEarly s (or_intror eq_refl) Hen) as Hs; by apply finish_spec
  | |- context [Session.resetTimer] => apply enabled_state in Hen as Hs; by apply reset_spec
  | _ => abs_frame Hi
  end.
Qed.

(** One second of a running countdown is a tick, or, on the last second,
    the expiry that records the session. *)
Lemma countdown_spec t s :
  app_inv s -> timerState s = RUNNING -> spec_step (abs s) (abs (countdown_second t s)).
Proof.
  intros [_ Hr] Hs. specialize (Hr Hs). unfold countdown_second. rewrite (abs_unfold s), Hs.
  case_bool_decide as E.
  - assert (A : abs (fst (Session.completeSession false t (Session.tick s))) =
                mkAbs COMPLETED (timeLeft s - 1) (initialDuration s)
                  ((initialDuration s / 60, initialDuration s / 60) :: (record_of <$> sessions s)))
      by reflexivity.
    rewrite A, E. apply sp_expire.
  - assert (A : abs (Session.tick s) = mkAbs (timerState s) (timeLeft s - 1) (initialDuration s) (record_of <$> sessions s))
      by reflexivity.
    rewrite A, Hs. apply sp_tick. lia.
Qed.

Lemma prefetchDone_abs o s : abs (Flavor.prefetchDone o s) = abs s.
Proof. unfold Flavor.prefetchDone. repeat case_match; reflexivity. Qed.

Lemma boardingFetchDone_abs name o s : abs (Session.boardingFetchDone name o s) = abs s.
Proof. unfold Session.boardingFetchDone. repeat case_match; reflexivity. Qed.

Lemma rotateTip_abs r s n : Media.rotateTip r s = Some n -> abs n = abs s.
Proof. unfold Media.rotateTip. case_match; [|discriminate]. intros [= <-]. reflexivity. Qed.

Section Refinement.
Context `{F : FlavorService}.

(** Every macrotask of the page is a step of the specification's table. *)
Lemma world_step_refines e w w' :
  world_inv w -> world_step e w = Some w' ->
  spec_step (abs (app w)) (abs (app w')) \/
  (behind_overlay e (app w) /\ timerState (app w) <> IDLE /\ overlay_step (abs (app w)) (abs (app w'))).
Proof.
  intros Hw Hs. pose proof (wi_app _ Hw) as Hi. destruct e as [ev|r|t|i x]; cbn [behind_overlay].
  - apply step_user in Hs as (Hen & res & Hh & ->).
    assert (Hc : (exists seat, ev = TicketComplete seat) \/ forall seat, ev <> TicketComplete seat)
      by (destruct ev; first [by left; eauto | right; intros ? [=]]).
    destruct Hc as [[seat ->]|Hnt].
    + cbn [user_handler enabledb] in Hh, Hen. injection Hh as <-. apply andb_prop in Hen as [Hb _].
      destruct (board_spec seat w Hi) as [?|[? ?]]; [by left|right]. done.
    + destruct (user_spec _ _ _ _ Hi Hen Hh Hnt) as [Hsp Hpos].
      destruct (apply_handler_plain res w) as [-> _]; [|exact Hsp].
      intros [H1 H2]. specialize (Hpos H1). lia.
  - left. assert (Hg : Qle_bool 0 r && negb (Qle_bool 1 r) = true)
      by (cbn [world_step] in Hs; destruct (_ && _); [done|discriminate]).
    apply andb_prop in Hg as [H0 H1]. apply Qle_bool_iff in H0. apply negb_true_iff in H1.
    assert (H1' : (r < 1)%Q).
    { apply Qnot_le_lt. intros Hle. apply Qle_bool_iff in Hle. congruence. }
    destruct (earliest (timers w)) as [[j p]|] eqn:He;
      [|cbn [world_step] in Hs; rewrite He, andb_true_intro in Hs; [discriminate|split; [by apply Qle_bool_iff|]];
        by apply negb_true_iff].
    destruct (earliest_spec _ _ _ He) as [Hj _].
    destruct (timer p) as [| |[]] eqn:Ht.
    + destruct (fire_tick_exact w j p r Hw He Ht H0 H1') as (w'' & Hs' & _ & Ha).
      rewrite Hs in Hs'. injection Hs' as ->. rewrite Ha.
      apply countdown_spec; [exact Hi|]. exact (tick_timer_running w j p Hw Hj Ht).
    + cbn [world_step] in Hs. rewrite He in Hs. rewrite andb_true_intro in Hs;
        [|split; [by apply Qle_bool_iff|by apply negb_true_iff]].
      unfold fire_timer in Hs. rewrite Ht in Hs. destruct (Media.rotateTip r _) as [n|] eqn:Hn; [|discriminate].
      injection Hs as <-. rewrite apply_update_same; [apply sp_stay|exact Hi|]. exact (rotateTip_abs _ _ _ Hn).
    + cbn [world_step] in Hs. rewrite He in Hs. rewrite andb_true_intro in Hs;
        [|split; [by apply Qle_bool_iff|by apply negb_true_iff]].
      unfold fire_timer in Hs. rewrite Ht in Hs. injection Hs as <-.
      rewrite apply_update_same; [apply sp_stay|exact Hi|reflexivity].
  - left. cbn [world_step] in Hs. destruct (_ && _); [|discriminate]. injection Hs as <-. apply sp_stay.
  - left. cbn [world_step] in Hs. destruct (inflight w !! i) as [[d|name task]|]; [| |discriminate];
      injection Hs as <-; (rewrite apply_update_same; [apply sp_stay|exact Hi|]);
      [apply prefetchDone_abs|apply boardingFetchDone_abs].
Qed.

(** A step of the page read through [abs]. *)
Definition page_spec_step (a b : Abs) : Prop := spec_step a b \/ overlay_step a b.

Lemma steps_refine w w' : rtc step w w' -> world_inv w -> rtc page_spec_step (abs (app w)) (abs (app w')).
Proof.
  induction 1 as [|w1 w2 w3 Hst _ IH]; intros Hw; [constructor|]. inversion Hst as [e ? ? Hs]; subst.
  eapply rtc_l; [|apply IH; exact (world_step_inv _ _ _ Hw Hs)].
  destruct (world_step_refines e w1 w2 Hw Hs) as [?|(_ & _ & ?)]; [left|right]; done.
Qed.
End Refinement.

(** Confirming a positive freestyle duration never fails. *)
Lemma confirm_fields r s :
  (0 <= r)%Q -> (r < 1)%Q -> 0 < customHours s * 60 + customMinutes s ->
  exists s', Session.confirmFreestyle r s = Some (s', [PlayClick]) /\
    timerState s' = timerState s /\ timeLeft s' = (customHours s * 60 + customMinutes s) * 60 /\
    initialDuration s' = timeLeft s' /\ isBooking s' = true /\ sessions s' = sessions s.
Proof.
  intros H0 H1 Ht. unfold Session.confirmFreestyle. rewrite bool_decide_eq_false_2 by lia.
  destruct (Session.freestyle_pool_spec (selectedDestination s)) as (Hne & _ & _).
  destruct (js_random_pick _ r H0 H1 Hne) as (d & -> & _). eexists. split; [reflexivity|]. done.
Qed.

(** A restart of the countdown that keeps the timer state is no step of
    the table, unless it leaves the countdown as it was. *)
Lemma restart_not_spec st l i i' h :
  st <> IDLE -> l <= i -> l <> i' -> ~ spec_step (mkAbs st l i h) (mkAbs st i' i' h).
Proof.
  intros Hst Hle Hne Hs. inversion Hs; subst; try congruence; try lia.
  all: match goal with H : _ \/ _ |- _ => destruct H; congruence end.
Qed.

(** C4: the page refines the specification's session state machine, up
    to the steps of an overlay left open over it: every macrotask from a
    reachable world is a step of the transition table of section 4.1,
    read off through [abs] (timer state, countdown, planned duration and
    the planned and actual minutes of the recorded sessions), or a step
    of [overlay_step] run by the freestyle modal's confirm button or the
    ticket's boarding on a page that is not IDLE; so every reachable
    world is reached from the initial page by such steps. *)
Theorem reachable_refines `{FlavorService} t0 w :
  reachable t0 w ->
  rtc page_spec_step (abs initial_app) (abs (app w)) /\
  (forall e w', world_step e w = Some w' ->
     spec_step (abs (app w)) (abs (app w')) \/
     (behind_overlay e (app w) /\ timerState (app w) <> IDLE /\ overlay_step (abs (app w)) (abs (app w')))).
Proof.
  intros Hr. split; [exact (steps_refine _ _ Hr (initial_world_inv t0))|].
  intros e w' Hs. exact (world_step_refines e w w' (reachable_world_inv _ _ Hr) Hs).
Qed.

Lemma reachable_refines_witness :
  rtc page_spec_step (abs initial_app) (abs (app demo_world)) /\
  (forall e w', world_step (F:=AnyOutcome) e demo_world = Some w' ->
     spec_step (abs (app demo_world)) (abs (app w')) \/
     (behind_overlay e (app demo_world) /\ timerState (app demo_world) <> IDLE /\
      overlay_step (abs (app demo_world)) (abs (app w')))).
Proof. apply (reachable_refines (H:=AnyOutcome) 0). exact demo_reachable. Defined.

(** With the freestyle modal open (Depart on the freestyle card), the
    user tabs back to Kyoto's card and to Depart, and boards: the
    countdown runs with the freestyle modal still open. *)
Definition overlay_events : list (@Event AnyOutcome) :=
  [User (SelectLabel work_label); User (SelectDestination Catalog.FREESTYLE_DESTINATION); User Depart;
   User (SelectDestination Catalog.INITIAL_DESTINATION); User Depart; User (TicketComplete "1A")].

Definition overlay_world : World :=
  from_option id (initial_world 0) (run (F:=AnyOutcome) overlay_events (initial_world 0)).

Lemma overlay_reachable : reachable (F:=AnyOutcome) 0 overlay_world.
Proof. apply run_steps with overlay_events. vm_compute. reflexivity. Qed.

(** C5 (a finding): the freestyle modal's confirm button works behind a page that
    is no longer IDLE: in every reachable world where it is open and a
    positive duration is set, it succeeds for every [Math.random()] value,
    keeps the timer state, sets the countdown and the planned duration to
    the freestyle duration, reopens the booking and records nothing; when
    this changes the countdown, the step is none of the specification's
    table (section 4.1 has no transition that restarts a running, paused
    or completed session). *)
Theorem confirm_restarts_trip `{FlavorService} t0 w r :
  reachable t0 w -> showFreestyleModal (app w) = true -> timerState (app w) <> IDLE ->
  (0 <= r)%Q -> (r < 1)%Q -> 0 < customHours (app w) * 60 + customMinutes (app w) ->
  exists w', world_step (User (ConfirmFreestyle r)) w = Some w' /\
    timerState (app w') = timerState (app w) /\
    timeLeft (app w') = (customHours (app w) * 60 + customMinutes (app w)) * 60 /\
    initialDuration (app w') = timeLeft (app w') /\ isBooking (app w') = true /\
    sessions (app w') = sessions (app w) /\
    (timeLeft (app w) <> timeLeft (app w') -> ~ spec_step (abs (app w)) (abs (app w'))).
Proof.
  intros Hr Hf Hs H0 H1 Ht. pose proof (ti_left_le _ (proj1 (wi_app _ (reachable_world_inv _ _ Hr)))) as Hle.
  destruct (confirm_fields r (app w) H0 H1 Ht) as (s' & Hc & E1 & E2 & E3 & E4 & E5).
  assert (Hw : app (apply_handler (s', [PlayClick]) w) = s').
  { apply apply_handler_plain. cbn [fst]. lia. }
  exists (apply_handler (s', [PlayClick]) w). split.
  { cbn [world_step enabledb user_handler]. rewrite Hf, andb_true_l, (fire_guard r H0 H1), Hc. reflexivity. }
  rewrite Hw. do 5 (split; [done|]). intros Hne.
  rewrite (abs_unfold (app w)), (abs_unfold s'), E1, E3, E5. by apply restart_not_spec.
Qed.

Lemma confirm_restarts_trip_witness :
  timerState (app overlay_world) = RUNNING /\ showFreestyleModal (app overlay_world) = true /\
  exists w', world_step (F:=AnyOutcome) (User (ConfirmFreestyle 0)) overlay_world = Some w' /\
    timerState (app w') = timerState (app overlay_world) /\
    timeLeft (app w') = (customHours (app overlay_world) * 60 + customMinutes (app overlay_world)) * 60 /\
    initialDuration (app w') = timeLeft (app w') /\ isBooking (app w') = true /\
    sessions (app w') = sessions (app overlay_world) /\
    (timeLeft (app overlay_world) <> timeLeft (app w') -> ~ spec_step (abs (app overlay_world)) (abs (app w'))).
Proof.
  split; [vm_compute; reflexivity|]. split; [vm_compute; reflexivity|].
  apply (confirm_restarts_trip (H:=AnyOutcome) 0); [exact overlay_reachable|vm_compute; reflexivity|
    vm_compute; discriminate|vm_compute; discriminate|reflexivity|vm_compute; reflexivity].
Defined.

(** C6 (a finding): boarding a completed page whose countdown is at 0
    records the trip again.  The booking is open over such a page when the
    freestyle modal's confirm reopened it behind the running page and the
    countdown ended before boarding.  [onTicketAnimationComplete] sets the
    timer RUNNING at 0, so the timer effect calls [completeSession()] at
    once: the page is COMPLETED again and the history gains a second,
    full-length record of the selected destination. *)
Theorem board_after_arrival_records_again `{FlavorService} w seat :
  isBooking (app w) = true -> timerState (app w) = COMPLETED -> timeLeft (app w) = 0 -> seat ∈ SEATS ->
  exists w' x, world_step (User (TicketComplete seat)) w = Some w' /\
    timerState (app w') = COMPLETED /\ sessions (app w') = x :: sessions (app w) /\
    FocusSession.durationMinutes x = initialDuration (app w) / 60 /\
    FocusSession.actualDurationMinutes x = Some (initialDuration (app w) / 60) /\
    FocusSession.destination x = Some (selectedDestination (app w)).
Proof.
  intros Hb Hs H0 Hseat. destruct (board_abs seat (app w)) as (_ & _ & _ & B4 & B5).
  exists (apply_handler (Session.onTicketAnimationComplete seat (app w)) w).
  exists (Session.newSession false (now w) (fst (Session.onTicketAnimationComplete seat (app w)))).
  split.
  { cbn [world_step enabledb user_handler]. rewrite Hb, bool_decide_eq_true_2 by exact Hseat. reflexivity. }
  destruct (apply_handler_app (Session.onTicketAnimationComplete seat (app w)) w) as [Ha _].
  rewrite Ha, (board_completes seat (app w) Hs H0).
  set (n := fst (Session.onTicketAnimationComplete seat (app w))) in *.
  change (sessions (fst (Session.completeSession false (now w) n))) with (Session.newSession false (now w) n :: sessions n).
  change (FocusSession.durationMinutes (Session.newSession false (now w) n)) with (initialDuration n / 60).
  change (FocusSession.actualDurationMinutes (Session.newSession false (now w) n)) with (Some (initialDuration n / 60)).
  change (FocusSession.destination (Session.newSession false (now w) n)) with (Some (selectedDestination n)).
  rewrite B4, B5. do 4 (split; [reflexivity|]).
  unfold n, Session.onTicketAnimationComplete. by destruct (preloadedStation (app w)).
Qed.

(** On the page of [overlay_world], the user sets one minute in the
    freestyle modal and confirms: the booking reopens over the running
    page, and the countdown of the minute ends before boarding. *)
Definition twice_events : list (@Event AnyOutcome) :=
  (overlay_events ++ [User (SetCustomHours 0); User (SetCustomMinutes 1); User (ConfirmFreestyle 0)] ++
   repeat (Fire 0) 62)%list.

Definition twice_world : World :=
  from_option id (initial_world 0) (run (F:=AnyOutcome) twice_events (initial_world 0)).

Lemma board_after_arrival_records_again_witness :
  (exists y, sessions (app twice_world) = [y] /\ FocusSession.destination y = Some (selectedDestination (app twice_world))) /\
  exists w' x, world_step (F:=AnyOutcome) (User (TicketComplete "1A")) twice_world = Some w' /\
    timerState (app w') = COMPLETED /\ sessions (app w') = x :: sessions (app twice_world) /\
    FocusSession.durationMinutes x = initialDuration (app twice_world) / 60 /\
    FocusSession.actualDurationMinutes x = Some (initialDuration (app twice_world) / 60) /\
    FocusSession.destination x = Some (selectedDestination (app twice_world)).
Proof.
  split; [eexists; vm_compute; split; reflexivity|].
  apply (board_after_arrival_records_again (H:=AnyOutcome));
    [vm_compute; reflexivity|vm_compute; reflexivity|vm_compute; reflexivity|vm_compute; repeat constructor].
Defined.

End Lifecycle.
