(* ===== verification/Scenarios.v ===== *)
(** * What modelling found: behaviours of the page the specification rules out or leaves open

    Each theorem of this file states a behaviour of the source for every
    state of [App], or for every world reachable from page load, and its
    witness runs the scheduler from the page loaded at time 0, with the
    service of src/services/geminiService.ts ([gemini]), to a page where
    it shows: a prefetch applied after the destination changed (and while
    the ticket modal is open), a sub-label that outlives its label, custom
    labels that share an identifier, and a pause that drops the part of a
    second already run. *)

From Stdlib Require Import ZArith QArith String Lia.
From stdpp Require Import base list strings decidable relations.
From coqutil Require Import Datatypes.RecordSetters.
From S2P Require Import Prelude JsRuntime Types Catalog AppState Session Labels Flavor Media Remote Gemini Scheduler TicketModal Invariants Behaviour Liveness.
Import Scheduler DoubleBraceUpdate.

Local Open Scope string_scope.
Local Open Scope Z_scope.

(** The first destination of the grid. *)
Definition other_destination : Destination.t := nth 0 Catalog.DESTINATIONS Catalog.FREESTYLE_DESTINATION.

(** What the backend answers for Kyoto. *)
Definition kyoto_answer : Gemini.Parsed :=
  Gemini.mkParsed (GeminiDestinationData.mk_weather 15 "Cloudy")
    (Station.mk "Gion Gate" "Lanterns line the platform." "nature") "21:00".

Definition kyoto_response : Gemini.Response :=
  Gemini.Returns (Some "json") (Some kyoto_answer) None.

Definition kyoto_data : GeminiDestinationData.t :=
  GeminiDestinationData.mk (Gemini.p_weather kyoto_answer) (Gemini.p_station kyoto_answer)
    (Gemini.p_localTime kyoto_answer) [].

(** ** A prefetch applied to whatever is selected *)

(** The continuation of the prefetch keeps the timer, the selection and
    the booking, and stores the station. *)
Lemma prefetchDone_station r s :
  let n := Flavor.prefetchDone (Resolved (Some r)) s in
  timerState n = timerState s /\ timeLeft n = timeLeft s /\
  selectedDestination n = selectedDestination s /\ isBooking n = isBooking s /\
  preloadedStation n = Some (GeminiDestinationData.station r).
Proof. cbn. by destruct (Flavor.weather_of_condition _). Qed.

(** C19 (a finding): in every reachable world, a prefetch for destination
    [d] that settles with a result stores [d]'s station as the preloaded
    station whatever destination is selected by then, and keeps an open
    booking open (so [App] renders again under [TicketModal], see
    [TicketModal.rerender_reprints]); boarding then shows that station on
    arrival.  [fetchDataForDestination] does not check that the answer
    belongs to the destination still selected. *)
Theorem stale_prefetch_station `{FlavorService} t0 w i d x r :
  reachable t0 w -> inflight w !! i = Some (Prefetch d) ->
  fetch (Destination.name d) None x = Resolved (Some r) ->
  exists w', world_step (Settle i x) w = Some w' /\
    selectedDestination (app w') = selectedDestination (app w) /\
    isBooking (app w') = isBooking (app w) /\
    preloadedStation (app w') = Some (GeminiDestinationData.station r) /\
    forall seat, currentStation (fst (Session.onTicketAnimationComplete seat (app w'))) =
                 Some (GeminiDestinationData.station r).
Proof.
  intros Hr Hi Hf. destruct (wi_app _ (reachable_world_inv _ _ Hr)) as [_ Hrun].
  destruct (prefetchDone_station r (app w)) as (E1 & E2 & E3 & E4 & E5).
  set (n := Flavor.prefetchDone (Resolved (Some r)) (app w)) in *.
  assert (Ha : app (apply_update n (with_inflight (delete i) w)) = n).
  { apply apply_update_plain. rewrite E1, E2. intros [H1 H2]. specialize (Hrun H1). lia. }
  exists (apply_update n (with_inflight (delete i) w)). split; [cbn [world_step]; rewrite Hi, Hf; reflexivity|].
  rewrite Ha. split; [exact E3|]. split; [exact E4|]. split; [exact E5|].
  intros seat. unfold Session.onTicketAnimationComplete. by rewrite E5.
Qed.

(** The page loads and starts fetching Kyoto's data; the user picks the
    Work label and another destination. *)
Definition stale_world : World :=
  from_option id (initial_world 0)
    (run (F:=gemini) [User (SelectLabel work_label); User (SelectDestination other_destination)] (initial_world 0)).

Lemma stale_reachable : reachable (F:=gemini) 0 stale_world.
Proof. apply run_steps with [User (SelectLabel work_label); User (SelectDestination other_destination)]. vm_compute. reflexivity. Qed.

Lemma stale_prefetch_station_witness :
  Destination.name (selectedDestination (app stale_world)) <> "Kyoto" /\
  exists w', world_step (F:=gemini) (@Settle gemini 0 kyoto_response) stale_world = Some w' /\
    selectedDestination (app w') = selectedDestination (app stale_world) /\
    isBooking (app w') = isBooking (app stale_world) /\
    preloadedStation (app w') = Some (GeminiDestinationData.station kyoto_data) /\
    forall seat, currentStation (fst (Session.onTicketAnimationComplete seat (app w'))) =
                 Some (GeminiDestinationData.station kyoto_data).
Proof.
  split; [vm_compute; discriminate|].
  apply (stale_prefetch_station (H:=gemini) 0 stale_world 0 Catalog.INITIAL_DESTINATION);
    [exact stale_reachable|vm_compute; reflexivity|vm_compute; reflexivity].
Defined.

(** ** Custom labels *)

(** C20 (a finding): for every page and every time, creating a custom
    label selects it but keeps the sub-label chosen before: the new label
    has neither sub-labels nor a prompt, Depart's validation passes, and
    the session recorded later carries the new label with the sub-label of
    the previous one. *)
Theorem custom_label_keeps_sub_label now s :
  js_truthy_string (js_trim (newLabelName s)) = true ->
  let n := fst (Labels.handleAddCustomLabel now s) in
  activeLabel n = Some (Labels.customLabel now s) /\
  MissionLabel.subLabels (Labels.customLabel now s) = None /\
  MissionLabel.customSubLabelPrompt (Labels.customLabel now s) = None /\
  activeSubLabel n = activeSubLabel s /\ Session.departValidation n = None /\
  (forall early t, FocusSession.label (Session.newSession early t n) = Some (Labels.customLabel now s) /\
     FocusSession.subLabel (Session.newSession early t n) = js_or_undefined_string (activeSubLabel s)).
Proof.
  intros Ht. unfold Labels.handleAddCustomLabel. rewrite Ht. cbn. repeat split.
Qed.

(** The Study label with its subject Math, and "Gym" typed in the editor. *)
Definition math_then_gym : App :=
  initial_app{{ activeLabel := Some study_label }}{{ activeSubLabel := Some "Math" }}{{ newLabelName := "Gym" }}.

Lemma custom_label_keeps_sub_label_witness :
  let n := fst (Labels.handleAddCustomLabel 0 math_then_gym) in
  activeLabel n = Some (Labels.customLabel 0 math_then_gym) /\
  MissionLabel.subLabels (Labels.customLabel 0 math_then_gym) = None /\
  MissionLabel.customSubLabelPrompt (Labels.customLabel 0 math_then_gym) = None /\
  activeSubLabel n = activeSubLabel math_then_gym /\ Session.departValidation n = None /\
  (forall early t, FocusSession.label (Session.newSession early t n) = Some (Labels.customLabel 0 math_then_gym) /\
     FocusSession.subLabel (Session.newSession early t n) = js_or_undefined_string (activeSubLabel math_then_gym)).
Proof. apply custom_label_keeps_sub_label. vm_compute. reflexivity. Defined.

(** Deleting the identifier [k] of the two labels added last leaves the
    labels before them as the deletion leaves them. *)
Lemma filter_other_ids (ls : list MissionLabel.t) a b k :
  MissionLabel.id a = k -> MissionLabel.id b = k ->
  filter (fun l => MissionLabel.id l <> k) (ls ++ [a; b])%list = filter (fun l => MissionLabel.id l <> k) ls.
Proof.
  intros Ha Hb. rewrite filter_app, filter_cons_False, filter_cons_False by (cbn; congruence).
  by rewrite filter_nil, app_nil_r.
Qed.

(** C21 (a finding): two custom labels created within the same
    millisecond, on any page, get the same identifier [custom-<Date.now()>],
    and deleting one of them (confirmed) deletes both and leaves the
    other labels. *)
Theorem custom_label_ids_collide now s name2 :
  js_truthy_string (js_trim (newLabelName s)) = true -> js_truthy_string (js_trim name2) = true ->
  let s2 := fst (Labels.handleAddCustomLabel now
                   (Labels.typeLabelName name2 (fst (Labels.handleAddCustomLabel now s)))) in
  exists a b, availableLabels s2 = (availableLabels s ++ [a; b])%list /\
    MissionLabel.id a = MissionLabel.id b /\
    MissionLabel.name a = js_trim (newLabelName s) /\ MissionLabel.name b = js_trim name2 /\
    availableLabels (fst (Labels.handleDeleteLabel (MissionLabel.id a) true s2)) =
      filter (fun l => MissionLabel.id l <> MissionLabel.id a) (availableLabels s).
Proof.
  intros H1 H2. cbv zeta. unfold Labels.handleAddCustomLabel. rewrite !H1. cbn [fst].
  repeat match goal with |- context [newLabelName (Labels.typeLabelName name2 ?x)] =>
    change (newLabelName (Labels.typeLabelName name2 x)) with name2 end.
  rewrite !H2. unfold Labels.handleDeleteLabel, Labels.typeLabelName. cbn. unfold constant. cbn.
  do 2 eexists. split; [by rewrite <- app_assoc|]. do 3 (split; [reflexivity|]).
  case_bool_decide; cbn; unfold constant; cbn; rewrite <- app_assoc; cbn [app]; by apply filter_other_ids.
Qed.

Lemma custom_label_ids_collide_witness :
  let s := initial_app{{ newLabelName := "Gym" }} in
  let s2 := fst (Labels.handleAddCustomLabel 0
                   (Labels.typeLabelName "Yoga" (fst (Labels.handleAddCustomLabel 0 s)))) in
  exists a b, availableLabels s2 = (availableLabels s ++ [a; b])%list /\
    MissionLabel.id a = MissionLabel.id b /\
    MissionLabel.name a = js_trim (newLabelName s) /\ MissionLabel.name b = js_trim "Yoga" /\
    availableLabels (fst (Labels.handleDeleteLabel (MissionLabel.id a) true s2)) =
      filter (fun l => MissionLabel.id l <> MissionLabel.id a) (availableLabels s).
Proof. apply custom_label_ids_collide; vm_compute; reflexivity. Defined.

(** ** Pausing restarts the second *)

(** A render that switches the timer state runs the timer effect: the
    cleanup clears the interval, and a running countdown gets a new one,
    due a full second later. *)
Lemma commit_switch o w :
  selectedDestination o = selectedDestination (app w) -> timerState o <> timerState (app w) ->
  (timerState (app w) = RUNNING -> 0 < timeLeft (app w)) ->
  app (commit o w) = app w /\ now (commit o w) = now w /\
  dues TickTimer (timers (commit o w)) =
    if bool_decide (timerState (app w) = RUNNING) then [now w + 1000] else [].
Proof.
  intros E1 E2 Hp. unfold commit, effects. rewrite fetch_effect_same by exact E1.
  unfold timer_effect_run. rewrite (bool_decide_eq_false_2 (timerState o = _)) by exact E2. cbn [andb].
  unfold tip_effect.
  destruct (Session.timer_effect (app w)) eqn:Et.
  - apply timer_effect_start in Et as [Hr _]. cbn [fst snd add_timer with_timers app now timers].
    rewrite bool_decide_eq_false_2 by exact E2.
    rewrite !bool_decide_eq_true_2 by exact Hr. cbn [fst snd add_timer with_timers app now timers].
    split; [done|]. split; [done|].
    rewrite dues_app, dues_clear_other, dues_app, dues_clear_same by discriminate. reflexivity.
  - apply timer_effect_complete in Et as [Hr H0]. specialize (Hp Hr). lia.
  - assert (Hr : timerState (app w) <> RUNNING).
    { intros Hr. pose proof (proj2 (timer_effect_start (app w)) (conj Hr (Hp Hr))). congruence. }
    cbn [fst snd add_timer with_timers app now timers].
    rewrite bool_decide_eq_false_2 by exact E2. rewrite !bool_decide_eq_false_2 by exact Hr.
    cbn [fst snd add_timer with_timers app now timers].
    split; [done|]. split; [done|]. by rewrite dues_clear_other, dues_clear_same by discriminate.
Qed.

(** A control that only switches the timer state, with its click. *)
Lemma switch_handler st w :
  timerState (app w) <> st -> (st = RUNNING -> 0 < timeLeft (app w)) ->
  let w' := apply_handler ((app w){{ timerState := st }}, [PlayClick]) w in
  app w' = (app w){{ timerState := st }} /\ now w' = now w /\
  dues TickTimer (timers w') = if bool_decide (st = RUNNING) then [now w + 1000] else [].
Proof. intros Hne Hp. apply commit_switch; [reflexivity|exact Hne|exact Hp]. Qed.

(** C29 (a finding): in every reachable world with a running countdown,
    pausing and resuming at once leaves the countdown where it was, with
    its next decrement due a full second after the resume: the part of
    the second already run is lost, as [setTimerState(RUNNING)] re-runs
    the timer effect, which starts a new interval.  Repeated, pauses keep
    the countdown from moving while time passes. *)
Theorem resume_restarts_second `{FlavorService} t0 w :
  reachable t0 w -> timerState (app w) = RUNNING ->
  exists w1 w2, world_step (User Pause) w = Some w1 /\ world_step (User Resume) w1 = Some w2 /\
    now w2 = now w /\ timerState (app w2) = RUNNING /\ timeLeft (app w2) = timeLeft (app w) /\
    dues TickTimer (timers w2) = [now w + 1000].
Proof.
  intros Hr Hs. destruct (wi_app _ (reachable_world_inv _ _ Hr)) as [_ Hrun].
  destruct (switch_handler PAUSED w) as (A1 & N1 & _); [by rewrite Hs|discriminate|].
  set (w1 := apply_handler _ w) in A1, N1.
  destruct (switch_handler RUNNING w1) as (A2 & N2 & D2); [by rewrite A1|intros _; rewrite A1; exact (Hrun Hs)|].
  exists w1, (apply_handler ((app w1){{ timerState := RUNNING }}, [PlayClick]) w1).
  split; [cbn [world_step enabledb user_handler]; unfold main_ctl; by rewrite bool_decide_eq_true_2|].
  split; [cbn [world_step enabledb user_handler]; unfold main_ctl; rewrite A1; by rewrite bool_decide_eq_true_2|].
  rewrite A2, N2, D2, N1, A1. by repeat split.
Qed.

(** The user boards the Work session at time 0, and 0.9 s later the
    countdown's next decrement is due at 1 s. *)
Definition boarded_world : World :=
  from_option id (initial_world 0)
    (run (F:=gemini) [User (SelectLabel work_label); User Depart; User (TicketComplete "1A"); Advance 900]
       (initial_world 0)).

Lemma boarded_reachable : reachable (F:=gemini) 0 boarded_world.
Proof.
  apply run_steps with [User (SelectLabel work_label); User Depart; User (TicketComplete "1A"); Advance 900].
  vm_compute. reflexivity.
Qed.

Lemma resume_restarts_second_witness :
  now boarded_world = 900%Z /\ dues TickTimer (timers boarded_world) = [1000%Z] /\
  exists w1 w2, world_step (F:=gemini) (User Pause) boarded_world = Some w1 /\
    world_step (F:=gemini) (User Resume) w1 = Some w2 /\
    now w2 = now boarded_world /\ timerState (app w2) = RUNNING /\
    timeLeft (app w2) = timeLeft (app boarded_world) /\
    dues TickTimer (timers w2) = [(now boarded_world + 1000)%Z].
Proof.
  split; [vm_compute; reflexivity|]. split; [vm_compute; reflexivity|].
  apply (resume_restarts_second (H:=gemini) 0); [exact boarded_reachable|vm_compute; reflexivity].
Defined.
