(* ===== verification/Registry.v ===== *)
(** * The label registry and the music player in every reachable world

    [registry_inv] is what the label picker and the music player rely on:
    every label declares a sub-label list or a free-text prompt, not both
    ([Labels.labels_wf]); the active label is one of the available labels,
    so deleting a label never leaves it selected; a sub-label is chosen
    only together with a label; and the track index is a position of the
    play list.  It reads only the fields of [registry_view], which the
    session handlers, the effects and the promises leave alone. *)

From Stdlib Require Import ZArith QArith String Lia.
From stdpp Require Import base list strings decidable relations.
From coqutil Require Import Datatypes.RecordSetters.
From S2P Require Import Prelude JsRuntime Types Catalog AppState Session Labels Flavor Media Remote Scheduler Invariants Behaviour.
Import DoubleBraceUpdate.
Import Scheduler.

Local Open Scope Z_scope.

(** The fields of the registry, the label editor's choices and the player. *)
Definition registry_view (s : App) :
    list MissionLabel.t * option MissionLabel.t * option string * Z * string * string :=
  (availableLabels s, activeLabel s, activeSubLabel s, currentTrackIndex s, newLabelColor s, newLabelIcon s).

(** A label's colour is one of the palette's and its icon a key of [ICON_MAP]. *)
Definition label_styled (l : MissionLabel.t) : Prop :=
  MissionLabel.color l ∈ Catalog.AVAILABLE_COLORS /\
  from_option (fun k => k ∈ Catalog.ICON_KEYS) True (MissionLabel.icon l).

#[export] Instance label_styled_dec l : Decision (label_styled l).
Proof. unfold label_styled. destruct (MissionLabel.icon l); cbn; apply _. Defined.

Record registry_inv (s : App) : Prop := {
  ri_labels : Labels.labels_wf s;
  ri_active : from_option (fun l => l ∈ availableLabels s) True (activeLabel s);
  ri_track : 0 <= currentTrackIndex s < Media.track_count;
  ri_styled : Forall label_styled (availableLabels s);
  ri_color : newLabelColor s ∈ Catalog.AVAILABLE_COLORS;
  ri_icon : newLabelIcon s ∈ Catalog.ICON_KEYS
}.

Lemma registry_inv_view s n : registry_view n = registry_view s -> registry_inv s -> registry_inv n.
Proof.
  unfold registry_view. intros E. injection E as E1 E2 E3 E4 E5 E6.
  intros [[Hl [Ha Hs]] Hin Ht Hst Hc Hi]. unfold Labels.labels_wf.
  split; unfold Labels.labels_wf in *; rewrite ?E1, ?E2, ?E3, ?E4, ?E5, ?E6; tauto.
Qed.

Lemma completeSession_view early now s :
  registry_view (fst (Session.completeSession early now s)) = registry_view s.
Proof. reflexivity. Qed.

Lemma apply_handler_view res w :
  registry_view (app (apply_handler res w)) = registry_view (fst res).
Proof. destruct (apply_handler_app res w) as [-> _]. by destruct (completes _ _). Qed.

Lemma apply_update_view n w : registry_view (app (apply_update n w)) = registry_view n.
Proof. exact (apply_handler_view (n, []) w). Qed.

(** ** The handlers of the registry, the editor and the player *)

Lemma selectLabel_registry l s :
  registry_inv s -> l ∈ availableLabels s -> registry_inv (fst (Labels.selectLabel l s)).
Proof.
  intros [[Hall [_ _]] _ Ht Hst Hc Hi] Hl. split; [split; [|split]|..]; cbn; try done.
  rewrite Forall_forall in Hall. by apply Hall.
Qed.

Lemma deleteLabel_registry id c s : registry_inv s -> registry_inv (fst (Labels.handleDeleteLabel id c s)).
Proof.
  intros [[Hall [Ha Hsub]] Hin Ht Hst Hc Hi]. unfold Labels.handleDeleteLabel.
  destruct c; [|by split; [split|..]]. cbn [fst].
  assert (Hf : forall P, Forall P (availableLabels s) ->
                 Forall P (filter (fun l => MissionLabel.id l <> id) (availableLabels s))).
  { intros P HP. rewrite Forall_forall in HP |- *. intros x Hx. apply list_elem_of_filter in Hx as [_ Hx]. by apply HP. }
  case_bool_decide as Hid; (split; [split; [|split]|..]); cbn; try done; try by apply Hf.
  change (from_option (fun l => l ∈ filter (fun l0 => MissionLabel.id l0 <> id) (availableLabels s))
            True (activeLabel s)).
  destruct (activeLabel s) as [l|] eqn:El; [|exact I].
  cbn [from_option] in Hin |- *. apply list_elem_of_filter. split; [|exact Hin].
  intros E. apply Hid. rewrite <- E. reflexivity.
Qed.

Lemma addLabel_registry now s : registry_inv s -> registry_inv (fst (Labels.handleAddCustomLabel now s)).
Proof.
  intros [[Hall [Ha Hsub]] Hin Ht Hst Hc Hi]. unfold Labels.handleAddCustomLabel.
  destruct (js_truthy_string _); [|by split; [split|..]]. cbn [fst].
  split; [split; [|split]|..]; cbn; try done.
  - apply Forall_app. split; [exact Hall|]. constructor; [by left|constructor].
  - by left.
  - apply elem_of_app. right. by left.
  - apply Forall_app. split; [exact Hst|]. constructor; [|constructor]. split; [exact Hc|exact Hi].
  - apply (bool_decide_unpack _). vm_compute. reflexivity.
  - apply (bool_decide_unpack _). vm_compute. reflexivity.
Qed.

Lemma selectSubLabel_registry v s :
  registry_inv s -> activeLabel s <> None -> registry_inv (s{{ activeSubLabel := Some v }}).
Proof. intros [[Hall [Ha Hsub]] Hin Ht Hst Hc Hi] Hl. by split; [split; [|split]|..]. Qed.

Lemma track_registry s f :
  registry_inv s -> 0 <= f (currentTrackIndex s) ->
  registry_inv (s{{ currentTrackIndex := Z.rem (f (currentTrackIndex s)) Media.track_count }}).
Proof.
  intros [Hl Hin Ht Hst Hc Hi] Hf. split; try done. cbn.
  apply Z.rem_bound_pos; [exact Hf|]. vm_compute. reflexivity.
Qed.

Lemma pickColor_registry c s :
  registry_inv s -> c ∈ Catalog.AVAILABLE_COLORS -> registry_inv (fst (Labels.pickColor c s)).
Proof. intros [Hl Hin Ht Hst Hc Hi] Hc'. by split. Qed.

Lemma pickIcon_registry k s :
  registry_inv s -> k ∈ Catalog.ICON_KEYS -> registry_inv (fst (Labels.pickIcon k s)).
Proof. intros [Hl Hin Ht Hst Hc Hi] Hk. by split. Qed.

(** A handler that changes none of the fields of [registry_view]. *)
Ltac registry_frame Hi :=
  eapply registry_inv_view; [|exact Hi];
  unfold Session.handleDepartClick, Session.handleSelectDestination, Session.setCustomHours,
    Session.setCustomMinutes, Session.closeFreestyleModal, Session.onTicketAnimationComplete,
    Session.pauseSession, Session.resumeSession, Session.abandonSession, Session.finishEarly,
    Session.completeSession, Session.resetTimer, Labels.typeTask, Labels.openLabelEditor,
    Labels.closeLabelEditor, Labels.typeLabelName, Media.toggleMusic;
  repeat case_match; reflexivity.

Lemma active_label_some ev s :
  (match activeLabel s with Some l => ev l | None => false end) = true -> activeLabel s <> None.
Proof. by destruct (activeLabel s). Qed.

Lemma user_handler_registry ev now s res :
  registry_inv s -> enabledb ev s = true -> user_handler ev now s = Some res -> registry_inv (fst res).
Proof.
  intros Hi. pose proof (ri_track _ Hi) as Ht.
  destruct ev; cbn [user_handler enabledb]; intros Hen Hh; try (injection Hh as <-).
  all: lazymatch goal with
  | |- registry_inv (fst (Labels.selectLabel _ _)) =>
      apply andb_prop in Hen as [_ Hl]; apply bool_decide_eq_true_1 in Hl; by apply selectLabel_registry
  | |- registry_inv (fst (Labels.handleDeleteLabel _ _ _)) => by apply deleteLabel_registry
  | |- registry_inv (fst (Labels.handleAddCustomLabel _ _)) => by apply addLabel_registry
  | |- registry_inv (fst (Labels.selectSubLabel _ _)) =>
      apply andb_prop in Hen as [_ Hl]; apply selectSubLabel_registry; [done|exact (active_label_some _ _ Hl)]
  | |- registry_inv (fst (Labels.typeSubLabel _ _, _)) =>
      apply andb_prop in Hen as [_ Hl]; apply selectSubLabel_registry; [done|exact (active_label_some _ _ Hl)]
  | |- registry_inv (fst (Media.nextTrack _)) => apply (track_registry s (fun i => i + 1) Hi); lia
  | |- registry_inv (fst (Media.prevTrack _)) =>
      apply (track_registry s (fun i => i - 1 + Media.track_count) Hi); unfold Media.track_count; cbn; lia
  | |- registry_inv (fst (Labels.pickColor _ _)) =>
      apply andb_prop in Hen as [_ Hc]; apply bool_decide_eq_true_1 in Hc; by apply pickColor_registry
  | |- registry_inv (fst (Labels.pickIcon _ _)) =>
      apply andb_prop in Hen as [_ Hk]; apply bool_decide_eq_true_1 in Hk; by apply pickIcon_registry
  | H : Session.confirmFreestyle _ _ = Some _ |- _ =>
      unfold Session.confirmFreestyle in H; repeat case_match; simplify_eq; registry_frame Hi
  | _ => registry_frame Hi
  end.
Qed.

Lemma registry_update n w :
  registry_view n = registry_view (app w) -> registry_inv (app w) -> registry_inv (app (apply_update n w)).
Proof. intros E Hi. apply (registry_inv_view (app w)); [by rewrite apply_update_view|exact Hi]. Qed.

Section Steps.
Context `{F : FlavorService}.

Lemma world_step_registry e w w' : registry_inv (app w) -> world_step e w = Some w' -> registry_inv (app w').
Proof.
  intros Hi Hs. destruct e as [ev|r|t|i x].
  - apply step_user in Hs as (Hen & res & Hh & ->).
    apply (registry_inv_view (fst res)); [apply apply_handler_view|].
    exact (user_handler_registry _ _ _ _ Hi Hen Hh).
  - cbn [world_step] in Hs. destruct (_ && _); [|discriminate].
    destruct (earliest (timers w)) as [[j p]|]; [|discriminate].
    unfold fire_timer in Hs. destruct (timer p) as [| |[]].
    + injection Hs as <-. by apply registry_update.
    + unfold Media.rotateTip in Hs. destruct (js_array_get _ _); [|discriminate].
      injection Hs as <-. by apply registry_update.
    + injection Hs as <-. by apply registry_update.
  - cbn [world_step] in Hs. destruct (_ && _); [|discriminate]. by injection Hs as <-.
  - cbn [world_step] in Hs. destruct (inflight w !! i) as [[d|name task]|]; [| |discriminate];
      injection Hs as <-; (apply registry_update; [|exact Hi]);
      [unfold Flavor.prefetchDone|unfold Session.boardingFetchDone]; repeat case_match; reflexivity.
Qed.

Lemma registry_steps w w' : rtc step w w' -> registry_inv (app w) -> registry_inv (app w').
Proof.
  induction 1 as [|w1 w2 w3 [e ? ? Hs] _ IH]; [done|]. intros Hi. apply IH. by eapply world_step_registry.
Qed.
End Steps.

Lemma initial_registry_inv : registry_inv initial_app.
Proof.
  split; [split; [|split]|..].
  - apply (bool_decide_unpack _). vm_compute. reflexivity.
  - exact I.
  - intros H. contradiction H. reflexivity.
  - exact I.
  - apply (bool_decide_unpack _). vm_compute. reflexivity.
  - apply (bool_decide_unpack _). vm_compute. reflexivity.
  - apply (bool_decide_unpack _). vm_compute. reflexivity.
  - apply (bool_decide_unpack _). vm_compute. reflexivity.
Qed.

(** C18: in every reachable world the label registry is well formed (no
    label declares both a sub-label list and a prompt), the active label
    is one of the available labels (deleting it clears the selection), a
    sub-label is set only together with a label, and the music track index
    is a position of the play list. *)
Theorem reachable_registry_inv `{FlavorService} t0 w : reachable t0 w -> registry_inv (app w).
Proof. intros Hr. apply (registry_steps _ _ Hr). exact initial_registry_inv. Qed.

Lemma reachable_registry_inv_witness : registry_inv (app demo_world).
Proof. apply (reachable_registry_inv (H:=AnyOutcome) 0). exact demo_reachable. Defined.
