(* ===== verification/TrainAnimation.v ===== *)
(** * The train scene: src/components/TrainAnimation.tsx

    [App] renders [TrainAnimation] with the timer state, the destination's
    picture, the weather's environment and the theme colour
    [activeLabel?.color || 'red'] (src/App.tsx lines 910-916).  The
    component has one state hook, [imgSource], which its image's
    [onError] handler moves from the primary picture to the backup and
    then to the inline SVG train (lines 16-33).  The rest is a function of
    the props: the colour theme looked up in [colorMap] with a default
    (lines 36-58), the weather layer of the environment (lines 61-166) and
    the moving or resting scene (lines 163-370).  [Scene] records what the
    render shows; class names, styles and random particle positions are
    not modelled. *)

From Stdlib Require Import ZArith String Lia.
From stdpp Require Import base list strings decidable relations.
From S2P Require Import Prelude JsRuntime Types Catalog AppState Remote Scheduler Invariants Registry.
Import Scheduler.

Local Open Scope string_scope.

Module TrainAnimation.

(** [imgSource] (line 16). *)
Inductive ImgSource := Primary | Backup | Fallback.

#[export] Instance ImgSource_eq_dec : EqDecision ImgSource.
Proof. solve_decision. Defined.

Definition PRIMARY_URL : string := "https://cdn.pixabay.com/photo/2023/06/18/10/37/steam-train-8071887_1280.png".
Definition BACKUP_URL : string := "https://upload.wikimedia.org/wikipedia/commons/e/e5/Steam_locomotive_R_761.png".

(** [handleImageError] (lines 24-32). *)
Definition handleImageError (src : ImgSource) : ImgSource :=
  match src with
  | Primary => Backup
  | Backup => Fallback
  | Fallback => Fallback
  end.

(** An entry of [colorMap]. *)
Record Theme := mkTheme { hueRotate : string; primary : string; dark : string; light : string }.

#[export] Instance Theme_eq_dec : EqDecision Theme.
Proof. solve_decision. Defined.

(** [colorMap] (lines 36-56), its keys in the source's order. *)
Definition colorMap : list (string * Theme) := [
  ("red", mkTheme "0deg" "#ef4444" "#7f1d1d" "#f87171");
  ("orange", mkTheme "30deg" "#f97316" "#7c2d12" "#fb923c");
  ("amber", mkTheme "45deg" "#f59e0b" "#78350f" "#fbbf24");
  ("yellow", mkTheme "60deg" "#eab308" "#713f12" "#facc15");
  ("lime", mkTheme "90deg" "#84cc16" "#3f6212" "#a3e635");
  ("green", mkTheme "120deg" "#22c55e" "#14532d" "#4ade80");
  ("emerald", mkTheme "150deg" "#10b981" "#064e3b" "#34d399");
  ("teal", mkTheme "170deg" "#14b8a6" "#0f5132" "#5eead4");
  ("cyan", mkTheme "180deg" "#06b6d4" "#164e63" "#22d3ee");
  ("sky", mkTheme "200deg" "#0ea5e9" "#0c4a6e" "#7dd3fc");
  ("blue", mkTheme "220deg" "#3b82f6" "#1e3a8a" "#60a5fa");
  ("indigo", mkTheme "240deg" "#6366f1" "#312e81" "#818cf8");
  ("violet", mkTheme "260deg" "#8b5cf6" "#4c1d95" "#a78bfa");
  ("purple", mkTheme "280deg" "#a855f7" "#581c87" "#c084fc");
  ("fuchsia", mkTheme "300deg" "#d946ef" "#701a75" "#e879f9");
  ("pink", mkTheme "330deg" "#ec4899" "#831843" "#f472b6");
  ("rose", mkTheme "345deg" "#f43f5e" "#881337" "#fb7185");
  ("default", mkTheme "0deg" "#ef4444" "#7f1d1d" "#f87171")
].

(** [colorMap[themeColor]] for a colour that is an own key or no key of
    the object.  A colour named after a member of [Object.prototype]
    would find that member instead (see [JsRuntime.js_get]); the theme
    colour of a reachable page is a palette colour ([reachable_theme]),
    never such a name. *)
Definition lookup_theme (k : string) : option Theme :=
  match list_find (fun kv => kv.1 = k) colorMap with
  | Some (_, (_, th)) => Some th
  | None => None
  end.

Definition default_theme : Theme := mkTheme "0deg" "#ef4444" "#7f1d1d" "#f87171".

(** [colorMap[themeColor] || colorMap.default] (line 58). *)
Definition currentTheme (themeColor : string) : Theme := from_option id default_theme (lookup_theme themeColor).

(** The weather layer [renderWeather] draws (lines 61-166), with its
    number of particles. *)
Inductive WeatherLayer :=
  | SnowLayer (background foreground : nat)
  | RainLayer (neon : bool) (drops : nat)
  | FogLayer
  | DustLayer (particles : nat)
  | SunLayer.

(** [renderWeather()]; its [default: return null] is unreachable, the
    environment being one of the six. *)
Definition renderWeather (env : Environment) : WeatherLayer :=
  match env with
  | snow => SnowLayer 30 15
  | city => RainLayer false 20
  | cyberpunk => RainLayer true 20
  | nature => FogLayer
  | desert => DustLayer 10
  | clear => SunLayer
  end.

(** The locomotive: a picture (with the theme's hue rotation) or the SVG
    drawn in the theme's colours (lines 207-353). *)
Inductive Train :=
  | TrainImage (url : string) (hue : string)
  | TrainSvg (theme : Theme).

Record Scene := mkScene {
  moving : bool;               (** [isRunning]: scrolling, rumble, spinning wheels, speed layer *)
  background : string;         (** the destination picture, three times (lines 167-171) *)
  train : Train;
  wheel_blur : bool;           (** [isRunning && imgSource !== 'fallback'] (line 356) *)
  weather_layer : WeatherLayer
}.

(** The render (lines 12-13, 163-370). *)
Definition render (state : TimerState) (imageUrl : string) (env : Environment) (themeColor : string)
    (src : ImgSource) : Scene :=
  let isRunning := bool_decide (state = RUNNING) in
  let th := currentTheme themeColor in
  mkScene isRunning imageUrl
    (match src with
     | Primary => TrainImage PRIMARY_URL (hueRotate th)
     | Backup => TrainImage BACKUP_URL (hueRotate th)
     | Fallback => TrainSvg th
     end)
    (isRunning && bool_decide (src <> Fallback))
    (renderWeather env).

(** The theme colour [App] passes: [activeLabel?.color || 'red']. *)
Definition theme_color (s : App) : string :=
  match activeLabel s with
  | Some l => if js_truthy_string (MissionLabel.color l) then MissionLabel.color l else "red"
  | None => "red"
  end.

(** The element as [App] renders it (src/App.tsx lines 910-916). *)
Definition scene_of_app (s : App) (src : ImgSource) : Scene :=
  render (timerState s) (Destination.imageUrl (selectedDestination s))
    (WeatherState.environment (weather s)) (theme_color s) src.

(** The image's [onError] can fire only while an image is rendered. *)
Definition shows_image (src : ImgSource) : bool :=
  match train (render IDLE EmptyString city "red" src) with TrainImage _ _ => true | TrainSvg _ => false end.

(** ** Properties *)

(** C27: the train picture fails over at most twice: a chain of [onError]
    events, each raised by the image the previous render shows, has at
    most two links, and after two the inline SVG train is drawn for good. *)
Theorem image_errors_bounded n :
  (forall k, (k < n)%nat -> shows_image (Nat.iter k handleImageError Primary) = true) ->
  (n <= 2)%nat /\ forall k, (2 <= k)%nat -> Nat.iter k handleImageError Primary = Fallback.
Proof.
  intros H. split.
  - destruct (decide (n <= 2)%nat) as [|Hn]; [done|]. specialize (H 2%nat ltac:(lia)). discriminate.
  - intros k Hk. induction Hk as [|k _ IH]; [reflexivity|]. rewrite Nat.iter_succ, IH. reflexivity.
Qed.

Lemma image_errors_bounded_witness :
  (2 <= 2)%nat /\ forall k, (2 <= k)%nat -> Nat.iter k handleImageError Primary = Fallback.
Proof. apply image_errors_bounded. intros k Hk. destruct k as [|[|k]]; [reflexivity|reflexivity|lia]. Defined.

Lemma palette_themes :
  Forall (fun c => js_truthy_string c = true /\ is_Some (lookup_theme c)) ("red" :: Catalog.AVAILABLE_COLORS).
Proof. apply (bool_decide_unpack _). vm_compute. reflexivity. Qed.

Lemma palette_theme c : c ∈ "red" :: Catalog.AVAILABLE_COLORS -> js_truthy_string c = true /\ is_Some (lookup_theme c).
Proof. pose proof palette_themes as H. rewrite Forall_forall in H. apply H. Qed.

(** C28: in every reachable page the scene is coloured by the active
    label's own colour ([activeLabel?.color || 'red'] never falls back to
    ['red'] for a label), and that colour is a key of [colorMap]: the
    [colorMap.default] entry is never used. *)
Theorem reachable_theme `{FlavorService} t0 w :
  reachable t0 w ->
  theme_color (app w) = from_option MissionLabel.color "red" (activeLabel (app w)) /\
  exists th, lookup_theme (theme_color (app w)) = Some th /\ currentTheme (theme_color (app w)) = th.
Proof.
  intros Hr. pose proof (registry_steps _ _ Hr initial_registry_inv) as [_ Ha _ Hst _ _].
  assert (Hc : from_option MissionLabel.color "red" (activeLabel (app w)) ∈ "red" :: Catalog.AVAILABLE_COLORS).
  { destruct (activeLabel (app w)) as [l|]; cbn in Ha |- *; [|apply list_elem_of_here].
    apply elem_of_cons. right. rewrite Forall_forall in Hst. exact (proj1 (Hst l Ha)). }
  destruct (palette_theme _ Hc) as [Ht [th Hth]].
  assert (E : theme_color (app w) = from_option MissionLabel.color "red" (activeLabel (app w))).
  { unfold theme_color. destruct (activeLabel (app w)) as [l|]; [|reflexivity].
    cbn in Ht |- *. case_match; [reflexivity|congruence]. }
  split; [exact E|]. exists th. rewrite E, Hth. split; [done|]. unfold currentTheme. by rewrite Hth.
Qed.

Lemma reachable_theme_witness :
  theme_color (app demo_world) = from_option MissionLabel.color "red" (activeLabel (app demo_world)) /\
  exists th, lookup_theme (theme_color (app demo_world)) = Some th /\ currentTheme (theme_color (app demo_world)) = th.
Proof. apply (reachable_theme (H:=AnyOutcome) 0). exact demo_reachable. Defined.

End TrainAnimation.
