(* ===== verification/Audio.v ===== *)
(** * The music player's audio element: src/App.tsx lines 310-379

    [App] keeps one [HTMLAudioElement] in [musicRef] and drives it from
    three effects: the mount effect creates it (lines 318-325), the track
    effect switches its source when [currentTrackIndex] changes (lines
    328-342) and the playback effect plays or pauses it when [timerState]
    or [isMusicOn] changes (lines 365-379).  [Audio] records what the
    element shows of itself: its source, [paused], [loop] and [volume].
    [play()] may be refused by the browser (autoplay policy), which the
    source only logs; each commit says whether the track effect's and the
    playback effect's [play()] succeed.  [audio_run] runs the effects
    beside the scheduler: the mount effects on the first page, then one
    commit per step of [Scheduler.step], comparing the effects'
    dependencies before and after the step as React does. *)

From Stdlib Require Import ZArith QArith String.
From stdpp Require Import base list strings decidable relations.
From S2P Require Import Prelude JsRuntime Types Catalog AppState Media Remote Scheduler Invariants Registry.
Import Scheduler.

Local Open Scope string_scope.
Local Open Scope Z_scope.

Module Audio.

(** What the page sees of the element. *)
Record Audio := mkAudio { a_src : string; a_paused : bool; a_loop : bool; a_volume : Q }.

(** [new Audio()]: no source, paused, not looping, full volume. *)
Definition new_Audio : Audio := mkAudio "" true false 1%Q.

(** [play()] resolves ([ok]) or is refused and leaves the element paused. *)
Definition play (ok : bool) (a : Audio) : Audio :=
  if ok then mkAudio (a_src a) false (a_loop a) (a_volume a) else a.

Definition pause (a : Audio) : Audio := mkAudio (a_src a) true (a_loop a) (a_volume a).

(** Setting [src] and calling [load()]; the element is already paused. *)
Definition load (url : string) (a : Audio) : Audio := mkAudio url (a_paused a) (a_loop a) (a_volume a).

(** [MUSIC_TRACKS[i].url]; [None] when the index reads [undefined], whose
    [.url] throws. *)
Definition track_url (i : Z) : option string := snd <$> js_array_get Catalog.MUSIC_TRACKS i.

(** The mount effect (lines 318-325). *)
Definition init_audio : option Audio :=
  url ← track_url 0; Some (mkAudio url (a_paused new_Audio) true (4 # 10)%Q).

(** Whether the playback effect wants the music on. *)
Definition wants (s : App) : bool := bool_decide (timerState s = RUNNING) && isMusicOn s.

(** The track effect (lines 328-342). *)
Definition track_effect (ok : bool) (s : App) (a : Audio) : option Audio :=
  let wasPlaying := negb (a_paused a) || wants s in
  url ← track_url (currentTrackIndex s);
  let a' := load url (pause a) in
  Some (if isMusicOn s && wasPlaying then play ok a' else a').

(** The playback effect (lines 365-379). *)
Definition music_effect (ok : bool) (s : App) (a : Audio) : Audio :=
  if bool_decide (timerState s = RUNNING) then (if isMusicOn s then play ok a else pause a) else pause a.

(** The effects of one commit, in the order they are declared, each run
    when one of its dependencies changed. *)
Definition audio_commit (ok1 ok2 : bool) (o s : App) (a : Audio) : option Audio :=
  a1 ← (if bool_decide (currentTrackIndex o = currentTrackIndex s) then Some a else track_effect ok1 s a);
  Some (if bool_decide (timerState o = timerState s /\ isMusicOn o = isMusicOn s) then a1
        else music_effect ok2 s a1).

(** The first commit runs every effect. *)
Definition mount_audio (ok1 ok2 : bool) (s : App) : option Audio :=
  a0 ← init_audio; a1 ← track_effect ok1 s a0; Some (music_effect ok2 s a1).

Section Run.
Context `{FlavorService}.

(** The element along a run of the page; with [may_fail = false] every
    [play()] succeeds. *)
Inductive audio_run (t0 : Z) (may_fail : bool) : World -> Audio -> Prop :=
  | ar_mount ok1 ok2 a :
      (may_fail = false -> ok1 = true /\ ok2 = true) ->
      mount_audio ok1 ok2 (app (initial_world t0)) = Some a -> audio_run t0 may_fail (initial_world t0) a
  | ar_step w w' a a' ok1 ok2 :
      audio_run t0 may_fail w a -> step w w' ->
      (may_fail = false -> ok1 = true /\ ok2 = true) ->
      audio_commit ok1 ok2 (app w) (app w') a = Some a' -> audio_run t0 may_fail w' a'.

(** A run of events with the element beside it, every [play()] succeeding. *)
Fixpoint run_audio (es : list Event) (w : World) (a : Audio) : option (World * Audio) :=
  match es with
  | [] => Some (w, a)
  | e :: es => w' ← world_step e w; a' ← audio_commit true true (app w) (app w') a; run_audio es w' a'
  end.

End Run.

Lemma option_bind_Some {A B} (x : A) (f : A -> option B) : (Some x ≫= f) = f x.
Proof. reflexivity. Qed.

(** ** Invariant *)

Record audio_inv (may_fail : bool) (s : App) (a : Audio) : Prop := {
  ai_exact : may_fail = false -> a_paused a = negb (wants s);
  ai_safe : a_paused a = false -> wants s = true;
  ai_src : track_url (currentTrackIndex s) = Some (a_src a);
  ai_loop : a_loop a = true;
  ai_volume : a_volume a = (4 # 10)%Q
}.

Lemma track_url_in_range i : 0 <= i < Media.track_count -> is_Some (track_url i).
Proof.
  intros Hi. destruct (js_array_get_in_range Catalog.MUSIC_TRACKS i) as [x [Hx _]]; [exact Hi|].
  unfold track_url. rewrite Hx. by eexists.
Qed.

Lemma music_effect_inv mf ok s a :
  (mf = false -> ok = true) -> track_url (currentTrackIndex s) = Some (a_src a) ->
  a_loop a = true -> a_volume a = (4 # 10)%Q -> audio_inv mf s (music_effect ok s a).
Proof.
  intros Hok Hs Hl Hv. destruct a as [src p l v]; cbn in *; subst.
  split; unfold music_effect, wants; destruct (bool_decide _), (isMusicOn s), ok, mf; cbn;
    intros; subst; try done; specialize (Hok eq_refl); discriminate.
Qed.

Lemma track_effect_src ok s a a' :
  track_effect ok s a = Some a' ->
  track_url (currentTrackIndex s) = Some (a_src a') /\ a_loop a' = a_loop a /\ a_volume a' = a_volume a.
Proof.
  unfold track_effect. destruct (track_url _) as [url|]; cbn; [|discriminate].
  intros [= <-]. destruct (isMusicOn s && _), ok; done.
Qed.

Lemma track_effect_inv mf ok s a a' :
  (mf = false -> ok = true) -> (mf = false -> a_paused a = negb (wants s)) ->
  (a_paused a = false -> wants s = true) -> a_loop a = true -> a_volume a = (4 # 10)%Q ->
  track_effect ok s a = Some a' -> audio_inv mf s a'.
Proof.
  intros Hok He Hsafe Hl Hv. unfold track_effect.
  destruct (track_url _) as [url|] eqn:Eu; cbn; [|discriminate].
  intros [= <-]. destruct a as [src p l v]; cbn in *; subst.
  split; unfold wants in *; cbn in *; try done;
    destruct (isMusicOn s), (bool_decide _), p, ok, mf; cbn in *; intros; try done;
    try (specialize (Hok eq_refl); discriminate); try (specialize (He eq_refl); discriminate);
    try (specialize (Hsafe eq_refl); discriminate).
Qed.

Lemma wants_same o s :
  timerState o = timerState s -> isMusicOn o = isMusicOn s -> wants o = wants s.
Proof. unfold wants. by intros -> ->. Qed.

Lemma audio_inv_same mf o s a :
  audio_inv mf o a -> wants o = wants s -> currentTrackIndex o = currentTrackIndex s -> audio_inv mf s a.
Proof. intros [He Hs Hsrc Hl Hv] Hw Ht. split; rewrite <-?Hw, <-?Ht; done. Qed.

Lemma audio_commit_inv mf ok1 ok2 o s a a' :
  (mf = false -> ok1 = true /\ ok2 = true) -> audio_inv mf o a ->
  audio_commit ok1 ok2 o s a = Some a' -> audio_inv mf s a'.
Proof.
  intros Hok Hi. unfold audio_commit.
  destruct (decide (currentTrackIndex o = currentTrackIndex s)) as [Et|Et];
    [rewrite (bool_decide_eq_true_2 _ Et)|rewrite (bool_decide_eq_false_2 _ Et); destruct (track_effect ok1 s a) as [a1|] eqn:Ea; [|discriminate]];
    cbn; intros [= <-]; case_bool_decide as Hd.
  - destruct Hd as [H1 H2]. exact (audio_inv_same _ _ _ _ Hi (wants_same _ _ H1 H2) Et).
  - destruct Hi as [He Hs Hsrc Hl Hv].
    apply music_effect_inv; [exact (fun E => proj2 (Hok E))|by rewrite <- Et|done|done].
  - destruct Hd as [H1 H2]. pose proof (wants_same _ _ H1 H2) as Hw. destruct Hi as [He Hs Hsrc Hl Hv].
    eapply track_effect_inv; [exact (fun E => proj1 (Hok E))|by rewrite <- Hw|by rewrite <- Hw|done|done|exact Ea].
  - destruct (track_effect_src _ _ _ _ Ea) as (Hsrc & Hl & Hv).
    apply music_effect_inv; [exact (fun E => proj2 (Hok E))|done|by rewrite Hl, (ai_loop _ _ _ Hi)|by rewrite Hv, (ai_volume _ _ _ Hi)].
Qed.

Lemma mount_audio_inv mf ok1 ok2 s a :
  (mf = false -> ok1 = true /\ ok2 = true) -> mount_audio ok1 ok2 s = Some a -> audio_inv mf s a.
Proof.
  intros Hok. unfold mount_audio.
  destruct init_audio as [a0|] eqn:E0; cbn; [|discriminate].
  destruct (track_effect ok1 s a0) as [a1|] eqn:Ea; cbn; [|discriminate]. intros [= <-].
  revert E0. vm_compute. intros [= <-].
  destruct (track_effect_src _ _ _ _ Ea) as (Hsrc & Hl & Hv).
  apply music_effect_inv; [exact (fun E => proj2 (Hok E))|done|done|done].
Qed.

Lemma audio_run_inv `{FlavorService} t0 mf w a : audio_run t0 mf w a -> audio_inv mf (app w) a.
Proof.
  induction 1 as [ok1 ok2 a Hok Hm|w w' a a' ok1 ok2 _ IH _ Hok Hc].
  - exact (mount_audio_inv _ _ _ _ _ Hok Hm).
  - exact (audio_commit_inv _ _ _ _ _ _ _ Hok IH Hc).
Qed.

Lemma audio_run_reachable `{FlavorService} t0 mf w a : audio_run t0 mf w a -> reachable t0 w.
Proof. induction 1 as [|w w' a a' ok1 ok2 _ IH Hs]; [apply rtc_refl|exact (rtc_r _ _ _ IH Hs)]. Qed.

Lemma audio_commit_some ok1 ok2 o s a :
  0 <= currentTrackIndex s < Media.track_count -> is_Some (audio_commit ok1 ok2 o s a).
Proof.
  intros Hi. unfold audio_commit.
  destruct (decide (currentTrackIndex o = currentTrackIndex s)) as [Et|Et];
    [rewrite (bool_decide_eq_true_2 _ Et); by eexists|rewrite (bool_decide_eq_false_2 _ Et)].
  unfold track_effect. destruct (track_url_in_range _ Hi) as [url ->]. cbn. by eexists.
Qed.

Lemma run_audio_sound `{FlavorService} t0 mf es w a w' a' :
  audio_run t0 mf w a -> run_audio es w a = Some (w', a') -> audio_run t0 mf w' a'.
Proof.
  revert w a. induction es as [|e es IH]; intros w a Hr; cbn; [by intros [= <- <-]|].
  destruct (world_step e w) as [w1|] eqn:Hs; cbn; [|discriminate].
  destruct (audio_commit true true _ _ a) as [a1|] eqn:Ec; cbn; [|discriminate].
  apply IH. eapply ar_step; [exact Hr|econstructor; exact Hs|done|exact Ec].
Qed.

Lemma run_audio_mount `{FlavorService} t0 mf es w a :
  (a0 ← mount_audio true true (app (initial_world t0)); run_audio es (initial_world t0) a0) = Some (w, a) ->
  audio_run t0 mf w a.
Proof.
  destruct (mount_audio true true _) as [a0|] eqn:Em; [|discriminate]. rewrite option_bind_Some.
  apply run_audio_sound. by apply ar_mount with true true.
Qed.

(** ** Properties *)

(** C30: with every [play()] succeeding, the music follows the timer: in
    every page of a run the element plays exactly when the session is
    RUNNING and the music is on, and its source is the URL of the track
    [currentTrackIndex] selects. *)
Theorem music_follows_timer `{FlavorService} t0 w a :
  audio_run t0 false w a ->
  a_paused a = negb (bool_decide (timerState (app w) = RUNNING) && isMusicOn (app w)) /\
  track_url (currentTrackIndex (app w)) = Some (a_src a).
Proof. intros Hr. destruct (audio_run_inv _ _ _ _ Hr) as [He _ Hsrc _ _]. split; [exact (He eq_refl)|exact Hsrc]. Qed.

(** C31: whatever [play()] calls the browser refuses, the music never
    plays unless the session is RUNNING and the music is on: pausing,
    finishing, abandoning or switching the music off always pauses it. *)
Theorem music_only_when_running `{FlavorService} t0 w a :
  audio_run t0 true w a -> a_paused a = false -> timerState (app w) = RUNNING /\ isMusicOn (app w) = true.
Proof.
  intros Hr Hp. pose proof (ai_safe _ _ _ (audio_run_inv _ _ _ _ Hr) Hp) as Hw.
  unfold wants in Hw. apply andb_prop in Hw as [Hw Hm]. by apply bool_decide_eq_true_1 in Hw.
Qed.

(** C32: the effects never read [MUSIC_TRACKS] out of range: the mount
    effects and every later commit of a run produce an element, whichever
    [play()] calls succeed. *)
Theorem audio_effects_total `{FlavorService} t0 mf w a w' ok1 ok2 :
  is_Some (mount_audio ok1 ok2 (app (initial_world t0))) /\
  (audio_run t0 mf w a -> step w w' -> is_Some (audio_commit ok1 ok2 (app w) (app w') a)).
Proof.
  split; [by vm_compute; eexists|]. intros Hr Hs. apply audio_commit_some.
  assert (Hw : reachable t0 w') by (eapply rtc_r; [exact (audio_run_reachable _ _ _ _ Hr)|exact Hs]).
  exact (ri_track _ (registry_steps _ _ Hw initial_registry_inv)).
Qed.

(** The Work session of [demo_events] with the music switched on first. *)
Definition music_events : list (@Event AnyOutcome) :=
  [User ToggleMusic; User (SelectLabel work_label); User Depart; User (TicketComplete "2B"); User NextTrack].

Definition music_demo : option (World * Audio) :=
  a0 ← mount_audio true true (app (initial_world 0)); run_audio music_events (initial_world 0) a0.

Definition music_world : World := from_option fst (initial_world 0) music_demo.
Definition music_audio : Audio := from_option snd new_Audio music_demo.

Lemma music_demo_run mf : audio_run (H:=AnyOutcome) 0 mf music_world music_audio.
Proof. apply (run_audio_mount 0 mf music_events). vm_compute. reflexivity. Qed.

Lemma music_follows_timer_witness :
  a_paused music_audio = false /\
  a_paused music_audio = negb (bool_decide (timerState (app music_world) = RUNNING) && isMusicOn (app music_world)) /\
  track_url (currentTrackIndex (app music_world)) = Some (a_src music_audio).
Proof.
  split; [vm_compute; reflexivity|]. apply (music_follows_timer (H:=AnyOutcome) 0). apply music_demo_run.
Defined.

Lemma music_only_when_running_witness :
  a_paused music_audio = false /\ timerState (app music_world) = RUNNING /\ isMusicOn (app music_world) = true.
Proof.
  split; [vm_compute; reflexivity|]. apply (music_only_when_running (H:=AnyOutcome) 0 _ music_audio).
  - apply music_demo_run.
  - vm_compute. reflexivity.
Defined.

Lemma audio_effects_total_witness :
  exists w', world_step (F:=AnyOutcome) (User PrevTrack) music_world = Some w' /\
  is_Some (mount_audio true false (app (initial_world 0))) /\
  is_Some (audio_commit true false (app music_world) (app w') music_audio).
Proof.
  eexists. split; [vm_compute; reflexivity|].
  match goal with |- _ /\ is_Some (audio_commit _ _ _ (app ?w') _) =>
    destruct (audio_effects_total (H:=AnyOutcome) 0 true music_world music_audio w' true false) as [Hm Hc] end.
  split; [exact Hm|]. apply Hc; [apply music_demo_run|].
  apply (step_event (User PrevTrack)). vm_compute. reflexivity.
Defined.

End Audio.
