(* ===== verification/Display.v ===== *)
(** * What the page prints: the display helpers of src/App.tsx

    [formatTime] (lines 459-468) prints the countdown as [M:SS] or
    [H:MM:SS]; [formatDurationDisplay] (lines 471-477) prints a
    destination's duration in hours; [getLabelColorClasses] (lines
    480-509) picks the classes of a label chip; [progress] (line 381) is
    the width of the progress bar.  Beside them, a decoder [read_clock]
    reads a printed clock back, for the round trip of [formatTime]. *)

From Stdlib Require Import ZArith QArith Qround Qabs String Ascii Lia Lqa.
From stdpp Require Import base list strings pretty numbers decidable.
From S2P Require Import Prelude JsRuntime Types Catalog AppState Session Remote Scheduler Invariants Behaviour.
Import Scheduler.

Local Open Scope string_scope.
Local Open Scope Z_scope.

Module Display.

(** ** [formatTime] *)

(** [n.toString().padStart(2, '0')]. *)
Definition pad2 (n : Z) : string := js_pad_start 2 "0"%char (js_to_string n).

(** [formatTime(seconds)] (lines 459-468).  JavaScript's [%] is [Z.rem]. *)
Definition formatTime (seconds : Z) : string :=
  let h := js_floor_div seconds 3600 in
  let m := js_floor_div (Z.rem seconds 3600) 60 in
  let s := Z.rem seconds 60 in
  if bool_decide (0 < h) then js_to_string h +:+ ":" +:+ pad2 m +:+ ":" +:+ pad2 s
  else pad2 m +:+ ":" +:+ pad2 s.

(** ** [getLabelColorClasses] *)

(** The object [map] of [getLabelColorClasses] (lines 482-501), its keys
    in the source's order. *)
Definition label_class_map (isSelected : bool) : list (string * string) := [
  ("indigo", if isSelected then "bg-indigo-600 text-white border-indigo-400" else "bg-indigo-900/40 text-indigo-200 border-indigo-800/50 hover:bg-indigo-900/60");
  ("blue", if isSelected then "bg-blue-600 text-white border-blue-400" else "bg-blue-900/40 text-blue-200 border-blue-800/50 hover:bg-blue-900/60");
  ("yellow", if isSelected then "bg-yellow-600 text-white border-yellow-400" else "bg-yellow-900/40 text-yellow-200 border-yellow-800/50 hover:bg-yellow-900/60");
  ("emerald", if isSelected then "bg-emerald-600 text-white border-emerald-400" else "bg-emerald-900/40 text-emerald-200 border-emerald-800/50 hover:bg-emerald-900/60");
  ("pink", if isSelected then "bg-pink-600 text-white border-pink-400" else "bg-pink-900/40 text-pink-200 border-pink-800/50 hover:bg-pink-900/60");
  ("fuchsia", if isSelected then "bg-fuchsia-600 text-white border-fuchsia-400" else "bg-fuchsia-900/40 text-fuchsia-200 border-fuchsia-800/50 hover:bg-fuchsia-900/60");
  ("orange", if isSelected then "bg-orange-600 text-white border-orange-400" else "bg-orange-900/40 text-orange-200 border-orange-800/50 hover:bg-orange-900/60");
  ("cyan", if isSelected then "bg-cyan-600 text-white border-cyan-400" else "bg-cyan-900/40 text-cyan-200 border-cyan-800/50 hover:bg-cyan-900/60");
  ("red", if isSelected then "bg-red-600 text-white border-red-400" else "bg-red-900/40 text-red-200 border-red-800/50 hover:bg-red-900/60");
  ("amber", if isSelected then "bg-amber-600 text-white border-amber-400" else "bg-amber-900/40 text-amber-200 border-amber-800/50 hover:bg-amber-900/60");
  ("lime", if isSelected then "bg-lime-600 text-white border-lime-400" else "bg-lime-900/40 text-lime-200 border-lime-800/50 hover:bg-lime-900/60");
  ("teal", if isSelected then "bg-teal-600 text-white border-teal-400" else "bg-teal-900/40 text-teal-200 border-teal-800/50 hover:bg-teal-900/60");
  ("sky", if isSelected then "bg-sky-600 text-white border-sky-400" else "bg-sky-900/40 text-sky-200 border-sky-800/50 hover:bg-sky-900/60");
  ("violet", if isSelected then "bg-violet-600 text-white border-violet-400" else "bg-violet-900/40 text-violet-200 border-violet-800/50 hover:bg-violet-900/60");
  ("purple", if isSelected then "bg-purple-600 text-white border-purple-400" else "bg-purple-900/40 text-purple-200 border-purple-800/50 hover:bg-purple-900/60");
  ("rose", if isSelected then "bg-rose-600 text-white border-rose-400" else "bg-rose-900/40 text-rose-200 border-rose-800/50 hover:bg-rose-900/60");
  ("green", if isSelected then "bg-green-600 text-white border-green-400" else "bg-green-900/40 text-green-200 border-green-800/50 hover:bg-green-900/60")
].

(** The classes [getLabelColorClasses] builds for a colour it has no
    entry for (line 504). *)
Definition color_template (color : string) (isSelected : bool) : string :=
  if isSelected then "bg-" +:+ color +:+ "-600 text-white border-" +:+ color +:+ "-400"
  else "bg-" +:+ color +:+ "-900/40 text-" +:+ color +:+ "-200 border-" +:+ color +:+
       "-800/50 hover:bg-" +:+ color +:+ "-900/60".

(** What [getLabelColorClasses] returns: a string of classes, or the
    member of [Object.prototype] that [map[color]] found (a function, or
    the prototype object for [__proto__]), which is truthy and returned
    as it is. *)
Variant LabelClasses :=
  | Classes (s : string)
  | InheritedMember (k : string).

(** [getLabelColorClasses(color, isSelected)] (lines 480-508): [map[color]]
    is read twice (lines 503 and 507), with JavaScript's property lookup. *)
Definition getLabelColorClasses (color : string) (isSelected : bool) : LabelClasses :=
  match js_get (label_class_map isSelected) color with
  | JsOwn v => if js_truthy_string v then Classes v else Classes (color_template color isSelected)
  | JsInherited k => InheritedMember k
  | JsUndefined => Classes (color_template color isSelected)
  end.

(** The result inside the template literals of lines 1063-1067 and 1270
    ([String(value)]): a built-in function prints as its native source text,
    in the form V8 gives it (the text is implementation-defined), and the
    prototype object as [[object Object]]. *)
Definition classes_text (c : LabelClasses) : string :=
  match c with
  | Classes s => s
  | InheritedMember k =>
      if bool_decide (k = "__proto__") then "[object Object]"
      else "function " +:+ (if bool_decide (k = "constructor") then "Object" else k) +:+ "() { [native code] }"
  end.

(** ** [progress] *)

(** [Math.min] and [Math.max] on finite numbers. *)
Definition js_min (a b : Q) : Q := if Qle_bool a b then a else b.
Definition js_max (a b : Q) : Q := if Qle_bool a b then b else a.

(** [Math.max(0, Math.min(100, ((initialDuration - timeLeft) /
    initialDuration) * 100))] (line 381).  [None] is [NaN], the value for
    [0 / 0]; with [initialDuration = 0] and [timeLeft <> 0] the quotient is
    an infinity, which the clamps turn into 0 or 100. *)
Definition progress (s : App) : option Q :=
  if bool_decide (initialDuration s = 0) then
    (if bool_decide (timeLeft s = 0) then None else if bool_decide (0 < timeLeft s) then Some 0%Q else Some 100%Q)
  else Some (js_max 0 (js_min 100 (inject_Z (initialDuration s - timeLeft s) / inject_Z (initialDuration s) * 100))).

(** ** [formatDurationDisplay] *)

(** [x.toFixed(1)] for [0 <= x < 10^21]: [n] is the integer nearest to
    [10 x], the larger one on a tie, printed with one decimal. *)
Definition fixed1 (x : Q) : string :=
  let n := Qfloor (x * 10 + (1 # 2)) in js_to_string (n / 10) +:+ "." +:+ js_to_string (n mod 10).

(** [x.toFixed(1)]: a negative [x] is printed as [-] and [(-x).toFixed(1)]. *)
Definition js_toFixed1 (x : Q) : string := if Qle_bool 0 x then fixed1 x else "-" +:+ fixed1 (- x).

(** [s.replace(/\.0$/, '')]. *)
Fixpoint strip_dot0 (s : string) : string :=
  match s with
  | EmptyString => EmptyString
  | String c s' => if bool_decide (c = "."%char /\ s' = "0") then EmptyString else String c (strip_dot0 s')
  end.

(** [formatDurationDisplay(minutes)] (lines 471-477).  [Number.isInteger]
    of [minutes / 60] is [minutes mod 60 = 0] for an integer [minutes].
    [toFixed] rounds the double nearest to [minutes / 60]; the rational
    is rounded here, which gives the same digits for every duration of
    the catalog (the only arguments the page passes, line 1043). *)
Definition formatDurationDisplay (minutes : Z) : string :=
  let hours := (inject_Z minutes / 60)%Q in
  if bool_decide (minutes mod 60 = 0) then js_to_string (minutes / 60) +:+ "h"
  else strip_dot0 (js_toFixed1 hours) +:+ "h".

(** ** The Travel Log *)

(** The label pill of an entry (lines 1269-1274). *)
Record LogPill := mkPill { pill_classes : string; pill_icon : option string; pill_name : string; pill_sub : string }.

(** One entry of the Travel Log (lines 1256-1298); the start time, printed
    with [toLocaleTimeString], is not modelled. *)
Record LogEntry := mkEntry {
  le_image : option string; le_pill : option LogPill; le_minutes : Z;
  le_title : string; le_theme : string; le_seat : option string; le_task : option string
}.

(** [a || b] for a number [a] that may be [undefined]: [0] is falsy. *)
Definition js_or_num (a : option Z) (b : Z) : Z :=
  match a with Some x => if bool_decide (x = 0) then b else x | None => b end.

Definition log_entry (x : FocusSession.t) : LogEntry :=
  let dn := Destination.name <$> FocusSession.destination x in
  let sn := Station.name <$> FocusSession.station x in
  mkEntry
    (match FocusSession.destination x with
     | Some d => if js_truthy_string (Destination.imageUrl d) then Some (Destination.imageUrl d) else None
     | None => None
     end)
    ((fun l => mkPill (classes_text (getLabelColorClasses (MissionLabel.color l) false)) (MissionLabel.icon l) (MissionLabel.name l)
        (if js_truthy_opt_string (FocusSession.subLabel x) then "• " +:+ from_option id "" (FocusSession.subLabel x) else ""))
       <$> FocusSession.label x)
    (js_or_num (FocusSession.actualDurationMinutes x) (FocusSession.durationMinutes x))
    (if js_truthy_opt_string dn then from_option id "" dn
     else if js_truthy_opt_string sn then from_option id "" sn else "Unknown")
    (let th := Destination.themeColor <$> FocusSession.destination x in
     if js_truthy_opt_string th then from_option id "" th else "text-white")
    (if js_truthy_opt_string (FocusSession.seat x) then FocusSession.seat x else None)
    (if js_truthy_string (FocusSession.task x) then Some (FocusSession.task x) else None).

(** The Travel Log (lines 1252-1301): shown while IDLE with a non-empty
    history, one entry per session, newest first. *)
Definition travel_log (s : App) : option (list LogEntry) :=
  if bool_decide (sessions s <> [] /\ timerState s = IDLE) then Some (log_entry <$> sessions s) else None.

(** ** Reading a printed clock back *)

Definition digit_of (c : ascii) : option N :=
  let n := N_of_ascii c in if bool_decide (48 <= n <= 57)%N then Some (n - 48)%N else None.

Fixpoint read_digits (acc : N) (s : string) : option N :=
  match s with
  | EmptyString => Some acc
  | String c s' => d ← digit_of c; read_digits (acc * 10 + d)%N s'
  end.

(** The fields of a string between separators [sep]. *)
Fixpoint split_on (sep : ascii) (s : string) : list string :=
  match s with
  | EmptyString => [EmptyString]
  | String c s' =>
      if bool_decide (c = sep) then EmptyString :: split_on sep s'
      else match split_on sep s' with
           | [] => [String c EmptyString]
           | x :: xs => String c x :: xs
           end
  end.

Fixpoint has_char (c : ascii) (s : string) : bool :=
  match s with
  | EmptyString => false
  | String d s' => bool_decide (d = c) || has_char c s'
  end.

(** [M:SS] or [H:MM:SS], as a number of seconds. *)
Definition read_clock (s : string) : option Z :=
  match split_on ":" s with
  | [m; sec] => m' ← read_digits 0 m; s' ← read_digits 0 sec; Some (60 * Z.of_N m' + Z.of_N s')
  | [h; m; sec] =>
      h' ← read_digits 0 h; m' ← read_digits 0 m; s' ← read_digits 0 sec;
      Some (3600 * Z.of_N h' + 60 * Z.of_N m' + Z.of_N s')
  | _ => None
  end.

(** [A], [A.D] followed by [h], as a number of hours. *)
Definition read_hours (s : string) : option Q :=
  match split_on "h" s with
  | [body; EmptyString] =>
      match split_on "." body with
      | [a] => a' ← read_digits 0 a; Some (inject_Z (Z.of_N a'))
      | [a; b] =>
          if bool_decide (String.length b = 1%nat) then
            a' ← read_digits 0 a; b' ← read_digits 0 b; Some (inject_Z (Z.of_N a') + inject_Z (Z.of_N b') / 10)%Q
          else None
      | _ => None
      end
  | _ => None
  end.

(** ** Lemmas of the decoder *)

Lemma digit_of_char x : (x < 10)%N -> digit_of (pretty_N_char x) = Some x.
Proof.
  intros Hx. rewrite <- (N2Nat.id x). assert (Hk : (N.to_nat x < 10)%nat) by lia.
  revert Hk. generalize (N.to_nat x) as k. intros k Hk.
  do 10 (destruct k as [|k]; [reflexivity|]). lia.
Qed.

Lemma read_digits_pretty_go x s : read_digits 0 (pretty_N_go x s) = read_digits x s.
Proof.
  revert s. induction x as [x IH] using (well_founded_induction N.lt_wf_0). intros s.
  destruct (decide (x = 0%N)) as [->|Hx]; [by rewrite pretty_N_go_0|].
  rewrite pretty_N_go_step by lia. rewrite IH by (apply N.div_lt; lia). cbn.
  rewrite digit_of_char by (apply N.mod_lt; lia). cbn.
  by rewrite N.mul_comm, <- N.div_mod by lia.
Qed.

Lemma read_pretty n : read_digits 0 (pretty n) = Some n.
Proof.
  unfold pretty, pretty_N. case_decide as Hn; [by subst|].
  by rewrite read_digits_pretty_go.
Qed.

Lemma read_js_to_string n : 0 <= n -> read_digits 0 (js_to_string n) = Some (Z.to_N n).
Proof. intros Hn. unfold js_to_string. rewrite bool_decide_eq_false_2 by lia. apply read_pretty. Qed.

Lemma concat_zeros k :
  String.concat "" (repeat (String "0" EmptyString) (S k)) = String "0" (String.concat "" (repeat (String "0" EmptyString) k)).
Proof. by destruct k. Qed.

Lemma read_pad_start w t : read_digits 0 (js_pad_start w "0"%char t) = read_digits 0 t.
Proof.
  unfold js_pad_start. induction (w - String.length t)%nat as [|k IH]; [reflexivity|].
  by rewrite concat_zeros.
Qed.

Lemma read_pad2 n : 0 <= n -> read_digits 0 (pad2 n) = Some (Z.to_N n).
Proof. intros Hn. unfold pad2. rewrite read_pad_start. by apply read_js_to_string. Qed.

Lemma has_char_app c a b : has_char c (a +:+ b) = has_char c a || has_char c b.
Proof.
  induction a as [|d a IH]; [done|].
  change (has_char c (String d a +:+ b)) with (bool_decide (d = c) || has_char c (a +:+ b)).
  rewrite IH. cbn [has_char]. by rewrite orb_assoc.
Qed.

Lemma split_on_app sep a b :
  has_char sep a = false -> split_on sep (a +:+ String sep EmptyString +:+ b) = a :: split_on sep b.
Proof.
  induction a as [|c a IH]; [intros _; change (EmptyString +:+ String sep EmptyString +:+ b) with (String sep b); cbn [split_on]; by rewrite bool_decide_eq_true_2|].
  intros [Hc Ha]%orb_false_elim.
  change (String c a +:+ String sep EmptyString +:+ b) with (String c (a +:+ String sep EmptyString +:+ b)).
  cbn [split_on]. rewrite (IH Ha), Hc. done.
Qed.

Lemma split_on_single sep a : has_char sep a = false -> split_on sep a = [a].
Proof.
  induction a as [|c a IH]; cbn; [done|]. intros [Hc Ha]%orb_false_elim.
  rewrite (IH Ha). apply bool_decide_eq_false_1 in Hc. rewrite bool_decide_eq_false_2; [done|]. intros ->. done.
Qed.

Lemma read_digits_no_char sep acc a v :
  digit_of sep = None -> read_digits acc a = Some v -> has_char sep a = false.
Proof.
  intros Hs. revert acc. induction a as [|c a IH]; intros acc; [done|]. cbn.
  destruct (digit_of c) as [d|] eqn:Hd; cbn; [|discriminate]. intros Hr.
  rewrite (IH _ Hr), orb_false_r. apply bool_decide_eq_false_2. intros ->. congruence.
Qed.

Lemma read_pad2_some n : 0 <= n -> read_digits 0 (pad2 n) = Some (Z.to_N n) /\ has_char ":" (pad2 n) = false.
Proof. intros Hn. pose proof (read_pad2 n Hn) as Hr. split; [exact Hr|exact (read_digits_no_char ":" _ _ _ eq_refl Hr)]. Qed.

Lemma str_app_assoc (a b c : string) : (a +:+ b) +:+ c = a +:+ (b +:+ c).
Proof. induction a as [|d a IH]; [reflexivity|]. exact (f_equal (String d) IH). Qed.

Lemma str_app_nil_r (a : string) : a +:+ EmptyString = a.
Proof. induction a as [|d a IH]; [reflexivity|]. exact (f_equal (String d) IH). Qed.

Lemma split_on_end sep a : has_char sep a = false -> split_on sep (a +:+ String sep EmptyString) = [a; EmptyString].
Proof. intros H. exact (split_on_app sep a EmptyString H). Qed.

Lemma read_js_digits sep n : 0 <= n -> digit_of sep = None -> has_char sep (js_to_string n) = false.
Proof. intros Hn Hs. exact (read_digits_no_char _ _ _ _ Hs (read_js_to_string n Hn)). Qed.

Lemma small_digit d :
  0 <= d < 10 -> String.length (js_to_string d) = 1%nat /\
  strip_dot0 ("." +:+ js_to_string d) = if bool_decide (d = 0) then EmptyString else "." +:+ js_to_string d.
Proof.
  intros Hd. assert (H : d = 0 \/ d = 1 \/ d = 2 \/ d = 3 \/ d = 4 \/ d = 5 \/ d = 6 \/ d = 7 \/ d = 8 \/ d = 9) by lia.
  repeat (destruct H as [->|H]; [split; reflexivity|]). subst. split; reflexivity.
Qed.

Lemma strip_dot0_digits a t : has_char "." a = false -> strip_dot0 (a +:+ t) = a +:+ strip_dot0 t.
Proof.
  induction a as [|c a IH]; [reflexivity|]. intros [Hc Ha]%orb_false_elim.
  change (strip_dot0 (String c (a +:+ t)) = String c (a +:+ strip_dot0 t)). cbn [strip_dot0].
  rewrite bool_decide_eq_false_2, IH by (done || (intros [-> _]; done)). reflexivity.
Qed.

Lemma read_hours_int a : 0 <= a -> read_hours (js_to_string a +:+ "h") = Some (inject_Z a).
Proof.
  intros Ha. unfold read_hours. rewrite split_on_end by (by apply read_js_digits).
  rewrite split_on_single by (by apply read_js_digits). rewrite read_js_to_string by done. cbn.
  by rewrite Z2N.id.
Qed.

Lemma read_hours_dec a d :
  0 <= a -> 1 <= d < 10 ->
  read_hours ((js_to_string a +:+ "." +:+ js_to_string d) +:+ "h") = Some (inject_Z a + inject_Z d / 10)%Q.
Proof.
  intros Ha Hd. destruct (small_digit d) as [Hl _]; [lia|]. unfold read_hours.
  rewrite split_on_end by (rewrite !has_char_app, !read_js_digits by (done || lia); done).
  rewrite split_on_app by (by apply read_js_digits). rewrite split_on_single by (apply read_js_digits; [lia|done]).
  rewrite Hl, bool_decide_eq_true_2 by done. rewrite !read_js_to_string by lia. cbn.
  by rewrite !Z2N.id by lia.
Qed.

Lemma round_tenth_bound (x : Q) n :
  (inject_Z n <= x * 10 + (1 # 2))%Q -> (x * 10 + (1 # 2) < inject_Z (n + 1))%Q ->
  (Qabs (inject_Z n / 10 - x) <= 1 # 20)%Q.
Proof.
  rewrite inject_Z_plus. change (inject_Z 1) with 1%Q. intros H1 H2. apply Qabs_Qle_condition. unfold Qdiv. change (/ 10)%Q with (1 # 10)%Q. split; lra.
Qed.

Lemma str_length_app (a b : string) : String.length (a +:+ b) = (String.length a + String.length b)%nat.
Proof. induction a as [|d a IH]; [reflexivity|]. exact (f_equal S IH). Qed.

Lemma pad2_length_all : Forall (fun k => String.length (pad2 (Z.of_nat k)) = 2%nat) (seq 0 60).
Proof. apply (bool_decide_unpack _). vm_compute. reflexivity. Qed.

Lemma pad2_length k : 0 <= k < 60 -> String.length (pad2 k) = 2%nat.
Proof.
  intros Hk. pose proof pad2_length_all as Hf. rewrite Forall_forall in Hf.
  rewrite <- (Z2Nat.id k) by lia. apply Hf, in_seq. lia.
Qed.

(** ** Properties *)

Lemma read_formatTime n : 0 <= n -> read_clock (formatTime n) = Some n.
Proof.
  intros Hn.
  unfold formatTime, js_floor_div. rewrite !Z.rem_mod_nonneg by lia.
  assert (Hm : 0 <= n mod 3600 / 60) by (apply Z.div_pos; [apply Z.mod_pos_bound|]; lia).
  assert (Hs : 0 <= n mod 60) by (apply Z.mod_pos_bound; lia).
  destruct (read_pad2_some _ Hm) as [Rm Sm]. destruct (read_pad2_some _ Hs) as [Rs Ss].
  assert (Hmod : n mod 3600 = 60 * (n mod 3600 / 60) + n mod 60).
  { rewrite (Z.div_mod (n mod 3600) 60) at 1 by lia. f_equal.
    apply Z.mod_mod_divide. exists 60. reflexivity. }
  case_bool_decide as Hh.
  - assert (Rh : read_digits 0 (js_to_string (n / 3600)) = Some (Z.to_N (n / 3600))) by (apply read_js_to_string; lia).
    unfold read_clock. rewrite (split_on_app _ _ _ (read_digits_no_char ":" _ _ _ eq_refl Rh)).
    rewrite (split_on_app _ _ _ Sm), (split_on_single _ _ Ss), Rh, Rm, Rs. cbn. f_equal. rewrite !Z2N.id by lia.
    rewrite (Z.div_mod n 3600) at 4 by lia. lia.
  - unfold read_clock. rewrite (split_on_app _ _ _ Sm), (split_on_single _ _ Ss), Rm, Rs. cbn. f_equal.
    rewrite !Z2N.id by lia. assert (Hlt : n < 3600).
    { destruct (Z.lt_ge_cases n 3600); [done|]. exfalso. apply Hh, Z.div_str_pos. lia. }
    rewrite Z.mod_small in Hmod |- * by lia. lia.
Qed.

Lemma formatTime_length n : 0 <= n < 3600 -> String.length (formatTime n) = 5%nat.
Proof.
  intros Hn. unfold formatTime, js_floor_div. rewrite !Z.rem_mod_nonneg by lia.
  rewrite bool_decide_eq_false_2 by (rewrite Z.div_small by lia; lia).
  rewrite !str_length_app, !pad2_length; [reflexivity| |]; rewrite ?Z.mod_small by lia;
    [apply Z.mod_pos_bound|split; [apply Z.div_pos|apply Z.div_lt_upper_bound]]; lia.
Qed.

(** C33: the countdown display reads back as the seconds it shows: for
    every non-negative number of seconds, [formatTime] prints [MM:SS]
    (five characters) below an hour and [H:MM:SS] from an hour on, and
    reading the fields back gives the same number of seconds. *)
Theorem formatTime_roundtrip n :
  0 <= n -> read_clock (formatTime n) = Some n /\ (n < 3600 -> String.length (formatTime n) = 5%nat).
Proof. intros Hn. split; [exact (read_formatTime n Hn)|intros Hlt; apply formatTime_length; lia]. Qed.

Lemma label_class_map_template b :
  Forall (fun kv => kv.2 = color_template kv.1 b /\ js_truthy_string kv.2 = true) (label_class_map b).
Proof. apply (bool_decide_unpack _). destruct b; vm_compute; reflexivity. Qed.

(** No key of the table names a member of [Object.prototype]. *)
Lemma label_class_keys_plain b : Forall (fun k => k ∉ object_prototype_keys) (label_class_map b).*1.
Proof. apply (bool_decide_unpack _). destruct b; vm_compute; reflexivity. Qed.

Lemma js_min_le a b : (a <= b)%Q -> js_min a b == a.
Proof.
  intros H. unfold js_min. destruct (Qle_bool a b) eqn:E; [reflexivity|].
  apply Qle_bool_iff in H. congruence.
Qed.

Lemma js_min_ge a b : (b <= a)%Q -> js_min a b == b.
Proof.
  intros H. unfold js_min. destruct (Qle_bool a b) eqn:E; [|reflexivity].
  apply Qle_bool_iff in E. by apply Qle_antisym.
Qed.

Lemma js_max_le a b : (a <= b)%Q -> js_max a b == b.
Proof. intros H. unfold js_max. by rewrite (proj2 (Qle_bool_iff a b) H). Qed.

Lemma progress_ratio_bounds i l :
  0 < i -> 0 <= l <= i -> (0 <= inject_Z (i - l) / inject_Z i * 100 <= 100)%Q.
Proof.
  intros Hi Hl. assert (Hq : (0 < inject_Z i)%Q) by (change 0%Q with (inject_Z 0); rewrite <- Zlt_Qlt; lia). split.
  - apply Qmult_le_0_compat; [|discriminate]. apply Qle_shift_div_l; [exact Hq|].
    rewrite Qmult_0_l. change 0%Q with (inject_Z 0). rewrite <- Zle_Qle. lia.
  - rewrite <- (Qmult_1_l 100) at 2. apply Qmult_le_compat_r; [|discriminate].
    apply Qle_shift_div_r; [exact Hq|]. rewrite Qmult_1_l, <- Zle_Qle. lia.
Qed.

(** C35: for every colour and selection state, [getLabelColorClasses]
    gives the classes of its fallback template, [bg-<colour>-600 ...]
    (selected) or [bg-<colour>-900/40 ...], whether or not the colour is a
    key of its table (every entry of the table is that template), except
    for a colour named after a member of [Object.prototype]
    ([constructor], [toString], ...), for which [map[color]] finds the
    inherited member and returns it instead of a string. *)
Theorem label_classes_template color isSelected :
  getLabelColorClasses color isSelected =
    if bool_decide (color ∈ object_prototype_keys) then InheritedMember color
    else Classes (color_template color isSelected).
Proof.
  unfold getLabelColorClasses. destruct (decide (color ∈ (label_class_map isSelected).*1)) as [Hk|Hk].
  - destruct (js_get_in_keys _ _ Hk) as (v & -> & Hin).
    pose proof (label_class_map_template isSelected) as Hf. rewrite Forall_forall in Hf.
    destruct (Hf _ (proj1 (list_elem_of_In _ _) Hin)) as [Hv Ht]. cbn in Hv, Ht. rewrite Ht, Hv.
    pose proof (label_class_keys_plain isSelected) as Hp. rewrite Forall_forall in Hp.
    by rewrite bool_decide_eq_false_2 by exact (Hp _ (proj1 (list_elem_of_In _ _) Hk)).
  - rewrite js_get_not_own by exact Hk. by case_bool_decide.
Qed.

(** C36: on every reachable page the progress bar's width is a number
    between 0 and 100, never [NaN], and the clamps never act: it is the
    elapsed share [(initialDuration - timeLeft) / initialDuration] of the
    trip, in percent. *)
Theorem progress_bounds `{FlavorService} t0 w :
  reachable t0 w ->
  exists p, progress (app w) = Some p /\ (0 <= p <= 100)%Q /\
    p == inject_Z (initialDuration (app w) - timeLeft (app w)) / inject_Z (initialDuration (app w)) * 100.
Proof.
  intros Hr. destruct (wi_app _ (reachable_world_inv _ _ Hr)) as [Ht _].
  pose proof (ti_init_pos _ Ht) as Hi. pose proof (ti_left_nonneg _ Ht). pose proof (ti_left_le _ Ht).
  destruct (progress_ratio_bounds (initialDuration (app w)) (timeLeft (app w))) as [Hp0 Hp100]; [lia|lia|].
  unfold progress. rewrite bool_decide_eq_false_2 by lia. eexists. split; [reflexivity|].
  rewrite js_max_le; rewrite (js_min_ge _ _ Hp100); [|exact Hp0]. split; [split|]; [exact Hp0|exact Hp100|reflexivity].
Qed.

Lemma progress_bounds_witness :
  exists p, progress (app demo_world) = Some p /\ (0 <= p <= 100)%Q /\
    p == inject_Z (initialDuration (app demo_world) - timeLeft (app demo_world)) / inject_Z (initialDuration (app demo_world)) * 100.
Proof. apply (progress_bounds (H:=AnyOutcome) 0). exact demo_reachable. Defined.

(** C34: a destination's duration label reads back as its length in hours
    to the nearest tenth: for every non-negative number of minutes the
    label is [<hours>h] or [<hours>.<tenth>h], reading it back gives a
    number of hours within 1/20 of [minutes / 60], and the exact number
    when the duration is a whole number of hours.  (On a tie the double
    may round down where the rational rounds up; both are 1/20 away.) *)
Theorem formatDuration_reads m :
  0 <= m ->
  exists q, read_hours (formatDurationDisplay m) = Some q /\ (Qabs (q - inject_Z m / 60) <= 1 # 20)%Q /\
    (m mod 60 = 0 -> q == inject_Z m / 60).
Proof.
  intros Hm. unfold formatDurationDisplay. case_bool_decide as Hmod.
  - exists (inject_Z (m / 60)). rewrite read_hours_int by (apply Z.div_pos; lia).
    assert (E : inject_Z (m / 60) == inject_Z m / 60).
    { rewrite (Z.div_mod m 60) at 2 by lia. rewrite Hmod, Z.add_0_r, inject_Z_mult. field. }
    split; [done|]. split; [|done].
    assert (E0 : inject_Z (m / 60) - inject_Z m / 60 == 0) by (rewrite E; ring). rewrite E0. discriminate.
  - assert (Hx : Qle_bool 0 (inject_Z m / 60) = true).
    { apply Qle_bool_iff. apply Qle_shift_div_l; [reflexivity|]. rewrite Qmult_0_l.
      change 0%Q with (inject_Z 0). rewrite <- Zle_Qle. done. }
    unfold js_toFixed1, fixed1. rewrite Hx.
    set (n := Qfloor (inject_Z m / 60 * 10 + (1 # 2))).
    pose proof (Qfloor_le (inject_Z m / 60 * 10 + (1 # 2))) as H1. pose proof (Qlt_floor (inject_Z m / 60 * 10 + (1 # 2))) as H2.
    fold n in H1, H2. pose proof (round_tenth_bound _ _ H1 H2) as Hb.
    assert (Hn : 0 <= n).
    { assert (Hx0 : (0 <= inject_Z m / 60)%Q) by (by apply Qle_bool_iff). set (x := (inject_Z m / 60)%Q) in *.
      assert (Hq : (inject_Z 0 < inject_Z (n + 1))%Q) by (change (inject_Z 0) with 0%Q; lra).
      rewrite <- Zlt_Qlt in Hq. lia. }
    assert (Hr : 0 <= n mod 10 < 10) by (apply Z.mod_pos_bound; lia).
    assert (En : (inject_Z n / 10 == inject_Z (n / 10) + inject_Z (n mod 10) / 10)%Q).
    { rewrite (Z.div_mod n 10) at 1 by lia. rewrite inject_Z_plus, inject_Z_mult. field. }
    rewrite strip_dot0_digits by (by apply read_js_digits; [apply Z.div_pos; lia|]).
    destruct (small_digit (n mod 10) Hr) as [_ ->]. case_bool_decide as H0.
    + rewrite str_app_nil_r, read_hours_int by (apply Z.div_pos; lia). eexists. split; [reflexivity|].
      split; [|done]. rewrite H0 in En. assert (E1 : inject_Z n / 10 == inject_Z (n / 10)) by (rewrite En; field). by rewrite <- E1.
    + rewrite read_hours_dec by (apply Z.div_pos || lia; lia). eexists. split; [reflexivity|].
      split; [|done]. by rewrite <- En.
Qed.

Lemma formatDuration_reads_witness :
  0 <= 45 /\ exists q, read_hours (formatDurationDisplay 45) = Some q /\ (Qabs (q - inject_Z 45 / 60) <= 1 # 20)%Q /\
    (45 mod 60 = 0 -> q == inject_Z 45 / 60).
Proof. split; [lia|]. apply formatDuration_reads. lia. Defined.

(** The Work session of the demo page, finished early 45 s after boarding
    (45 countdown seconds and the first tip), then the user books the
    next trip. *)
(** An entry prints the planned minutes when the actual minutes are 0. *)
Lemma log_entry_zero x :
  FocusSession.actualDurationMinutes x = Some 0 -> le_minutes (log_entry x) = FocusSession.durationMinutes x.
Proof. intros H. unfold log_entry. cbn. by rewrite H. Qed.

(** C38 (a finding): the Travel Log shows the planned duration of every
    trip finished early within its first minute.  In every reachable world
    whose trip is running or paused with less than 60 s elapsed, Finish
    Early records [actualDurationMinutes = Math.floor(elapsed / 60) = 0],
    and the entry prints [Math.round(s.actualDurationMinutes ||
    s.durationMinutes)], where [0] is falsy: the entry shows the planned
    minutes, at least one, instead of the 0 minutes travelled. *)
Theorem travel_log_short_trip `{FlavorService} t0 w :
  reachable t0 w -> timerState (app w) = RUNNING \/ timerState (app w) = PAUSED ->
  initialDuration (app w) - timeLeft (app w) < 60 ->
  exists w', world_step (User FinishEarly) w = Some w' /\
    sessions (app w') = Session.newSession true (now w) (app w) :: sessions (app w) /\
    FocusSession.actualDurationMinutes (Session.newSession true (now w) (app w)) = Some 0 /\
    le_minutes (log_entry (Session.newSession true (now w) (app w))) = initialDuration (app w) / 60 /\
    0 < initialDuration (app w) / 60.
Proof.
  intros Hr Hs Hlt. destruct (wi_app _ (reachable_world_inv _ _ Hr)) as [Ht _].
  pose proof (ti_left_le _ Ht). pose proof (minutes_pos _ (ti_init_pos _ Ht) (ti_init_min _ Ht)).
  assert (Ha : FocusSession.actualDurationMinutes (Session.newSession true (now w) (app w)) = Some 0).
  { cbn. unfold js_floor_div. f_equal. apply Z.div_small. lia. }
  exists (apply_handler (Session.finishEarly (now w) (app w)) w). split.
  { cbn [world_step enabledb user_handler]. unfold main_ctl.
    destruct Hs as [E|E]; rewrite E; reflexivity. }
  destruct (apply_handler_plain (Session.finishEarly (now w) (app w)) w) as [-> _];
    [cbn; intros [? _]; discriminate|].
  split; [reflexivity|]. split; [exact Ha|]. split; [|exact H1].
  by rewrite (log_entry_zero _ Ha).
Qed.

(** The Work trip to Kyoto, 45 s after boarding. *)
Definition short_trip_world : World :=
  from_option id (initial_world 0)
    (run (F:=AnyOutcome) (([User (SelectLabel work_label); User Depart; User (TicketComplete "1A")] ++
                          repeat (Fire 0) 46)%list) (initial_world 0)).

Lemma short_trip_reachable : reachable (F:=AnyOutcome) 0 short_trip_world.
Proof.
  apply run_steps with (([User (SelectLabel work_label); User Depart; User (TicketComplete "1A")] ++
                        repeat (Fire 0) 46)%list).
  vm_compute. reflexivity.
Qed.

Lemma travel_log_short_trip_witness :
  now short_trip_world = 45000 /\
  exists w', world_step (F:=AnyOutcome) (User FinishEarly) short_trip_world = Some w' /\
    sessions (app w') = Session.newSession true (now short_trip_world) (app short_trip_world) ::
                        sessions (app short_trip_world) /\
    FocusSession.actualDurationMinutes (Session.newSession true (now short_trip_world) (app short_trip_world)) = Some 0 /\
    le_minutes (log_entry (Session.newSession true (now short_trip_world) (app short_trip_world))) =
      initialDuration (app short_trip_world) / 60 /\
    0 < initialDuration (app short_trip_world) / 60.
Proof.
  split; [vm_compute; reflexivity|].
  apply (travel_log_short_trip (H:=AnyOutcome) 0); [exact short_trip_reachable|left; vm_compute; reflexivity|].
  vm_compute. reflexivity.
Defined.

Lemma formatTime_roundtrip_witness :
  0 <= 1505 /\ read_clock (formatTime 1505) = Some 1505 /\ (1505 < 3600 -> String.length (formatTime 1505) = 5%nat).
Proof. split; [lia|]. apply formatTime_roundtrip. lia. Defined.

End Display.
