(* ===== verification/Page.v ===== *)
(** * The main page of src/App.tsx (lines 886-1301)

    [page_view] is what [App]'s render shows outside the modals: the
    weather and clock widget, the tip, the progress bar and route, the
    station panel with its source links, the countdown, the selectors of
    an IDLE page (destination cards, label chips, sub-labels, task), the
    buttons of each timer state, and below them the statistics section
    and the Travel Log.  Every button and input is an
    [Elem] that names the [UserEvent] its handler runs;
    [page_matches_enabledb] checks that the scheduler's [enabledb] lists
    exactly these controls.  The theorem of this file relates the
    statistics section to the Travel Log on every reachable page. *)

From Stdlib Require Import ZArith QArith String.
From stdpp Require Import base list strings decidable.
From S2P Require Import Prelude JsRuntime Types Catalog AppState Stats Remote Scheduler Invariants Display.
Import Scheduler Display.

Local Open Scope string_scope.
Local Open Scope Z_scope.

Module Page.

(** A control of the page and the event its handler runs. *)
Inductive Elem :=
  | Button (ev : UserEvent) (texts : list string)   (** [onClick], with the texts or title it shows *)
  | Confirm (id : string) (title : string)          (** a label's delete button: [handleDeleteLabel] asks [window.confirm] *)
  | Field (mk : string -> UserEvent) (value : string).   (** a text input: [onChange] with the typed value *)

(** Whether a control can run [ev]. *)
Definition triggers (e : Elem) (ev : UserEvent) : Prop :=
  match e with
  | Button ev' _ => ev = ev'
  | Confirm id _ => exists b, ev = DeleteLabel id b
  | Field mk _ => exists v, ev = mk v
  end.

(** A source link under the station (lines 944-955). *)
Record Source := mkSource { src_href : option string; src_maps_icon : bool; src_label : string }.

Definition source_of (c : GroundingChunk.t) : Source :=
  let wu := GroundingChunk.web_uri <$> GroundingChunk.web c in
  let wt := GroundingChunk.web_title <$> GroundingChunk.web c in
  let pn := GroundingChunk.maps c ≫= GroundingChunk.placeName in
  mkSource
    (if js_truthy_opt_string wu then wu else GroundingChunk.maps_uri <$> GroundingChunk.maps c)
    (bool_decide (is_Some (GroundingChunk.maps c)))
    (if js_truthy_opt_string wt then from_option id "" wt
     else if js_truthy_opt_string pn then from_option id "" pn else "Google Maps").

(** The station panel (lines 929-963). *)
Inductive StationPanel :=
  | Announcing                                               (** [loadingStation] *)
  | StationInfo (name description : string) (sources : list Source)
  | Prompt.                                                  (** "Select destination and identify your mission" *)

Definition station_panel (s : App) : StationPanel :=
  if loadingStation s then Announcing
  else match currentStation s with
       | Some st => StationInfo (Station.name st) (Station.description st) (source_of <$> groundingChunks s)
       | None => Prompt
       end.

(** The route under the progress bar (line 935). *)
Definition route_label (s : App) : string :=
  let d := selectedDestination s in
  js_upper (Destination.name d) +:+ " (" +:+
  (if bool_decide (Destination.id d = "freestyle") then "SURPRISE" else js_to_string (Destination.distanceKm d) +:+ " km")
  +:+ ")".

(** The destination cards (lines 997-1046): the freestyle card, then one
    card per destination of the grid. *)
Definition dest_cards : list Elem :=
  Button (SelectDestination Catalog.FREESTYLE_DESTINATION) ["Freestyle"; "Anywhere"; "?"] ::
  ((fun d => Button (SelectDestination d)
     [Destination.name d; Destination.region d; formatDurationDisplay (Destination.durationMinutes d)])
   <$> Catalog.DESTINATIONS).

(** [activeLabel?.id === label.id]. *)
Definition label_selected (s : App) (l : MissionLabel.t) : bool :=
  match activeLabel s with Some a => bool_decide (MissionLabel.id a = MissionLabel.id l) | None => false end.

(** The label chips and the add button (lines 1054-1106). *)
Definition label_elems (s : App) : list Elem :=
  (availableLabels s ≫= fun l =>
     [Button (SelectLabel l) [MissionLabel.name l; classes_text (getLabelColorClasses (MissionLabel.color l) (label_selected s l))];
      Confirm (MissionLabel.id l) "Delete Label"])
  ++ [Button OpenLabelEditor ["Add Label"]].

(** The sub-label area (lines 1109-1142): shown when the active label has
    sub-labels (an array, even empty, is truthy) or a custom prompt. *)
Definition sub_prompt (s : App) : option string :=
  match activeLabel s with
  | Some l =>
      if bool_decide (is_Some (MissionLabel.subLabels l)) || js_truthy_opt_string (MissionLabel.customSubLabelPrompt l)
      then Some (if js_truthy_opt_string (MissionLabel.customSubLabelPrompt l)
                 then from_option id "" (MissionLabel.customSubLabelPrompt l) else "Select Subject")
      else None
  | None => None
  end.

Definition sub_elems (s : App) : list Elem :=
  match activeLabel s with
  | Some l =>
      if bool_decide (is_Some (MissionLabel.subLabels l)) || js_truthy_opt_string (MissionLabel.customSubLabelPrompt l)
      then match MissionLabel.subLabels l with
           | Some subs => (fun sub => Button (SelectSubLabel sub) [sub]) <$> subs
           | None => [Field TypeSubLabel (from_option id "" (activeSubLabel s))]
           end
      else []
  | None => []
  end.

(** The selectors of an IDLE page (lines 986-1157). *)
Definition selectors (s : App) : list Elem :=
  if bool_decide (timerState s = IDLE)
  then dest_cards ++ label_elems s ++ sub_elems s ++ [Field TypeTask (taskDetail s)]
  else [].

Definition abandon_title (s : App) : string := if confirmAbandon s then "Click to Confirm" else "Abandon Trip".

(** The action buttons of each timer state (lines 1160-1243). *)
Definition controls (s : App) : list Elem :=
  match timerState s with
  | IDLE => [Button Depart ["Depart"]]
  | RUNNING => [Button FinishEarly ["Arrive Early (Complete)"; "Arrive"]; Button Pause []; Button Abandon [abandon_title s]]
  | PAUSED => [Button FinishEarly ["Arrive Early (Complete)"; "Arrive"]; Button Resume []; Button Abandon [abandon_title s]]
  | COMPLETED => [Button Reset ["Book Next Ticket"; "You have arrived!"]]
  end.

(** The statistics section (lines 1245-1249) is hidden below the md
    breakpoint while the countdown runs. *)
Definition stats_compact (s : App) : bool := bool_decide (timerState s = RUNNING).

Record PageView := mkPage {
  pg_temp : Q; pg_condition : string; pg_clear_glow : bool; pg_local_time : string;   (** lines 886-907 *)
  pg_tip : option string;                                                               (** lines 918-923 *)
  pg_progress : option Q; pg_route : string;                                            (** lines 925-937 *)
  pg_station : StationPanel;
  pg_clock : string; pg_clock_bright : bool;                                            (** lines 980-983 *)
  pg_sub_prompt : option string;
  pg_selectors : list Elem;
  pg_controls : list Elem;
  pg_stats : Stats.t; pg_stats_compact : bool;                                          (** lines 1245-1249 *)
  pg_log : option (list LogEntry)                                                       (** lines 1251-1296 *)
}.

Definition page_view (s : App) : PageView :=
  mkPage (WeatherState.temp (weather s)) (WeatherState.condition (weather s))
    (bool_decide (WeatherState.environment (weather s) = clear)) (localTime s)
    (if bool_decide (timerState s = RUNNING) then Some (currentTip s) else None)
    (progress s) (route_label s) (station_panel s)
    (formatTime (timeLeft s)) (bool_decide (timerState s = RUNNING))
    (if bool_decide (timerState s = IDLE) then sub_prompt s else None)
    (selectors s) (controls s)
    (Stats.stats (sessions s)) (stats_compact s) (travel_log s).

Definition page_elems (s : App) : list Elem := pg_selectors (page_view s) ++ pg_controls (page_view s).

(** The events of the main page's controls. *)
Definition main_event (ev : UserEvent) : bool :=
  match ev with
  | Depart | TypeTask _ | OpenLabelEditor | SelectDestination _ | Pause | Resume | Abandon | FinishEarly
  | Reset | SelectLabel _ | DeleteLabel _ _ | SelectSubLabel _ | TypeSubLabel _ => true
  | _ => false
  end.

(** Some control of [es] runs [ev]. *)
Definition fires (es : list Elem) (ev : UserEvent) : Prop := exists e, e ∈ es /\ triggers e ev.

(** ** Which events each part of the page runs *)

Lemma fires_nil ev : ~ fires [] ev.
Proof. intros (e & He & _). by apply elem_of_nil in He. Qed.

Lemma fires_app es1 es2 ev : fires (es1 ++ es2) ev <-> fires es1 ev \/ fires es2 ev.
Proof.
  unfold fires. split.
  - intros (e & [H|H]%elem_of_app & Ht); [left|right]; eauto.
  - intros [(e & H & Ht)|(e & H & Ht)]; exists e; rewrite elem_of_app; auto.
Qed.

Lemma fires_cons e es ev : fires (e :: es) ev <-> triggers e ev \/ fires es ev.
Proof.
  unfold fires. split.
  - intros (e' & [->|H]%elem_of_cons & Ht); [left|right]; eauto.
  - intros [Ht|(e' & H & Ht)]; [exists e|exists e']; rewrite elem_of_cons; auto.
Qed.

Lemma fires_buttons {A} (f : A -> UserEvent) (g : A -> list string) (xs : list A) ev :
  fires ((fun x => Button (f x) (g x)) <$> xs) ev <-> exists x, ev = f x /\ x ∈ xs.
Proof.
  unfold fires. setoid_rewrite list_elem_of_fmap. split.
  - intros (e & (x & -> & Hx) & Ht). eauto.
  - intros (x & -> & Hx). eexists. split; [eexists; split; [reflexivity|exact Hx]|reflexivity].
Qed.

Lemma fires_single_field mk v ev : fires [Field mk v] ev <-> exists v', ev = mk v'.
Proof. rewrite fires_cons. split; [intros [H|H]; [exact H|by apply fires_nil in H]|intros H; by left]. Qed.

Lemma fires_dest_cards ev :
  fires dest_cards ev <-> exists d, ev = SelectDestination d /\ d ∈ Catalog.FREESTYLE_DESTINATION :: Catalog.DESTINATIONS.
Proof.
  unfold dest_cards. rewrite fires_cons, fires_buttons. cbn [triggers]. split.
  - intros [->|(d & -> & Hd)]; eexists; (split; [reflexivity|]); rewrite elem_of_cons; auto.
  - intros (d & -> & [->|Hd]%elem_of_cons); [by left|right; eauto].
Qed.

Lemma fires_label_elems s ev :
  fires (label_elems s) ev <->
  (exists l, ev = SelectLabel l /\ l ∈ availableLabels s) \/
  (exists id b, ev = DeleteLabel id b /\ id ∈ MissionLabel.id <$> availableLabels s) \/
  ev = OpenLabelEditor.
Proof.
  unfold label_elems. rewrite fires_app, fires_cons. unfold fires at 1.
  setoid_rewrite list_elem_of_bind. setoid_rewrite list_elem_of_fmap. split.
  - intros [(e & (l & He & Hl) & Ht)|[Ht|Hn]].
    + apply elem_of_cons in He as [->|He]; [cbn in Ht; subst; left; eauto|].
      apply list_elem_of_singleton in He as ->. destruct Ht as [b ->]. right; left.
      exists (MissionLabel.id l), b. split; [reflexivity|]. by exists l.
    + by right; right.
    + by apply fires_nil in Hn.
  - intros [(l & -> & Hl) | [(id & b & -> & l & -> & Hl) | -> ]].
    + left. eexists. split; [exists l; split; [apply elem_of_cons; by left|exact Hl]|reflexivity].
    + left. eexists. split; [exists l; split; [apply elem_of_cons; right; by apply list_elem_of_singleton|exact Hl]|].
      by exists b.
    + right. by left.
Qed.

Lemma fires_sub_elems s ev :
  fires (sub_elems s) ev <->
  (exists l subs sub, activeLabel s = Some l /\ MissionLabel.subLabels l = Some subs /\ ev = SelectSubLabel sub /\ sub ∈ subs) \/
  (exists l v, activeLabel s = Some l /\ MissionLabel.subLabels l = None /\
     js_truthy_opt_string (MissionLabel.customSubLabelPrompt l) = true /\ ev = TypeSubLabel v).
Proof.
  unfold sub_elems. destruct (activeLabel s) as [l|]; [|split; [by intros ?%fires_nil|naive_solver]].
  destruct (MissionLabel.subLabels l) as [subs|] eqn:Es.
  - rewrite bool_decide_eq_true_2 by (eexists; reflexivity). cbn. rewrite fires_buttons. naive_solver.
  - rewrite bool_decide_eq_false_2 by (intros [? ?]; discriminate).
    destruct (js_truthy_opt_string _) eqn:Ep; cbn.
    + rewrite fires_single_field. naive_solver.
    + split; [by intros ?%fires_nil|].
      intros [(l0 & subs & sub & [= <-] & Hs & _)|(l0 & v & [= <-] & _ & Hp & _)]; congruence.
Qed.

Lemma fires_controls s ev :
  fires (controls s) ev <->
  (timerState s = IDLE /\ ev = Depart) \/
  ((timerState s = RUNNING \/ timerState s = PAUSED) /\ (ev = FinishEarly \/ ev = Abandon)) \/
  (timerState s = RUNNING /\ ev = Pause) \/ (timerState s = PAUSED /\ ev = Resume) \/
  (timerState s = COMPLETED /\ ev = Reset).
Proof.
  unfold controls. destruct (timerState s); rewrite ?fires_cons; split;
    (intros H; repeat destruct H as [H|H]; try (by apply fires_nil in H); cbn in *; subst; naive_solver).
Qed.

(** ** The page agrees with the scheduler *)

Lemma fires_selectors s ev :
  fires (selectors s) ev <->
  timerState s = IDLE /\
  ((exists d, ev = SelectDestination d /\ d ∈ Catalog.FREESTYLE_DESTINATION :: Catalog.DESTINATIONS) \/
   ((exists l, ev = SelectLabel l /\ l ∈ availableLabels s) \/
    (exists id b, ev = DeleteLabel id b /\ id ∈ MissionLabel.id <$> availableLabels s) \/ ev = OpenLabelEditor) \/
   fires (sub_elems s) ev \/ (exists v, ev = TypeTask v)).
Proof.
  unfold selectors. case_bool_decide as Hi.
  - rewrite !fires_app, fires_dest_cards, fires_label_elems, fires_single_field. tauto.
  - split; [by intros ?%fires_nil|tauto].
Qed.

(** The page and the scheduler agree on what the user can do: for every
    event of the main page's buttons and inputs, some control of
    [page_view] runs it exactly when [Scheduler.enabledb] allows it,
    whatever overlay is open over the page. *)
Lemma page_matches_enabledb s ev :
  main_event ev = true -> (fires (page_elems s) ev <-> enabledb ev s = true).
Proof.
  intros Hm. unfold page_elems, page_view. cbn [pg_selectors pg_controls].
  rewrite fires_app, fires_selectors, fires_sub_elems, fires_controls.
  destruct (activeLabel s) as [l|] eqn:El; [destruct (MissionLabel.subLabels l) as [subs|] eqn:Es|].
  all: destruct ev; try discriminate Hm; cbn [enabledb]; unfold main_ctl; rewrite ?El, ?Es;
    rewrite ?orb_true_iff, ?andb_true_iff, ?bool_decide_eq_true; split.
  all: try (intros H; repeat match goal with
             | H : _ \/ _ |- _ => destruct H
             | H : _ /\ _ |- _ => destruct H
             | H : ex _ |- _ => destruct H
             end; simplify_eq; first [tauto | done | idtac]).
  all: intros; naive_solver.
Qed.

(** C39: on every reachable page the statistics panel agrees with the
    Travel Log: "Stations Reached" is the number of recorded trips and
    "Mins Focused" the sum of their planned minutes (every recorded trip
    is completed, so [Stats]' filter keeps them all), and the log, shown
    exactly on an IDLE page with a non-empty history, has one row per
    station reached. *)
Theorem page_stats_match_log `{FlavorService} t0 w :
  reachable t0 w ->
  Stats.totalStations (pg_stats (page_view (app w))) = Z.of_nat (length (sessions (app w))) /\
  Stats.totalMinutes (pg_stats (page_view (app w))) = reduce_sum FocusSession.durationMinutes (sessions (app w)) /\
  (forall log, pg_log (page_view (app w)) = Some log ->
     Z.of_nat (length log) = Stats.totalStations (pg_stats (page_view (app w)))) /\
  (is_Some (pg_log (page_view (app w))) <-> sessions (app w) <> [] /\ timerState (app w) = IDLE).
Proof.
  intros Hr. assert (Hc : Forall (fun x => FocusSession.completed x = true) (sessions (app w))).
  { eapply Forall_impl; [|exact (ti_sessions _ (proj1 (wi_app _ (reachable_world_inv _ _ Hr))))].
    intros x Hx. apply Hx. }
  cbn [page_view pg_stats pg_log]. unfold Stats.stats.
  rewrite (Stats.completedSessions_all _ Hc). cbn [Stats.totalStations Stats.totalMinutes].
  split; [done|]. split; [done|]. unfold travel_log. case_bool_decide as Hl.
  - split; [intros log [= <-]; by rewrite length_fmap|]. split; [done|intros _; eauto].
  - split; [done|]. split; [intros []; discriminate|done].
Qed.

Lemma page_stats_match_log_witness :
  (Stats.totalStations (pg_stats (page_view (app demo_world))) = Z.of_nat (length (sessions (app demo_world))) /\
   Stats.totalMinutes (pg_stats (page_view (app demo_world))) =
     reduce_sum FocusSession.durationMinutes (sessions (app demo_world)) /\
   (forall log, pg_log (page_view (app demo_world)) = Some log ->
      Z.of_nat (length log) = Stats.totalStations (pg_stats (page_view (app demo_world)))) /\
   (is_Some (pg_log (page_view (app demo_world))) <->
      sessions (app demo_world) <> [] /\ timerState (app demo_world) = IDLE)) /\
  Stats.totalStations (pg_stats (page_view (app demo_world))) > 0.
Proof.
  split; [apply (page_stats_match_log (H:=AnyOutcome) 0); exact demo_reachable|].
  vm_compute. reflexivity.
Defined.

End Page.
